(** * TEASER: room-level spreadsheet import, zoning and envelope aggregation

    A shallow embedding of
    - [teaser/examples/e9_building_data_import_from_excel.py]
      ([import_data], [get_list_of_present_entries], [zoning_example],
      [import_building_from_excel]) and
    - [teaser/logic/buildingobjects/buildingphysics/groundfloor.py]
      ([GroundFloor.retrofit_wall]).

    Conventions of the embedding.
    - A pandas cell is a [cell]: the missing marker [NaN], a number or a
      string.  Numbers are exact rationals ([Qc]); the rounding of binary
      floating point is outside the model.  Python's [int]/[float]
      distinction is dropped (1 and 1.0 are the same cell, as they are the
      same key for pandas and for [==]).
    - A DataFrame is the list of its rows in iteration order.  Row labels are
      carried in the row ([idx]).  [data.loc[i, c]] designates the row being
      iterated when the labels are pairwise distinct, as they are in the
      table that [import_data] makes of a list of sheets; for the assignment
      of the cluster usage, [assign_usage_loc] is the statement as written,
      for any labels, and the statements on clusters assume distinct labels.
    - [warnings.warn] appends to a log; exceptions abort the computation and
      keep the log written so far. *)

From Stdlib Require Import QArith Qcanon Ascii String Floats.
From stdpp Require Import base list strings sorting numbers gmap.

Local Open Scope Qc_scope.

(** ** Cells and the Python operators used on them *)

Inductive cell : Type :=
  | NaN
  | Num (q : Qc)
  | Str (s : string).

Global Instance cell_eq_dec : EqDecision cell.
Proof. solve_decision. Defined.

Global Instance cell_inhabited : Inhabited cell := populate NaN.

Definition num (z : Z) : cell := Num (Qc_of_Z z).

(** [pd.isna(x)] *)
Definition isna (c : cell) : bool :=
  match c with NaN => true | _ => false end.

(** [isinstance(x, str)] *)
Definition is_str (c : cell) : bool :=
  match c with Str _ => true | _ => false end.

(** [x == y] on scalars: [nan] is equal to nothing, not even to itself, and
    a string is never equal to a number. *)
Definition py_eq (a b : cell) : bool :=
  match a, b with
  | Num x, Num y => bool_decide (x = y)
  | Str s, Str t => bool_decide (s = t)
  | _, _ => false
  end.

Inductive exn : Type :=
  | TypeError
  | KeyError (k : cell).

Inductive result (A : Type) : Type :=
  | Ok (a : A)
  | Raise (e : exn).
Global Arguments Ok {A} a.
Global Arguments Raise {A} e.

Definition rbind {A B} (m : result A) (f : A → result B) : result B :=
  match m with
  | Ok a => f a
  | Raise e => Raise e
  end.

Fixpoint rmapM {A B} (f : A → result B) (l : list A) : result (list B) :=
  match l with
  | [] => Ok []
  | x :: l => rbind (f x) (λ y, rbind (rmapM f l) (λ ys, Ok (y :: ys)))
  end.

(** [x + y]: [nan] absorbs numbers, strings concatenate, and a string added
    to a number (or to [nan], which is a float) raises [TypeError]. *)
Definition py_add (a b : cell) : result cell :=
  match a, b with
  | Num x, Num y => Ok (Num (x + y))
  | NaN, Num _ | Num _, NaN | NaN, NaN => Ok NaN
  | Str s, Str t => Ok (Str (s +:+ t))
  | _, _ => Raise TypeError
  end.

(** [x * y] as it occurs in the volume computation; a string operand is
    taken to raise. *)
Definition py_mul (a b : cell) : result cell :=
  match a, b with
  | Num x, Num y => Ok (Num (x * y))
  | NaN, Num _ | Num _, NaN | NaN, NaN => Ok NaN
  | _, _ => Raise TypeError
  end.

(** [np.nansum(column)]: missing entries count as zero.  The sum is the
    exact one; the program adds in binary floating point, see [nansum_f64].
    A string in the column is modelled as one [TypeError], raised by the
    sum or by the arithmetic done with its result. *)
Fixpoint nansum (l : list cell) : result Qc :=
  match l with
  | [] => Ok 0
  | c :: l =>
      rbind (nansum l) (λ s,
        match c with
        | NaN => Ok s
        | Num q => Ok (q + s)
        | Str _ => Raise TypeError
        end)
  end.


(** ** Rows of the input table (section 6 of the schema) *)

Record row : Type := Row {
  idx : cell;
  RoomIdentifier : cell;
  BelongsToIdentifier : cell;
  UsageType : cell;
  NetArea : cell;
  HeatedRoomHeight : cell;
  WallAdjacentTo : cell;
  OuterWallOrientation : cell;
  OuterWallArea : cell;
  OuterWallConstruction : cell;
  WindowOrientation : cell;
  WindowArea : cell;
  WindowConstruction : cell;
  IsGroundFloor : cell;
  FloorConstruction : cell;
  IsRooftop : cell;
  CeilingConstruction : cell;
  InnerWallArea : cell;
  InnerWallConstruction : cell
}.

Global Instance row_eq_dec : EqDecision row.
Proof. solve_decision. Defined.

(** The table after zoning: the input columns and the four added ones. *)
Record zrow : Type := ZRow {
  base : row;
  RoomCluster : cell;
  RoomClusterUsage : cell;
  UsageType_Teaser : cell;
  Zone : cell
}.

Global Instance zrow_eq_dec : EqDecision zrow.
Proof. solve_decision. Defined.

(** ** Diagnostics *)

Inductive kind : Type :=
  | OuterWall | Window | GroundFloor | Floor | Rooftop | Ceiling | InnerWall.

Global Instance kind_eq_dec : EqDecision kind.
Proof. solve_decision. Defined.

(** One constructor per [warnings.warn] call site, with the values its
    message is formatted from.  Where the message prints a whole group of
    rows, the labels of those rows are recorded. *)
Inductive warning : Type :=
  | WNetAreaZero (i : cell)
  | WMainUsage (cluster : cell) (members : list cell)
  | WOrientation (k : kind) (zone orientation : cell) (members : list cell)
  | WFlagValue (k : kind)
  | WNoArea (k : kind) (zone flag construction : cell)
  | WNoInnerWall (zone construction : cell)
  | WConstruction (zone : cell) (k : kind) (construction : cell)
      (members : list cell)
  | WNoAhu (zone : cell).

Global Instance warning_eq_dec : EqDecision warning.
Proof. solve_decision. Defined.

(** ** Computations that log warnings and may raise *)

Definition M (A : Type) : Type := list warning * result A.

Definition ret {A} (a : A) : M A := ([], Ok a).
Definition warn (w : warning) : M unit := ([w], Ok tt).
Definition lift {A} (r : result A) : M A := ([], r).

Definition bind {A B} (m : M A) (f : A → M B) : M B :=
  match m with
  | (ws, Ok a) => let '(ws', r) := f a in (ws ++ ws', r)
  | (ws, Raise e) => (ws, Raise e)
  end.

Notation "'let!' x ':=' m 'in' k" := (bind m (λ x, k))
  (at level 10, x name, m at level 100, k at level 200, only parsing).
Notation "'run!' m 'in' k" := (bind m (λ _, k))
  (at level 10, m at level 100, k at level 200, only parsing).

(** [for x in l: body x], collecting what the bodies return. *)
Fixpoint for_each {A B} (body : A → M B) (l : list A) : M (list B) :=
  match l with
  | [] => ret []
  | x :: l =>
      let! y := body x in
      let! ys := for_each body l in
      ret (y :: ys)
  end.

Definition log {A} (m : M A) : list warning := m.1.
Definition outcome {A} (m : M A) : result A := m.2.

(** [for x in l: s = body s x], threading the loop state. *)
Fixpoint for_fold {A S} (body : S → A → M S) (s : S) (l : list A) : M S :=
  match l with
  | [] => ret s
  | x :: l => let! s' := body s x in for_fold body s' l
  end.

(** ** [DataFrame.groupby]

    Rows whose key has a missing component are dropped; the groups come in
    sorted key order and keep the row order of the frame.  For keys of mixed
    type pandas orders numbers before strings. *)

(** The order of single keys: numbers by value and before strings, strings
    by code points. *)
Definition cell_le (a b : cell) : Prop :=
  match a, b with
  | Num x, Num y => x ≤ y
  | Num _, _ => True
  | Str s, Str t => String.leb s t
  | Str _, Num _ => False
  | Str _, NaN => True
  | NaN, NaN => True
  | NaN, _ => False
  end.

Global Instance cell_le_dec : RelDecision cell_le.
Proof. intros [|x|s] [|y|t]; simpl; apply _. Defined.

(** The order of keys of two columns: by the first, then by the second. *)
Definition pair_le (a b : cell * cell) : Prop :=
  (a.1 ≠ b.1 ∧ cell_le a.1 b.1) ∨ (a.1 = b.1 ∧ cell_le a.2 b.2).

Global Instance pair_le_dec : RelDecision pair_le.
Proof. intros a b; unfold pair_le; apply _. Defined.

(** The key of a row in one column and in two: none if a cell is missing. *)
Definition present (c : cell) : option cell :=
  if isna c then None else Some c.

Definition present2 (c1 c2 : cell) : option (cell * cell) :=
  k1 ← present c1; k2 ← present c2; Some (k1, k2).

Section groupby.
Context {A K : Type} `{EqDecision K} (le : relation K) `{!RelDecision le}.

Definition group_keys (key : A → option K) (d : list A) : list K :=
  merge_sort le (remove_dups (omap key d)).

Definition group_of (key : A → option K) (d : list A) (k : K) : list A :=
  filter (λ r, key r = Some k) d.

Definition groupby (key : A → option K) (d : list A) : list (K * list A) :=
  (λ k, (k, group_of key d k)) <$> group_keys key d.
End groupby.

(** [column.iloc[0]] of a group (groups are never empty). *)
Definition iloc0 {A} (col : A → cell) (group : list A) : cell :=
  from_option col NaN (head group).

(** ** [get_list_of_present_entries]

    [x not in _List] is membership up to [==]; the guard [if not None] is
    always taken. *)
Definition get_list_of_present_entries (list_ : list cell) : list cell :=
  foldl (λ acc x,
           if negb (existsb (py_eq x) acc) then
             if negb (isna x) then acc ++ [x] else acc
           else acc) [] list_.

(** ** [zoning_example] *)

(** Lines 166-178: an outer wall that is adjacent to another zone is
    accounted as inner wall.  The cells are those of the iterated row,
    which is what [data.loc[index, c]] addresses when the labels are
    pairwise distinct. *)
Definition reclassify (line : row) : result row :=
  if negb (isna (WallAdjacentTo line)) then
    rbind (py_add (OuterWallArea line) (WindowArea line)) (λ s,
    rbind (py_add s (InnerWallArea line)) (λ a,
    Ok {| idx := idx line;
          RoomIdentifier := RoomIdentifier line;
          BelongsToIdentifier := BelongsToIdentifier line;
          UsageType := UsageType line;
          NetArea := NetArea line;
          HeatedRoomHeight := HeatedRoomHeight line;
          WallAdjacentTo := WallAdjacentTo line;
          OuterWallOrientation := NaN;
          OuterWallArea := NaN;
          OuterWallConstruction := NaN;
          WindowOrientation := NaN;
          WindowArea := NaN;
          WindowConstruction := NaN;
          IsGroundFloor := IsGroundFloor line;
          FloorConstruction := FloorConstruction line;
          IsRooftop := IsRooftop line;
          CeilingConstruction := CeilingConstruction line;
          InnerWallArea := a;
          InnerWallConstruction := InnerWallConstruction line |}))
  else Ok line.

(** Lines 181-187: the entry of the column [RoomCluster] for a line. *)
Definition cluster_key (line : row) : cell :=
  if isna (BelongsToIdentifier line) then RoomIdentifier line
  else BelongsToIdentifier line.

(** Lines 194-203. *)
Definition net_area_check (r : row) : M unit :=
  if (py_eq (NetArea r) (num 0) || py_eq (NetArea r) NaN)
     && negb (isna (UsageType r))
  then warn (WNetAreaZero (idx r))
  else ret tt.

(** The condition of lines 210-212. *)
Definition is_main (line : row) : bool :=
  isna (BelongsToIdentifier line) && negb (isna (UsageType line)).

(** Lines 214-216: [data.loc[i, "RoomClusterUsage"] = main_usage] for every
    row of the table in the cluster of [line], taken row by row (see
    [assign_usage_loc] for the assignment by label).  The column does not
    exist ([None]) until the first assignment, which creates it filled with
    [nan]. *)
Definition assign_usage (data : list row) (key usage : cell)
    (col : option (list cell)) : option (list cell) :=
  if existsb (λ r, py_eq (cluster_key r) key) data then
    Some (zip_with (λ r old, if py_eq (cluster_key r) key then usage else old)
            data (default (replicate (length data) NaN) col))
  else col.

(** Lines 208-217: the inner loop over the lines of one cluster. *)
Definition scan_cluster (data cluster : list row)
    (col : option (list cell)) : option (list cell) * nat :=
  foldl (λ st line,
           if is_main line then
             (assign_usage data (cluster_key line) (UsageType line) st.1,
              S st.2)
           else st)
        (col, 0%nat) cluster.

(** Lines 206-232. *)
Definition resolve_usage (data : list row) : M (option (list cell)) :=
  for_fold (λ col g,
      let st := scan_cluster data g.2 col in
      run! (if bool_decide (st.2 ≠ 1%nat)
            then warn (WMainUsage g.1 (idx <$> g.2)) else ret tt) in
      ret st.1)
    None
    (groupby cell_le (λ r, present (cluster_key r)) data).

(** Lines 214-216 as they are written: [data.loc[i, "RoomClusterUsage"] =
    main_usage], for every row [i] of the cluster of [line], assigns to
    every row of the table that carries the label of such a row.  With
    pairwise distinct labels this is [assign_usage]. *)
Definition assign_usage_loc (data : list row) (key usage : cell)
    (col : option (list cell)) : option (list cell) :=
  if existsb (λ r, py_eq (cluster_key r) key) data then
    Some (zip_with
            (λ r old,
               if existsb (λ r', py_eq (cluster_key r') key
                                 && bool_decide (idx r' = idx r)) data
               then usage else old)
            data (default (replicate (length data) NaN) col))
  else col.

(** Lines 208-217 and 206-232 with that assignment. *)
Definition scan_cluster_loc (data cluster : list row)
    (col : option (list cell)) : option (list cell) * nat :=
  foldl (λ st line,
           if is_main line then
             (assign_usage_loc data (cluster_key line) (UsageType line) st.1,
              S st.2)
           else st)
        (col, 0%nat) cluster.

Definition resolve_usage_loc (data : list row) : M (option (list cell)) :=
  for_fold (λ col g,
      let st := scan_cluster_loc data g.2 col in
      run! (if bool_decide (st.2 ≠ 1%nat)
            then warn (WMainUsage g.1 (idx <$> g.2)) else ret tt) in
      ret st.1)
    None
    (groupby cell_le (λ r, present (cluster_key r)) data).

(** Lines 235-249. *)
Definition usage_to_json_usage : gmap string string :=
  list_to_map [
    ("IsolationRoom", "Bed room");
    ("PatientRoom", "Bed room");
    ("Aisle", "Corridors in the general care area");
    ("Technical room", "Stock, technical equipment, archives");
    ("Washing", "WC and sanitary rooms in non-residential buildings");
    ("Stairway", "Corridors in the general care area");
    ("WC", "WC and sanitary rooms in non-residential buildings");
    ("Storage", "Stock, technical equipment, archives");
    ("Lounge", "Meeting, Conference, seminar");
    ("Office", "Meeting, Conference, seminar");
    ("Treatment room", "Examination- or treatment room");
    ("StorageChemical", "Stock, technical equipment, archives");
    ("EquipmentServiceAndRinse",
       "WC and sanitary rooms in non-residential buildings")
  ]%string.

(** [d[k]] on a dictionary with string keys. *)
Definition dict_get (d : gmap string string) (k : cell) : result string :=
  match k with
  | Str s => match d !! s with
             | Some v => Ok v
             | None => Raise (KeyError k)
             end
  | _ => Raise (KeyError k)
  end.

(** Lines 253-260: the column [UsageType_Teaser]. *)
Fixpoint rename_loop (col : list cell) (usages : list cell)
    (teaser : list cell) : result (list cell) :=
  match usages with
  | [] => Ok teaser
  | usage :: usages =>
      rbind (dict_get usage_to_json_usage usage) (λ v,
        rename_loop col usages
          (zip_with (λ c old, if py_eq c usage then Str v else old)
             col teaser))
  end.

Definition rename_usages (col : list cell) : result (list cell) :=
  rename_loop col (get_list_of_present_entries col)
    (replicate (length col) (Str EmptyString)).

Definition zoning_example (data : list row) : M (list zrow) :=
  let! data := lift (rmapM reclassify data) in
  run! for_each net_area_check data in
  let! usage := resolve_usage data in
  match usage with
  | None => lift (Raise (KeyError (Str "RoomClusterUsage")))
  | Some col =>
      let! teaser := lift (rename_usages col) in
      ret (zip_with (λ r ut, ZRow r (cluster_key r) ut.1 ut.2 ut.2)
             data (zip col teaser))
  end.

(** ** [import_building_from_excel]

    The building elements and zones that the loop creates.  Element names
    (built from kind, orientation and construction) are not observed by any
    statement below and are left out.  The two external catalogs are
    parameters of the embedding: the construction catalog behind
    [load_type_element], which leaves the element without construction on a
    miss, and the use-condition catalog behind [load_use_conditions], which
    may raise. *)

Record element : Type := Element {
  e_kind : kind;
  e_area : Qc;
  e_tilt : option Qc;
  e_orientation : option cell;
  e_construction : cell
}.

Global Instance element_eq_dec : EqDecision element.
Proof. solve_decision. Defined.

(** A zone keeps its elements in one list per creating loop, in creation
    order: [tz_floors] holds ground floors and floors, [tz_ceilings]
    rooftops and ceilings, told apart by [e_kind]. *)
Record thermal_zone : Type := ThermalZone {
  tz_name : cell;
  tz_area : Qc;
  tz_volume : Qc;
  tz_outer_walls : list element;
  tz_windows : list element;
  tz_floors : list element;
  tz_ceilings : list element;
  tz_inner_walls : list element;
  tz_ahu : option (Qc * Qc)
}.

Definition out_wall_tilt : Qc := Qc_of_Z 90.
Definition window_tilt : Qc := Qc_of_Z 90.
Definition ground_floor_tilt : Qc := Qc_of_Z 0.
Definition floor_tilt : Qc := Qc_of_Z 0.
Definition ceiling_tilt : Qc := Qc_of_Z 0.
Definition rooftop_tilt : Qc := Qc_of_Z 0.
Definition ground_floor_orientation : cell := num (-2).
Definition floor_orientation : cell := num (-2).
Definition rooftop_orientation : cell := num (-1).
Definition ceiling_orientation : cell := num (-1).

Definition labels (group : list zrow) : list cell := (idx ∘ base) <$> group.

Definition column (f : row → cell) (group : list zrow) : list cell :=
  (f ∘ base) <$> group.

Section import_building.
(** [catalog k c]: [load_type_element] finds construction [c] for an
    element of kind [k] and the building's year of construction. *)
Variable catalog : kind → cell → bool.

(** [load_use_conditions u]: loading the use conditions of usage [u]. *)
Variable load_use_conditions : cell → result unit.

(** Lines 294-309. *)
Definition warn_constructiontype (e : element) (group : list zrow) : M unit :=
  if catalog (e_kind e) (e_construction e) then ret tt
  else warn (WConstruction (iloc0 Zone group) (e_kind e)
               (iloc0 (OuterWallConstruction ∘ base) group) (labels group)).

(** Lines 387-425 and 428-466: the body of the loops over the
    (orientation, construction) groups, for outer walls and for windows. *)
Definition facade_group (k : kind) (tilt : Qc)
    (orientation area construction : row → cell)
    (group : list zrow) : M (list element) :=
  if negb (is_str (iloc0 (orientation ∘ base) group)) then
    let! a := lift (nansum (column area group)) in
    if bool_decide (0 < a) then
      let e := {| e_kind := k;
                  e_area := a;
                  e_tilt := Some tilt;
                  e_orientation := Some (iloc0 (orientation ∘ base) group);
                  e_construction := iloc0 (construction ∘ base) group |} in
      run! warn_constructiontype e group in
      ret [e]
    else ret []
  else
    run! warn (WOrientation k (iloc0 Zone group)
                 (iloc0 (orientation ∘ base) group) (labels group)) in
    ret [].

(** Lines 469-513 and 516-562: the body of the loops over the
    (flag, construction) groups; [full] is the kind created for flag 1
    (ground floor, rooftop) and [half] the one for flag 0 (floor,
    ceiling). *)
Definition level_group (full half : kind) (tilt : Qc) (sentinel : cell)
    (flag construction : row → cell)
    (group : list zrow) : M (list element) :=
  let! a := lift (nansum (column NetArea group)) in
  if bool_decide (a ≠ 0) then
    if py_eq (iloc0 (flag ∘ base) group) (num 1) then
      let e := {| e_kind := full;
                  e_area := a;
                  e_tilt := Some tilt;
                  e_orientation := Some sentinel;
                  e_construction := iloc0 (construction ∘ base) group |} in
      run! warn_constructiontype e group in
      ret [e]
    else if py_eq (iloc0 (flag ∘ base) group) (num 0) then
      let e := {| e_kind := half;
                  e_area := a / Qc_of_Z 2;
                  e_tilt := Some tilt;
                  e_orientation := Some sentinel;
                  e_construction := iloc0 (construction ∘ base) group |} in
      run! warn_constructiontype e group in
      ret [e]
    else
      run! warn (WFlagValue full) in
      ret []
  else
    run! warn (WNoArea full (iloc0 Zone group) (iloc0 (flag ∘ base) group)
                 (iloc0 (construction ∘ base) group)) in
    ret [].

(** Lines 565-585. *)
Definition inner_wall_group (group : list zrow) : M (list element) :=
  let! a := lift (nansum (column InnerWallArea group)) in
  if bool_decide (a ≠ 0) then
    let e := {| e_kind := InnerWall;
                e_area := a / Qc_of_Z 2;
                e_tilt := None;
                e_orientation := None;
                e_construction :=
                  iloc0 (InnerWallConstruction ∘ base) group |} in
    run! warn_constructiontype e group in
    ret [e]
  else
    run! warn (WNoInnerWall (iloc0 Zone group)
                 (iloc0 (InnerWallConstruction ∘ base) group)) in
    ret [].

(** [for name, group in zone.groupby(...): body group] *)
Definition for_groups {K : Type} `{EqDecision K} (le : relation K)
    `{!RelDecision le} (key : zrow → option K)
    (body : list zrow → M (list element))
    (zone : list zrow) : M (list element) :=
  let! ess := for_each (λ g, body g.2) (groupby le key zone) in
  ret (concat ess).

(** The loop over the (orientation, construction) groups of a zone. *)
Definition facades (k : kind) (tilt : Qc)
    (orientation area construction : row → cell) :
    list zrow → M (list element) :=
  for_groups pair_le
    (λ r, present2 (orientation (base r)) (construction (base r)))
    (facade_group k tilt orientation area construction).

Definition outer_walls : list zrow → M (list element) :=
  facades OuterWall out_wall_tilt
    OuterWallOrientation OuterWallArea OuterWallConstruction.

Definition windows : list zrow → M (list element) :=
  facades Window window_tilt
    WindowOrientation WindowArea WindowConstruction.

(** The loop over the (flag, construction) groups of a zone. *)
Definition levels (full half : kind) (tilt : Qc) (sentinel : cell)
    (flag construction : row → cell) : list zrow → M (list element) :=
  for_groups pair_le
    (λ r, present2 (flag (base r)) (construction (base r)))
    (level_group full half tilt sentinel flag construction).

Definition floors : list zrow → M (list element) :=
  levels GroundFloor Floor ground_floor_tilt ground_floor_orientation
    IsGroundFloor FloorConstruction.

Definition ceilings : list zrow → M (list element) :=
  levels Rooftop Ceiling rooftop_tilt rooftop_orientation
    IsRooftop CeilingConstruction.

Definition inner_walls : list zrow → M (list element) :=
  for_groups cell_le
    (λ r, present (InnerWallConstruction (base r)))
    inner_wall_group.

(** Lines 589-596: minimal and maximal supply flow of the AHU per zone. *)
Definition ahu_dict : gmap string (Qc * Qc) :=
  list_to_map [
    ("Bedroom", (Q2Qc (15778 # 1000), Q2Qc (15778 # 1000)));
    ("Corridorsinthegeneralcarearea",
       (Q2Qc (52941 # 10000), Q2Qc (52941 # 10000)));
    ("Examinationortreatmentroom",
       (Q2Qc (15743 # 1000), Q2Qc (15743 # 1000)));
    ("MeetingConferenceseminar",
       (Q2Qc (16036 # 1000), Q2Qc (16036 # 1000)));
    ("Stocktechnicalequipmentarchives",
       (Q2Qc (20484 # 1000), Q2Qc (20484 # 1000)));
    ("WCandsanitaryroomsinnonresidentialbuildings",
       (Q2Qc (27692 # 1000), Q2Qc (27692 # 1000)))
  ]%string.

(** Lines 597-602: the flows for the zone named [str(name)], if any.  The
    setter of [ThermalZone.name] belongs to a class outside these sources;
    the name is compared as it was assigned. *)
Definition ahu_flows (name : cell) : option (Qc * Qc) :=
  match name with
  | Str s => ahu_dict !! s
  | _ => None
  end.

(** Lines 603-608. *)
Definition ahu_check (name : cell) : M unit :=
  if ahu_flows name is Some _ then ret tt else warn (WNoAhu name).

(** Lines 364-608: the body of the loop over the zones. *)
Definition build_zone (name : cell) (zone : list zrow) : M thermal_zone :=
  let! area := lift (nansum (column NetArea zone)) in
  let! volumes :=
    lift (rmapM (λ r, py_mul (NetArea (base r)) (HeatedRoomHeight (base r)))
            zone) in
  let! volume := lift (nansum volumes) in
  run! lift (load_use_conditions (iloc0 UsageType_Teaser zone)) in
  let! ow := outer_walls zone in
  let! wi := windows zone in
  let! fl := floors zone in
  let! ce := ceilings zone in
  let! iw := inner_walls zone in
  run! ahu_check name in
  ret {| tz_name := name;
         tz_area := area;
         tz_volume := volume;
         tz_outer_walls := ow;
         tz_windows := wi;
         tz_floors := fl;
         tz_ceilings := ce;
         tz_inner_walls := iw;
         tz_ahu := ahu_flows name |}.

(** Lines 347-610, from the table that [import_data] returned. *)
Definition import_building_from_excel (data : list row) :
    M (list thermal_zone) :=
  let! data := zoning_example data in
  for_each (λ g, build_zone g.1 g.2)
    (groupby cell_le (λ r, present (Zone r)) data).
End import_building.

(** ** [import_data]

    [pd.read_excel] is external.  With a list of sheet names it returns one
    frame per sheet, each with the default labels 0, 1, ... (the header row
    is consumed); with a single name the first column of the sheet becomes
    the row label.  A frame is the list of its rows, a row its label and its
    cells; the sheets of one workbook are taken to have the same columns. *)

Abbreviation frame := (list (cell * list cell)).

Inductive workbook : Type :=
  | Sheets (sheets : list (list (list cell)))
  | Single (sheet : frame).

(** [str.isspace] on the code points below 256. *)
Definition is_space (c : ascii) : bool :=
  let n := N_of_ascii c in
  bool_decide (9 ≤ n ≤ 13 ∨ 28 ≤ n ≤ 32 ∨ n = 133 ∨ n = 160)%N.

Fixpoint lstrip (s : string) : string :=
  match s with
  | EmptyString => EmptyString
  | String c s' => if is_space c then lstrip s' else s
  end.

Fixpoint rstrip (s : string) : string :=
  match s with
  | EmptyString => EmptyString
  | String c s' =>
      match rstrip s' with
      | EmptyString => if is_space c then EmptyString else String c EmptyString
      | t => String c t
      end
  end.

(** [x.strip()] *)
Definition strip (s : string) : string := rstrip (lstrip s).

(** Line 104: [x.strip() if type(x) is str else x]. *)
Definition strip_cell (x : cell) : cell :=
  match x with
  | Str s => Str (strip s)
  | _ => x
  end.

(** Lines 108-110: the values replaced by [np.nan]. *)
Definition missing_tokens : list string :=
  [EmptyString; "N/a"; "n/A"; "NAN"; "nan"; "na"; "Na"; "nA"; "NA"]%string.

Definition replace_missing (x : cell) : cell :=
  match x with
  | Str s => if bool_decide (s ∈ missing_tokens) then NaN else x
  | _ => x
  end.

Definition clean_cell (x : cell) : cell := replace_missing (strip_cell x).

(** [x + 2] on an integer label. *)
Definition plus_two (x : cell) : cell :=
  match x with
  | Num q => Num (q + Qc_of_Z 2)
  | _ => x
  end.

Definition range_index (sheet : list (list cell)) : frame :=
  imap (λ i r, (num (Z.of_nat i), r)) sheet.

(** [data.reset_index(drop=False)] followed by [data["index"] + 2]: the old
    label becomes the first column and the rows are relabelled 0, 1, ... *)
Definition reset_index_plus_two (data : frame) : frame :=
  imap (λ j (ir : cell * list cell),
          (num (Z.of_nat j), plus_two ir.1 :: ir.2)) data.

Definition import_data (wb : workbook) : frame :=
  let data :=
    match wb with
    | Sheets sheets => reset_index_plus_two (concat (range_index <$> sheets))
    | Single sheet => sheet
    end in
  (λ ir : cell * list cell, (ir.1, clean_cell <$> ir.2)) <$> data.

(** ** [GroundFloor.retrofit_wall]

    [initialize_retrofit] and [set_insulation] are inherited from classes
    that are not part of the sources at hand; they are parameters, acting on
    the state [S] of the element and failing with an error of type [E]. *)

Section retrofit.
Context {S E : Type}.
Variable initialize_retrofit :
  option string → Z → S → E + (string * Z * S).
Variable set_insulation : string → option Qc → Z → S → E + S.

(** Lines 144-157. *)
Definition calc_u (year_of_retrofit : Z) : option Qc :=
  if bool_decide (1977 ≤ year_of_retrofit ≤ 1981)%Z then
    Some (Q2Qc (8 # 10))
  else if bool_decide (1982 ≤ year_of_retrofit ≤ 1994)%Z then
    Some (Q2Qc (7 # 10))
  else if bool_decide (1995 ≤ year_of_retrofit ≤ 2001)%Z then
    Some (Q2Qc (5 # 10))
  else if bool_decide (2002 ≤ year_of_retrofit ≤ 2008)%Z then
    Some (Q2Qc (4 # 10))
  else if bool_decide (2009 ≤ year_of_retrofit ≤ 2013)%Z then
    Some (Q2Qc (3 # 10))
  else if bool_decide (2014 ≤ year_of_retrofit)%Z then
    Some (Q2Qc (3 # 10))
  else None.

Definition retrofit_wall (year_of_retrofit : Z) (material : option string)
    (self : S) : E + S :=
  match initialize_retrofit material year_of_retrofit self with
  | inl e => inl e
  | inr (material, year_of_retrofit, self) =>
      set_insulation material (calc_u year_of_retrofit) year_of_retrofit
        self
  end.
End retrofit.

(** The conditions a retrofit fails with: the one that the specification
    names, and those of [set_insulation]. *)
Inductive retrofit_error (E : Type) : Type :=
  | InvalidYear
  | InsulationError (e : E).
Global Arguments InvalidYear {E}.
Global Arguments InsulationError {E} e.

(** Modelled from the spec: [initialize_retrofit], which [GroundFloor]
    inherits from a class that is not part of the sources.  Section 4.6 of
    the specification: "given a retrofit year (must be ≥ 1977) and an
    optional replacement material, determine a target U-value from a fixed
    year-band table ... Fails with an InvalidYear condition for years
    < 1977."  [retrofit_wall] tests no such thing itself and calls this
    helper first, so the check is taken to be the helper's: it fails with
    [InvalidYear] below 1977 and otherwise hands on the material, the
    default one if none is given, and the year as it is. *)
Definition initialize_retrofit {S E : Type} (default_material : string)
    (material : option string) (year_of_retrofit : Z) (self : S) :
    retrofit_error E + (string * Z * S) :=
  if bool_decide (year_of_retrofit < 1977)%Z then inl InvalidYear
  else inr (default default_material material, year_of_retrofit, self).

(** ** Notions used in the statements *)


(** The clusters that the loop of lines 206-232 visits. *)
Definition clusters (D : list row) : list (cell * list row) :=
  groupby cell_le (λ r, present (cluster_key r)) D.

(** The lines of the table that qualify as main usage of cluster [k]: no
    back-reference and a usage. *)
Definition main_lines (D : list row) (k : cell) : list row :=
  filter (λ line, is_main line ∧ cluster_key line = k) D.

(** The usage of the last qualifying line of the cluster of [r]. *)
Definition cluster_usage (D : list row) (r : row) : cell :=
  if isna (cluster_key r) then NaN
  else from_option UsageType NaN (last (main_lines D (cluster_key r))).

(** Some cluster of the table has a qualifying line. *)
Definition has_main (D : list row) : Prop :=
  Exists (λ line, is_main line ∧ ¬ isna (cluster_key line)) D.

(** The diagnostic of lines 218-232 for one cluster. *)
Definition main_usage_warning (g : cell * list row) : list warning :=
  if bool_decide (length (filter (λ l, is_main l) g.2) ≠ 1%nat)
  then [WMainUsage g.1 (idx <$> g.2)] else [].

(** One pass through lines 213-216. *)
Definition assign_line (D : list row) (col : option (list cell))
    (line : row) : option (list cell) :=
  assign_usage D (cluster_key line) (UsageType line) col.

(** The entry of the column for row [r] after the assignments for the
    lines [S], when it was [old] before. *)
Definition usage_after (S : list row) (r : row) (old : cell) : cell :=
  foldl (λ u line,
           if py_eq (cluster_key r) (cluster_key line) then UsageType line
           else u) old S.

(** The entry of [UsageType_Teaser] for a resolved usage. *)
Definition teaser_of (usage : cell) : cell :=
  match dict_get usage_to_json_usage usage with
  | Ok v => Str v
  | Raise _ => Str EmptyString
  end.

(** The row of the zoned table for row [r] of the reclassified table [D]. *)
Definition annotate (D : list row) (r : row) : zrow :=
  {| base := r;
     RoomCluster := cluster_key r;
     RoomClusterUsage := cluster_usage D r;
     UsageType_Teaser := teaser_of (cluster_usage D r);
     Zone := teaser_of (cluster_usage D r) |}.

(** Every resolved usage of the table is a key of the mapping. *)
Definition usages_known (D : list row) : Prop :=
  ∀ r, r ∈ D → isna (cluster_usage D r) = false →
    ∃ v, dict_get usage_to_json_usage (cluster_usage D r) = Ok v.

(** The zones of a zoned table and the rows of a zone (line 363). *)
Definition zone_names (Z : list zrow) : list cell :=
  group_keys cell_le (λ r, present (Zone r)) Z.

Definition zone_rows (Z : list zrow) (name : cell) : list zrow :=
  group_of (λ r, present (Zone r)) Z name.

(** The element comes from the (orientation, construction) group [kk]. *)
Definition of_group (kk : cell * cell) (e : element) : Prop :=
  e_orientation e = Some kk.1 ∧ e_construction e = kk.2.

Global Instance of_group_dec kk e : Decision (of_group kk e).
Proof. unfold of_group. apply _. Defined.

(** What is claimed of the loop over the (orientation, construction) groups
    of the zone [name] with rows [zone], which returned the elements [es]
    while the run logged [ws]: a group with a string for orientation leaves a
    diagnostic and no element; any other group leaves exactly one element,
    with the summed area, if that sum is positive, and none otherwise. *)
Definition facades_as_claimed (k : kind) (tilt : Qc)
    (orientation area construction : row → cell)
    (name : cell) (zone : list zrow)
    (es : list element) (ws : list warning) : Prop :=
  ∀ kk,
    kk ∈ group_keys pair_le
           (λ r, present2 (orientation (base r)) (construction (base r)))
           zone →
    let group :=
      group_of (λ r, present2 (orientation (base r)) (construction (base r)))
        zone kk in
    (is_str kk.1 = true →
       WOrientation k name kk.1 (labels group) ∈ ws ∧
       filter (of_group kk) es = []) ∧
    (is_str kk.1 = false →
       ∃ s, nansum (column area group) = Ok s ∧
            filter (of_group kk) es =
              if bool_decide (0 < s) then
                [{| e_kind := k; e_area := s; e_tilt := Some tilt;
                    e_orientation := Some kk.1; e_construction := kk.2 |}]
              else []).

(** What is claimed of the loop over the (flag, construction) groups of the
    zone [name] with rows [zone], which returned the elements [es] while the
    run logged [ws]: [es] is what the loop body returned for the groups, in
    turn; for a group with area and a flag other than 0 and 1, and for a
    group without area, the body leaves a diagnostic and returns no
    element. *)
Definition levels_as_claimed (catalog : kind → cell → bool)
    (full half : kind) (tilt : Qc) (sentinel : cell)
    (flag construction : row → cell)
    (name : cell) (zone : list zrow)
    (es : list element) (ws : list warning) : Prop :=
  let key := λ r : zrow, present2 (flag (base r)) (construction (base r)) in
  let body := level_group catalog full half tilt sentinel flag construction in
  (∃ ess,
     Forall2 (λ kk es_kk, outcome (body (group_of key zone kk)) = Ok es_kk)
       (group_keys pair_le key zone) ess ∧
     es = concat ess) ∧
  ∀ kk, kk ∈ group_keys pair_le key zone →
    ∃ s, nansum (column NetArea (group_of key zone kk)) = Ok s ∧
      (s ≠ 0 → kk.1 ≠ num 0 → kk.1 ≠ num 1 →
         WFlagValue full ∈ ws ∧
         outcome (body (group_of key zone kk)) = Ok []) ∧
      (s = 0 →
         WNoArea full name kk.1 kk.2 ∈ ws ∧
         outcome (body (group_of key zone kk)) = Ok []).

(** What is claimed of the areas of the elements [es] that the loop over the
    (flag, construction) groups of [zone] created: each belongs to a group;
    the kind for flag 0 has half the summed net area of the group, the kind
    for flag 1 all of it. *)
Definition level_areas_as_claimed (full half : kind)
    (flag construction : row → cell)
    (zone : list zrow) (es : list element) : Prop :=
  let key := λ r : zrow, present2 (flag (base r)) (construction (base r)) in
  ∀ e, e ∈ es →
    ∃ kk s,
      kk ∈ group_keys pair_le key zone ∧
      e_construction e = kk.2 ∧
      nansum (column NetArea (group_of key zone kk)) = Ok s ∧
      ((e_kind e = half ∧ kk.1 = num 0 ∧
        e_area e = s / Qc_of_Z 2 ∧ e_area e + e_area e = s) ∨
       (e_kind e = full ∧ kk.1 = num 1 ∧ e_area e = s)).

(** The same for the inner walls, grouped by construction: half the summed
    inner-wall area. *)
Definition inner_wall_areas_as_claimed
    (zone : list zrow) (es : list element) : Prop :=
  let key := λ r : zrow, present (InnerWallConstruction (base r)) in
  ∀ e, e ∈ es →
    e_kind e = InnerWall ∧
    ∃ c s,
      c ∈ group_keys cell_le key zone ∧
      e_construction e = c ∧
      nansum (column InnerWallArea (group_of key zone c)) = Ok s ∧
      e_area e = s / Qc_of_Z 2 ∧ e_area e + e_area e = s.

(** The diagnostic of lines 198-203 for one row. *)
Definition net_area_warning (r : row) : list warning :=
  log (net_area_check r).


(** The columns that enter sums and products hold no strings. *)
Definition numeric_columns (r : row) : Prop :=
  is_str (NetArea r) = false ∧ is_str (HeatedRoomHeight r) = false ∧
  is_str (OuterWallArea r) = false ∧ is_str (WindowArea r) = false ∧
  is_str (InnerWallArea r) = false.

(** The usages of the catalog that the mapping of lines 235-249 names. *)
Definition teaser_usages : list string :=
  ["Bed room";
   "Corridors in the general care area";
   "Stock, technical equipment, archives";
   "WC and sanitary rooms in non-residential buildings";
   "Meeting, Conference, seminar";
   "Examination- or treatment room"]%string.

(** The labels a zone can have: the empty string and the usages of the
    catalog. *)
Definition zone_labels : list cell :=
  Str EmptyString :: (Str <$> teaser_usages).

(** All elements of a zone, in the order of the loops that create them. *)
Definition tz_elements (tz : thermal_zone) : list element :=
  tz_outer_walls tz ++ tz_windows tz ++ tz_floors tz ++ tz_ceilings tz ++
  tz_inner_walls tz.

(** What holds of every outer wall and window: created with a positive
    area, the tilt of its kind, an orientation that is a number, and a
    construction that is not missing. *)
Definition facade_element (k : kind) (tilt : Qc) (e : element) : Prop :=
  e_kind e = k ∧ 0 < e_area e ∧ e_tilt e = Some tilt ∧
  (∃ q, e_orientation e = Some (Num q)) ∧
  isna (e_construction e) = false.

(** What holds of every floor and ceiling: one of the two kinds of its
    loop, an area other than 0, the tilt and the sentinel orientation of
    the loop, and a construction that is not missing. *)
Definition level_element (full half : kind) (tilt : Qc) (sentinel : cell)
    (e : element) : Prop :=
  (e_kind e = full ∨ e_kind e = half) ∧ e_area e ≠ 0 ∧
  e_tilt e = Some tilt ∧ e_orientation e = Some sentinel ∧
  isna (e_construction e) = false.

(** What holds of every inner wall. *)
Definition inner_wall_element (e : element) : Prop :=
  e_kind e = InnerWall ∧ e_area e ≠ 0 ∧
  e_tilt e = None ∧ e_orientation e = None ∧
  isna (e_construction e) = false.

(** The element has construction [c]. *)
Definition of_construction (c : cell) (e : element) : Prop :=
  e_construction e = c.

Global Instance of_construction_dec c e : Decision (of_construction c e).
Proof. unfold of_construction. apply _. Defined.

(** The diagnostic of lines 297-309 for element [e] created from the rows
    [group]: the construction it names is the outer-wall construction of
    the first row of the group, whatever the kind of [e]. *)
Definition construction_warning (group : list zrow) (e : element) : warning :=
  WConstruction (iloc0 Zone group) (e_kind e)
    (iloc0 (OuterWallConstruction ∘ base) group) (labels group).

Definition is_construction_warning (w : warning) : bool :=
  match w with WConstruction _ _ _ _ => true | _ => false end.

(** What a loop body logs about constructions, given what it returns: the
    diagnostic for the elements it created that the catalog does not know,
    and no other. *)
Definition reports_constructions (catalog : kind → cell → bool)
    (body : list zrow → M (list element)) : Prop :=
  ∀ group es w,
    outcome (body group) = Ok es → is_construction_warning w = true →
    w ∈ log (body group) ↔
    ∃ e, e ∈ es ∧ catalog (e_kind e) (e_construction e) = false ∧
         w = construction_warning group e.

(** ** Sample tables *)

(** A room with an outer wall towards a neighbouring zone: outer-wall area
    8, window area 2, inner-wall area 3. *)
Definition adjacent_wall_row : row :=
  {| idx := num 0;
     RoomIdentifier := Str "R1"; BelongsToIdentifier := NaN;
     UsageType := Str "Office"; NetArea := num 20; HeatedRoomHeight := num 3;
     WallAdjacentTo := Str "R2";
     OuterWallOrientation := num 90; OuterWallArea := num 8;
     OuterWallConstruction := Str "Brick";
     WindowOrientation := num 90; WindowArea := num 2;
     WindowConstruction := Str "Glass";
     IsGroundFloor := num 1; FloorConstruction := Str "Concrete";
     IsRooftop := num 0; CeilingConstruction := Str "Concrete";
     InnerWallArea := num 3; InnerWallConstruction := Str "Gypsum" |}%string.

(** A row that declares a room: identifier, usage, net area and height;
    everything else missing. *)
Definition room_row (i : Z) (room usage net : cell) : row :=
  {| idx := num i;
     RoomIdentifier := room; BelongsToIdentifier := NaN;
     UsageType := usage; NetArea := net; HeatedRoomHeight := num 3;
     WallAdjacentTo := NaN;
     OuterWallOrientation := NaN; OuterWallArea := NaN;
     OuterWallConstruction := NaN;
     WindowOrientation := NaN; WindowArea := NaN; WindowConstruction := NaN;
     IsGroundFloor := NaN; FloorConstruction := NaN;
     IsRooftop := NaN; CeilingConstruction := NaN;
     InnerWallArea := NaN; InnerWallConstruction := NaN |}.


(** Two declarations of room R1 with different usages, and a room R2
    without any usage. *)
Definition ambiguous_usage_table : list row :=
  [room_row 0 (Str "R1") (Str "Office") (num 10);
   room_row 1 (Str "R1") (Str "WC") (num 5);
   room_row 2 (Str "R2") NaN (num 4)].

(** A further row of room [room]: one more outer wall. *)
Definition wall_row (i : Z) (room orientation area : cell) : row :=
  {| idx := num i;
     RoomIdentifier := NaN; BelongsToIdentifier := room;
     UsageType := NaN; NetArea := NaN; HeatedRoomHeight := NaN;
     WallAdjacentTo := NaN;
     OuterWallOrientation := orientation; OuterWallArea := area;
     OuterWallConstruction := Str "Brick";
     WindowOrientation := NaN; WindowArea := NaN; WindowConstruction := NaN;
     IsGroundFloor := NaN; FloorConstruction := NaN;
     IsRooftop := NaN; CeilingConstruction := NaN;
     InnerWallArea := NaN; InnerWallConstruction := NaN |}.

(** A room with its floor, ceiling and inner walls. *)
Definition level_row (i : Z) (room net : cell)
    (ground : cell) (floor : string) (roof : cell) (ceiling : string)
    (inner : cell) : row :=
  {| idx := num i;
     RoomIdentifier := room; BelongsToIdentifier := NaN;
     UsageType := Str "Office"; NetArea := net; HeatedRoomHeight := num 3;
     WallAdjacentTo := NaN;
     OuterWallOrientation := num 90; OuterWallArea := num 10;
     OuterWallConstruction := Str "Brick";
     WindowOrientation := num 90; WindowArea := num 2;
     WindowConstruction := Str "Glass";
     IsGroundFloor := ground; FloorConstruction := Str floor;
     IsRooftop := roof; CeilingConstruction := Str ceiling;
     InnerWallArea := inner; InnerWallConstruction := Str "Gypsum" |}.

(** Three offices: R1 on the ground with two more outer walls, one with the
    string "north" for orientation and one of area 0; R2 with the ground
    floor flag 2; R3 without net area. *)
Definition envelope_table : list row :=
  [level_row 0 (Str "R1") (num 20) (num 1) "Concrete" (num 0) "Concrete"
     (num 7);
   wall_row 1 (Str "R1") (Str "north") (num 5);
   wall_row 2 (Str "R1") (num 180) (num 0);
   level_row 3 (Str "R2") (num 12) (num 2) "Concrete" (num 1) "Tiles"
     (num 0);
   level_row 4 (Str "R3") (num 0) (num 0) "Wood" (num 0) "Wood" (num 0)].

Definition office_zone : cell := Str "Meeting, Conference, seminar".

(** A room whose outer wall of 8 m² towards room R2 has no window (the
    window cells are blank), with 3 m² of inner walls of its own. *)
Definition adjacent_wall_without_window : row :=
  {| idx := num 0;
     RoomIdentifier := Str "R1"; BelongsToIdentifier := NaN;
     UsageType := Str "Office"; NetArea := num 20; HeatedRoomHeight := num 3;
     WallAdjacentTo := Str "R2";
     OuterWallOrientation := num 90; OuterWallArea := num 8;
     OuterWallConstruction := Str "Brick";
     WindowOrientation := NaN; WindowArea := NaN;
     WindowConstruction := NaN;
     IsGroundFloor := num 1; FloorConstruction := Str "Concrete";
     IsRooftop := num 0; CeilingConstruction := Str "Concrete";
     InnerWallArea := num 3; InnerWallConstruction := Str "Gypsum" |}%string.

(** A single room without usage. *)
Definition no_usage_table : list row :=
  [room_row 2 (Str "R2") NaN (num 4)].

(** A table in which two rows carry the label 5: the declaration of room
    R9 and a further wall of room R1, which is declared in the row
    labelled 6. *)
Definition repeated_label_table : list row :=
  [room_row 5 (Str "R9") (Str "Office") (num 10);
   wall_row 5 (Str "R1") (num 90) (num 5);
   room_row 6 (Str "R1") (Str "WC") (num 5)].


(** Shapes of strings, to state what [strip] does. *)
Fixpoint all_space (s : string) : bool :=
  match s with
  | EmptyString => true
  | String c s' => is_space c && all_space s'
  end.

Definition starts_with_space (s : string) : bool :=
  match s with
  | EmptyString => false
  | String c _ => is_space c
  end.

Fixpoint ends_with_space (s : string) : bool :=
  match s with
  | EmptyString => false
  | String c EmptyString => is_space c
  | String _ s' => ends_with_space s'
  end.

(** A workbook of two sheets, with cells to strip and to replace. *)
Definition sample_workbook : workbook :=
  Sheets [ [ [Str "  R1 "; Str "n/A"; num 20];
             [Str "R2"; Str " na "; Str "N/A "] ];
           [ [Str "R3"; Str EmptyString; num 7] ] ]%string.


(** A table with one further wall of room R1 and no declaration of any
    room. *)
Definition walls_only_table : list row :=
  [wall_row 1 (Str "R1") (num 90) (num 5)].

(** A catalog that knows no window construction. *)
Definition no_windows_catalog (k : kind) (c : cell) : bool :=
  negb (bool_decide (k = Window)).

(** Use conditions that load for every label but the empty one. *)
Definition no_blank_usage (u : cell) : result unit :=
  if bool_decide (u = Str EmptyString) then Raise (KeyError u) else Ok tt.

(** ** Tactics *)

(** Closed goals about computed cells, decided by evaluation. *)
Ltac by_decide := apply (bool_decide_unpack _); vm_compute; exact I.

(** * Properties *)

(** ** The result and logging monads *)

Lemma rbind_Ok {A B} (m : result A) (f : A → result B) (b : B) :
  rbind m f = Ok b ↔ ∃ a, m = Ok a ∧ f a = Ok b.
Proof.
  destruct m as [a|e]; simpl; split.
  - eauto.
  - by intros (a' & [= <-] & ?).
  - done.
  - by intros (a' & ? & _).
Qed.

Lemma rmapM_Ok {A B} (f : A → result B) (l : list A) (l' : list B) :
  rmapM f l = Ok l' ↔ Forall2 (λ x y, f x = Ok y) l l'.
Proof.
  revert l'. induction l as [|x l IH]; intros l'; simpl.
  - split; [intros [= <-]; constructor | by inversion 1].
  - rewrite rbind_Ok. split.
    + intros (y & Hy & H). apply rbind_Ok in H as (ys & Hys & [= <-]).
      constructor; [done | by apply IH].
    + intros H. apply Forall2_cons_inv_l in H as (y & ys & Hy & Hys & ->).
      exists y. split; [done|]. apply rbind_Ok. exists ys.
      split; [by apply IH | done].
Qed.

Lemma outcome_bind {A B} (m : M A) (f : A → M B) :
  outcome (bind m f) = rbind (outcome m) (λ a, outcome (f a)).
Proof. destruct m as [ws [a|e]]; simpl; [by destruct (f a) | done]. Qed.

Lemma log_bind_Ok {A B} (m : M A) (f : A → M B) (a : A) :
  outcome m = Ok a → log (bind m f) = log m ++ log (f a).
Proof. destruct m as [ws [a'|e]]; simpl; [intros [= ->]|done]. by destruct (f a). Qed.

Lemma log_bind_prefix {A B} (m : M A) (f : A → M B) :
  log m `prefix_of` log (bind m f).
Proof.
  destruct m as [ws [a|e]]; simpl; [|done].
  destruct (f a) as [ws' r]. by exists ws'.
Qed.

(** Take the outcome of a sequence of binds apart. *)
Ltac invert_binds H :=
  repeat (rewrite outcome_bind in H;
          let x := fresh "x" in
          let Hx := fresh "Hx" in
          apply rbind_Ok in H as (x & Hx & H)).

Lemma outcome_lift {A} (r : result A) : outcome (lift r) = r.
Proof. done. Qed.

Lemma outcome_for_each {A B} (body : A → M B) (l : list A) :
  outcome (for_each body l) = rmapM (λ x, outcome (body x)) l.
Proof.
  induction l as [|x l IH]; [done|]. simpl.
  rewrite outcome_bind. destruct (outcome (body x)); simpl; [|done].
  rewrite outcome_bind, IH. by destruct (rmapM _ l).
Qed.

(** A warning written by the body at some element is in the log of the
    loop, provided the loop gets that far. *)
Lemma log_for_each {A B} (body : A → M B) (l : list A) (ys : list B)
    (x : A) (w : warning) :
  outcome (for_each body l) = Ok ys → x ∈ l → w ∈ log (body x) →
  w ∈ log (for_each body l).
Proof.
  revert ys. induction l as [|x' l IH]; intros ys Hok Hx Hw.
  - by apply elem_of_nil in Hx.
  - simpl in *. rewrite outcome_bind in Hok.
    apply rbind_Ok in Hok as (y & Hy & Hok).
    rewrite outcome_bind in Hok. apply rbind_Ok in Hok as (ys' & Hys & _).
    rewrite (log_bind_Ok _ _ y) by done. apply elem_of_app.
    apply elem_of_cons in Hx as [->|Hx]; [by left|right].
    rewrite (log_bind_Ok _ _ ys') by done. apply elem_of_app. left. eauto.
Qed.

Lemma net_area_check_outcome (r : row) : outcome (net_area_check r) = Ok tt.
Proof. unfold net_area_check. by case_match. Qed.

Lemma for_each_net_area_check_outcome (d : list row) :
  outcome (for_each net_area_check d) = Ok (replicate (length d) tt).
Proof.
  rewrite outcome_for_each. apply rmapM_Ok.
  induction d; constructor; auto using net_area_check_outcome.
Qed.

(** What a successful run of [zoning_example] went through. *)
Lemma zoning_example_Ok (d : list row) (Z : list zrow) :
  outcome (zoning_example d) = Ok Z ↔
  ∃ D col teaser,
    rmapM reclassify d = Ok D ∧
    outcome (resolve_usage D) = Ok (Some col) ∧
    rename_usages col = Ok teaser ∧
    Z = zip_with (λ r ut, ZRow r (cluster_key r) ut.1 ut.2 ut.2)
          D (zip col teaser).
Proof.
  unfold zoning_example. rewrite outcome_bind, outcome_lift, rbind_Ok.
  split.
  - intros (D & HD & H). exists D.
    rewrite outcome_bind, for_each_net_area_check_outcome in H.
    cbn [rbind] in H.
    rewrite outcome_bind in H. apply rbind_Ok in H as ([col|] & Hcol & H);
      [|done].
    rewrite outcome_bind, outcome_lift in H.
    apply rbind_Ok in H as (teaser & Ht & [= <-]). by exists col, teaser.
  - intros (D & col & teaser & HD & Hcol & Ht & ->). exists D. split; [done|].
    rewrite outcome_bind, for_each_net_area_check_outcome. cbn [rbind].
    rewrite outcome_bind, Hcol. cbn [rbind].
    by rewrite outcome_bind, outcome_lift, Ht.
Qed.

(** ** Cells *)

Lemma py_eq_true (a b : cell) : py_eq a b = true ↔ a = b ∧ isna a = false.
Proof.
  destruct a as [|x|s], b as [|y|t]; simpl; rewrite ?bool_decide_eq_true;
    intuition congruence.
Qed.

Lemma py_eq_nan_r (a : cell) : py_eq a NaN = false.
Proof. by destruct a. Qed.

Lemma py_eq_refl (a : cell) : isna a = false → py_eq a a = true.
Proof. intros. by apply py_eq_true. Qed.

Lemma present_Some (c k : cell) : present c = Some k ↔ c = k ∧ isna c = false.
Proof. unfold present. destruct (isna c); intuition congruence. Qed.

Lemma present2_Some (c1 c2 : cell) (k : cell * cell) :
  present2 c1 c2 = Some k ↔
  c1 = k.1 ∧ c2 = k.2 ∧ isna c1 = false ∧ isna c2 = false.
Proof.
  unfold present2, present. destruct k as [k1 k2].
  destruct (isna c1), (isna c2); simpl; intuition congruence.
Qed.

Lemma dict_get_Raise (d : gmap string string) (k : cell) (e : exn) :
  dict_get d k = Raise e → e = KeyError k.
Proof.
  destruct k as [|q|s]; simpl; try destruct (d !! s); congruence.
Qed.

(** ** [get_list_of_present_entries] *)

Lemma present_entries_step_elem (acc l : list cell) (x : cell) :
  x ∈ foldl (λ acc x,
               if negb (existsb (py_eq x) acc) then
                 if negb (isna x) then acc ++ [x] else acc
               else acc) acc l
  ↔ x ∈ acc ∨ (x ∈ l ∧ isna x = false).
Proof.
  revert acc. induction l as [|y l IH]; intros acc; simpl.
  - rewrite elem_of_nil. tauto.
  - rewrite IH, elem_of_cons. clear IH.
    destruct (existsb (py_eq y) acc) eqn:Hex; simpl.
    + apply existsb_exists in Hex as (z & Hz & Hyz).
      apply py_eq_true in Hyz as [-> ?]. apply list_elem_of_In in Hz.
      intuition (subst; auto).
    + destruct (isna y) eqn:Hy; simpl.
      * intuition (subst; auto; congruence).
      * rewrite elem_of_app, list_elem_of_singleton.
        intuition (subst; auto).
Qed.

Lemma elem_of_present_entries (l : list cell) (x : cell) :
  x ∈ get_list_of_present_entries l ↔ x ∈ l ∧ isna x = false.
Proof.
  unfold get_list_of_present_entries. rewrite present_entries_step_elem.
  rewrite elem_of_nil. tauto.
Qed.

(** ** Reclassification of adjacent walls *)

Lemma reclassify_ambient (line : row) :
  isna (WallAdjacentTo line) = true → reclassify line = Ok line.
Proof. unfold reclassify. by intros ->. Qed.

Lemma reclassify_adjacent (line line' : row) :
  isna (WallAdjacentTo line) = false →
  reclassify line = Ok line' →
  rbind (py_add (OuterWallArea line) (WindowArea line))
    (λ s, py_add s (InnerWallArea line)) = Ok (InnerWallArea line') ∧
  OuterWallOrientation line' = NaN ∧ OuterWallArea line' = NaN ∧
  OuterWallConstruction line' = NaN ∧ WindowOrientation line' = NaN ∧
  WindowArea line' = NaN ∧ WindowConstruction line' = NaN.
Proof.
  unfold reclassify. intros -> H. simpl in H.
  apply rbind_Ok in H as (s & Hs & H). apply rbind_Ok in H as (a & Ha & H).
  injection H as <-. simpl. rewrite Hs. simpl. by rewrite Ha.
Qed.

(** The columns that the clustering reads are not touched. *)
Lemma reclassify_keeps (line line' : row) :
  reclassify line = Ok line' →
  idx line' = idx line ∧
  RoomIdentifier line' = RoomIdentifier line ∧
  BelongsToIdentifier line' = BelongsToIdentifier line ∧
  UsageType line' = UsageType line ∧
  NetArea line' = NetArea line ∧
  HeatedRoomHeight line' = HeatedRoomHeight line.
Proof.
  unfold reclassify. destruct (negb _); [|by intros [= ->]].
  intros H. apply rbind_Ok in H as (s & Hs & H).
  apply rbind_Ok in H as (a & Ha & H). by injection H as <-.
Qed.

(** ** Grouping *)

Lemma filter_none {A} (P : A → Prop) `{!∀ x, Decision (P x)} (l : list A) :
  (∀ x, x ∈ l → ¬ P x) → filter P l = [].
Proof.
  induction l as [|x l IH]; intros HP; [done|].
  rewrite filter_cons_False by (apply HP; left).
  apply IH. intros y Hy. apply HP. by right.
Qed.

Section groupby_facts.
Context {A K : Type} `{EqDecision K} (le : relation K) `{!RelDecision le}.
Implicit Types (key : A → option K) (d : list A) (k : K).

Lemma elem_of_group_keys key d k :
  k ∈ group_keys le key d ↔ ∃ r, r ∈ d ∧ key r = Some k.
Proof.
  unfold group_keys. rewrite merge_sort_Permutation, elem_of_remove_dups.
  by rewrite list_elem_of_omap.
Qed.

Lemma NoDup_group_keys key d : NoDup (group_keys le key d).
Proof.
  unfold group_keys. rewrite merge_sort_Permutation. apply NoDup_remove_dups.
Qed.

Lemma elem_of_group_of key d k r :
  r ∈ group_of key d k ↔ r ∈ d ∧ key r = Some k.
Proof. unfold group_of. rewrite list_elem_of_filter. tauto. Qed.

Lemma group_of_nonempty key d k :
  k ∈ group_keys le key d → group_of key d k ≠ [].
Proof.
  intros (r & Hr & Hk)%elem_of_group_keys Hnil.
  assert (r ∈ group_of key d k) as Hin by by apply elem_of_group_of.
  rewrite Hnil in Hin. by apply elem_of_nil in Hin.
Qed.

Lemma elem_of_groupby key d (g : K * list A) :
  g ∈ groupby le key d ↔
  g.1 ∈ group_keys le key d ∧ g.2 = group_of key d g.1.
Proof.
  unfold groupby. rewrite list_elem_of_fmap. destruct g as [k l]. simpl.
  split; [intros (k' & [= -> ->] & ?)|intros [? ->]]; eauto.
Qed.

Lemma filter_key_concat key d k (ks : list K) :
  NoDup ks →
  filter (λ r, key r = Some k) (concat (group_of key d <$> ks)) =
  if decide (k ∈ ks) then group_of key d k else [].
Proof.
  induction 1 as [|k' ks Hk' Hnd IH]; [done|].
  rewrite fmap_cons. cbn [concat]. rewrite filter_app, IH. unfold group_of at 1. rewrite list_filter_filter.
  destruct (decide (k = k')) as [->|Hne].
  - rewrite (decide_True (P := k' ∈ k' :: ks)) by left.
    rewrite decide_False by done.
    rewrite app_nil_r. apply list_filter_iff. tauto.
  - rewrite (filter_none (λ r, _ ∧ _)) by (intros r _ [? ?]; congruence).
    simpl. apply decide_ext. rewrite elem_of_cons. tauto.
Qed.

(** The rows of key [k] among the concatenated groups are the rows of key
    [k] of the frame, in the order of the frame. *)
Lemma filter_key_concat_groups key d k :
  filter (λ r, key r = Some k) (concat ((groupby le key d).*2)) =
  group_of key d k.
Proof.
  unfold groupby. rewrite <-list_fmap_compose.
  etrans; [apply (filter_key_concat key d k), NoDup_group_keys|].
  case_decide as Hk; [done|]. symmetry. apply filter_none.
  intros r Hr Hkr. apply Hk, elem_of_group_keys. eauto.
Qed.
End groupby_facts.

(** ** Usage resolution *)

Lemma outcome_for_fold_pure {A S} (body : S → A → M S) (g : S → A → S)
    (s : S) (l : list A) :
  (∀ s x, outcome (body s x) = Ok (g s x)) →
  outcome (for_fold body s l) = Ok (foldl g s l).
Proof.
  intros Hbody. revert s. induction l as [|x l IH]; intros s; [done|].
  simpl. rewrite outcome_bind, Hbody. apply IH.
Qed.

Lemma log_for_fold_pure {A S} (body : S → A → M S) (g : S → A → S)
    (w : A → list warning) (s : S) (l : list A) :
  (∀ s x, outcome (body s x) = Ok (g s x)) →
  (∀ s x, log (body s x) = w x) →
  log (for_fold body s l) = concat (w <$> l).
Proof.
  intros Hout Hlog. revert s. induction l as [|x l IH]; intros s; [done|].
  simpl. rewrite (log_bind_Ok _ _ (g s x)) by done. by rewrite Hlog, IH.
Qed.

Section usage.
Variable D : list row.

Local Abbreviation assign := (assign_line D).

Lemma scan_cluster_foldl (cluster : list row) col (n : nat) :
  foldl (λ st line,
           if is_main line then
             (assign_usage D (cluster_key line) (UsageType line) st.1,
              S st.2)
           else st) (col, n) cluster =
  (foldl assign col (filter (λ l, is_main l) cluster),
   (n + length (filter (λ l, is_main l) cluster))%nat).
Proof.
  revert col n. induction cluster as [|line cl IH]; intros col n; simpl.
  - by rewrite Nat.add_0_r.
  - rewrite filter_cons. destruct (is_main line) eqn:Hm.
    + simpl. rewrite IH. simpl. by rewrite Nat.add_succ_r.
    + simpl. apply IH.
Qed.

Lemma scan_cluster_spec (cluster : list row) col :
  scan_cluster D cluster col =
  (foldl assign col (filter (λ l, is_main l) cluster),
   length (filter (λ l, is_main l) cluster)).
Proof. unfold scan_cluster. by rewrite scan_cluster_foldl. Qed.

Lemma foldl_scan_groups (gs : list (cell * list row)) col :
  foldl (λ col g, (scan_cluster D g.2 col).1) col gs =
  foldl assign col (filter (λ l, is_main l) (concat gs.*2)).
Proof.
  revert col. induction gs as [|g gs IH]; intros col; [done|].
  simpl. rewrite filter_app, foldl_app, <-IH. by rewrite scan_cluster_spec.
Qed.

Lemma zip_with_zip_with_r {A B} (f g : A → B → B) (l : list A) (k : list B) :
  zip_with f l (zip_with g l k) = zip_with (λ x y, f x (g x y)) l k.
Proof.
  revert k. induction l as [|x l IH]; intros [|y k]; simpl; [done..|].
  by rewrite IH.
Qed.

Lemma zip_with_replicate_r {A B C} (f : A → B → C) (l : list A) (y : B) :
  zip_with f l (replicate (length l) y) = (λ x, f x y) <$> l.
Proof. induction l as [|x l IH]; simpl; [done|]. by rewrite IH. Qed.

Lemma foldl_assign (S : list row) col :
  S ≠ [] →
  (∀ line, line ∈ S →
     existsb (λ r, py_eq (cluster_key r) (cluster_key line)) D = true) →
  foldl assign col S =
  Some (zip_with (usage_after S) D
          (default (replicate (length D) NaN) col)).
Proof.
  revert col. induction S as [|line S IH]; intros col Hne Hex; [done|].
  simpl. unfold assign_line at 2, assign_usage.
  rewrite Hex by left.
  destruct (decide (S = [])) as [->|HS]; [done|].
  rewrite IH; [|done|by intros; apply Hex; right]. simpl.
  by rewrite zip_with_zip_with_r.
Qed.

Lemma usage_after_last (S : list row) (r : row) :
  usage_after S r NaN =
  from_option UsageType NaN
    (last (filter (λ line, py_eq (cluster_key r) (cluster_key line)) S)).
Proof.
  unfold usage_after. induction S as [|line S IH] using rev_ind; [done|].
  rewrite foldl_app, filter_app. simpl. rewrite filter_cons, filter_nil.
  destruct (py_eq _ _) eqn:Heq; simpl.
  - by rewrite last_snoc.
  - by rewrite app_nil_r.
Qed.

Lemma main_lines_of_groups (r : row) :
  filter (λ line, py_eq (cluster_key r) (cluster_key line))
    (filter (λ l, is_main l) (concat (clusters D).*2)) =
  if isna (cluster_key r) then [] else main_lines D (cluster_key r).
Proof.
  destruct (isna (cluster_key r)) eqn:Hr.
  - apply filter_none. intros line _ Heq.
    apply Is_true_eq_true, py_eq_true in Heq as [_ ?]. congruence.
  - rewrite list_filter_filter.
    rewrite (list_filter_iff _
      (λ line, is_main line ∧ present (cluster_key line) = Some (cluster_key r))).
    2:{ intros line. rewrite present_Some, Is_true_true, py_eq_true.
        split; [intros [[-> ?] ?]|intros [? [<- ?]]]; auto. }
    rewrite <-list_filter_filter. unfold clusters.
    rewrite (filter_key_concat_groups cell_le (λ r, present (cluster_key r))).
    unfold group_of, main_lines. rewrite list_filter_filter.
    apply list_filter_iff. intros line. rewrite present_Some.
    split; [intros [? [? ?]]; auto|intros [? Hk]; rewrite Hk; auto].
Qed.
End usage.

Lemma elem_of_concat {A} (ls : list (list A)) (x : A) :
  x ∈ concat ls ↔ ∃ l, l ∈ ls ∧ x ∈ l.
Proof.
  rewrite list_elem_of_In, in_concat.
  by setoid_rewrite list_elem_of_In.
Qed.

Lemma elem_of_concat_groups {A K : Type} `{EqDecision K} (le : relation K)
    `{!RelDecision le} (key : A → option K) (d : list A) (r : A) :
  r ∈ concat (groupby le key d).*2 ↔ r ∈ d ∧ is_Some (key r).
Proof.
  rewrite elem_of_concat. split.
  - intros (l & (g & -> & Hg)%list_elem_of_fmap & Hr).
    apply elem_of_groupby in Hg as [_ Hg]. rewrite Hg in Hr.
    apply elem_of_group_of in Hr as [? ?]. eauto.
  - intros [Hr [k Hk]]. exists (group_of key d k). split.
    + apply list_elem_of_fmap. exists (k, group_of key d k). split; [done|].
      apply elem_of_groupby. split; [|done]. apply elem_of_group_keys. eauto.
    + by apply elem_of_group_of.
Qed.

Lemma elem_of_main_of_clusters (D : list row) (line : row) :
  line ∈ filter (λ l, is_main l) (concat (clusters D).*2) ↔
  line ∈ D ∧ is_main line ∧ isna (cluster_key line) = false.
Proof.
  rewrite list_elem_of_filter. unfold clusters. rewrite elem_of_concat_groups.
  unfold is_Some. setoid_rewrite present_Some.
  split; [intros (? & ? & k & ? & ?)|intros (? & ? & ?)]; eauto 10.
Qed.

Lemma resolve_usage_outcome (D : list row) :
  outcome (resolve_usage D) =
  Ok (if decide (has_main D) then Some (cluster_usage D <$> D) else None).
Proof.
  unfold resolve_usage.
  rewrite (outcome_for_fold_pure _ (λ col g, (scan_cluster D g.2 col).1)).
  2:{ intros col g. rewrite outcome_bind. by case_bool_decide. }
  f_equal. fold (clusters D). rewrite foldl_scan_groups.
  pose proof (elem_of_main_of_clusters D) as HS.
  destruct (filter (λ l, is_main l) (concat (clusters D).*2))
    as [|l0 S0] eqn:ES.
  - rewrite decide_False; [done|]. unfold has_main. rewrite Exists_exists.
    intros (line & Hline & Hm & Hk). eapply elem_of_nil, HS.
    split_and!; eauto. by destruct (isna (cluster_key line)).
  - rewrite decide_True.
    2:{ apply Exists_exists. exists l0.
        destruct (HS l0) as [(? & ? & Hk) _]; [left|].
        split_and!; auto. rewrite Hk. simpl. auto. }
    rewrite <-ES. rewrite foldl_assign.
    + simpl. rewrite zip_with_replicate_r. f_equal. apply list_fmap_ext.
      intros _ r _. rewrite usage_after_last, main_lines_of_groups.
      unfold cluster_usage. by destruct (isna (cluster_key r)).
    + by rewrite ES.
    + intros line Hl. rewrite ES in Hl. apply HS in Hl as (Hline & _ & Hk).
      apply existsb_exists. exists line.
      split; [by apply list_elem_of_In|by apply py_eq_refl].
Qed.

Lemma resolve_usage_log (D : list row) :
  log (resolve_usage D) = concat (main_usage_warning <$> clusters D).
Proof.
  unfold resolve_usage.
  apply (log_for_fold_pure _ (λ col g, (scan_cluster D g.2 col).1)).
  - intros col g. rewrite outcome_bind. by case_bool_decide.
  - intros col g. unfold main_usage_warning. rewrite scan_cluster_spec. simpl.
    by case_bool_decide.
Qed.

(** ** Renaming to the usages of the catalog *)

Lemma zip_with_ext_elem {A B C} (f g : A → B → C) (l : list A) (k : list B) :
  (∀ x y, x ∈ l → f x y = g x y) → zip_with f l k = zip_with g l k.
Proof.
  revert k. induction l as [|x l IH]; intros [|y k] Hfg; simpl; [done..|].
  rewrite Hfg by left. f_equal. apply IH. intros ???. apply Hfg. by right.
Qed.

Lemma zip_with_snd_id {A B} (l : list A) (k : list B) :
  length k = length l → zip_with (λ _ y, y) l k = k.
Proof.
  revert k. induction l as [|x l IH]; intros [|y k] ?; simplify_eq/=; [done|].
  by rewrite IH.
Qed.

Lemma rename_loop_Ok (col usages teaser teaser' : list cell) :
  length teaser = length col →
  rename_loop col usages teaser = Ok teaser' →
  (∀ u, u ∈ usages → ∃ v, dict_get usage_to_json_usage u = Ok v) ∧
  teaser' =
    zip_with (λ c old, if decide (c ∈ usages) then teaser_of c else old)
      col teaser.
Proof.
  revert teaser. induction usages as [|u us IH]; intros teaser Hlen; simpl.
  - intros [= <-]. split; [by intros ? ?%elem_of_nil|].
    rewrite <-(zip_with_snd_id col teaser) at 1 by done.
    by apply zip_with_ext_elem.
  - intros (v & Hv & H)%rbind_Ok.
    apply IH in H as [Hus ->]; [|by rewrite length_zip_with_l_eq]. split.
    + intros u' [->|?]%elem_of_cons; eauto.
    + rewrite zip_with_zip_with_r. apply zip_with_ext_elem. intros c old _.
      cbv beta. destruct (decide (c ∈ us)) as [Hc|Hc].
      * rewrite decide_True; [done|by right].
      * destruct (py_eq c u) eqn:Hcu.
        -- apply py_eq_true in Hcu as [-> _].
           rewrite decide_True by left. unfold teaser_of. by rewrite Hv.
        -- rewrite decide_False; [done|]. intros [->|?]%elem_of_cons; [|done].
           destruct u; simpl in *; try done;
             by rewrite bool_decide_true in Hcu.
Qed.

Lemma rename_loop_Raise (col usages teaser : list cell) (e : exn) :
  rename_loop col usages teaser = Raise e →
  ∃ u, u ∈ usages ∧ e = KeyError u ∧
       dict_get usage_to_json_usage u = Raise (KeyError u).
Proof.
  revert teaser. induction usages as [|u us IH]; intros teaser; simpl;
    [done|].
  destruct (dict_get usage_to_json_usage u) as [v|e'] eqn:Hu; simpl.
  - intros (u' & ? & ?)%IH. exists u'. split; [by right|done].
  - intros [= <-]. exists u. pose proof (dict_get_Raise _ _ _ Hu) as ->.
    split; [by left|done].
Qed.

Lemma rename_loop_total (col usages teaser : list cell) :
  (∀ u, u ∈ usages → ∃ v, dict_get usage_to_json_usage u = Ok v) →
  ∃ teaser', rename_loop col usages teaser = Ok teaser'.
Proof.
  intros Hus. destruct (rename_loop col usages teaser) as [t|e] eqn:H; [eauto|].
  apply rename_loop_Raise in H as (u & Hu & _ & Hr).
  destruct (Hus u Hu) as [v Hv]. congruence.
Qed.

Lemma teaser_of_nan (c : cell) : isna c = true → teaser_of c = Str EmptyString.
Proof. by destruct c. Qed.

Lemma rename_usages_Ok (col teaser : list cell) :
  rename_usages col = Ok teaser ↔
  (∀ c, c ∈ col → isna c = false →
     ∃ v, dict_get usage_to_json_usage c = Ok v) ∧
  teaser = teaser_of <$> col.
Proof.
  unfold rename_usages.
  assert (zip_with
            (λ c old, if decide (c ∈ get_list_of_present_entries col)
                      then teaser_of c else old)
            col (replicate (length col) (Str EmptyString)) =
          teaser_of <$> col) as Hzip.
  { rewrite zip_with_replicate_r. apply list_fmap_ext. intros i c Hc.
    apply list_elem_of_lookup_2 in Hc.
    case_decide as Hin; [done|]. symmetry. apply teaser_of_nan.
    destruct (isna c) eqn:Hna; [done|]. destruct Hin.
    by apply elem_of_present_entries. }
  split.
  - intros [Hus ->]%rename_loop_Ok; [|by rewrite length_replicate].
    split; [|done].
    intros c Hc Hna. apply Hus. by apply elem_of_present_entries.
  - intros [Hcol ->].
    destruct (rename_loop_total col (get_list_of_present_entries col)
                (replicate (length col) (Str EmptyString))) as [t Ht].
    { intros u [? ?]%elem_of_present_entries. eauto. }
    rewrite Ht. apply rename_loop_Ok in Ht as [_ ->];
      [by rewrite Hzip|by rewrite length_replicate].
Qed.


(** ** [zoning_example] as a whole *)

Lemma zip_columns (f : row → cell) (g : cell → cell) (D : list row) :
  zip_with (λ r ut, ZRow r (cluster_key r) ut.1 ut.2 ut.2)
    D (zip (f <$> D) (g <$> (f <$> D))) =
  (λ r, ZRow r (cluster_key r) (f r) (g (f r)) (g (f r))) <$> D.
Proof. induction D as [|r D IH]; [done|]. cbn. by f_equal. Qed.

Lemma zoning_example_spec (d : list row) (Z : list zrow) :
  outcome (zoning_example d) = Ok Z ↔
  ∃ D, rmapM reclassify d = Ok D ∧ has_main D ∧ usages_known D ∧
       Z = annotate D <$> D.
Proof.
  rewrite zoning_example_Ok. split.
  - intros (D & col & teaser & HD & Hcol & Ht & ->). exists D.
    rewrite resolve_usage_outcome in Hcol. case_decide; [|done].
    injection Hcol as <-. apply rename_usages_Ok in Ht as [Hk ->].
    split_and!; [done..| |].
    + intros r Hr. apply Hk. by apply list_elem_of_fmap_2.
    + apply zip_columns.
  - intros (D & HD & Hm & Hk & ->).
    exists D, (cluster_usage D <$> D), (teaser_of <$> (cluster_usage D <$> D)).
    split_and!; [done| | |].
    + rewrite resolve_usage_outcome. by rewrite decide_True.
    + apply rename_usages_Ok. split; [|done].
      intros c (r & -> & Hr)%list_elem_of_fmap. by apply Hk.
    + symmetry. apply zip_columns.
Qed.

(** Reclassification in general.  In the table that [zoning_example]
    returns, which is the one every later grouping works on, each row comes
    from the input row at the same place, and if [WallAdjacentTo] of that input row is not missing,
    then the inner-wall area of the row is the sum, by Python's [+], of the
    outer-wall area, the window area and the inner-wall area of the input
    row (for three numbers [a], [b] and [c]: [a + b + c]), and its
    outer-wall and window orientation, area and construction are missing. *)
Theorem reclassification_of_adjacent_walls (d : list row) (Z : list zrow) :
  outcome (zoning_example d) = Ok Z →
  Forall2 (λ line z,
      isna (WallAdjacentTo line) = false →
      rbind (py_add (OuterWallArea line) (WindowArea line))
        (λ s, py_add s (InnerWallArea line))
        = Ok (InnerWallArea (base z)) ∧
      (∀ a b c, OuterWallArea line = Num a → WindowArea line = Num b →
                InnerWallArea line = Num c →
                InnerWallArea (base z) = Num (a + b + c)) ∧
      OuterWallOrientation (base z) = NaN ∧
      OuterWallArea (base z) = NaN ∧
      OuterWallConstruction (base z) = NaN ∧
      WindowOrientation (base z) = NaN ∧
      WindowArea (base z) = NaN ∧
      WindowConstruction (base z) = NaN)
    d Z.
Proof.
  intros (D & HD & _ & _ & ->)%zoning_example_spec.
  apply rmapM_Ok in HD. apply Forall2_fmap_r.
  eapply Forall2_impl; [exact HD|]. intros line line' Hl Hadj. simpl.
  destruct (reclassify_adjacent line line' Hadj Hl) as (Hsum & Hblank).
  split_and!; try apply Hblank; [done|].
  intros a b c Ha Hb Hc. rewrite Ha, Hb, Hc in Hsum. simpl in Hsum.
  by injection Hsum as <-.
Qed.

Lemma reclassification_of_adjacent_walls_witness :
  ∃ z, outcome (zoning_example [adjacent_wall_row]) = Ok [z] ∧
       InnerWallArea (base z) = num 13 ∧
       OuterWallOrientation (base z) = NaN ∧
       OuterWallArea (base z) = NaN ∧
       OuterWallConstruction (base z) = NaN ∧
       WindowOrientation (base z) = NaN ∧
       WindowArea (base z) = NaN ∧
       WindowConstruction (base z) = NaN.
Proof.
  eexists. split; [vm_compute; reflexivity|].
  match goal with |- context [base ?z] =>
    assert (outcome (zoning_example [adjacent_wall_row]) = Ok [z]) as H
      by (vm_compute; reflexivity);
    apply reclassification_of_adjacent_walls in H;
    apply Forall2_cons_1 in H as [H _];
    destruct (H eq_refl) as (_ & Hsum & Hblank)
  end.
  split; [|exact Hblank].
  rewrite (Hsum (Qc_of_Z 8) (Qc_of_Z 2) (Qc_of_Z 3)) by reflexivity.
  by_decide.
Defined.

(** Claim C3, at an input where the code misses it.  The room has an outer
    wall of 8 m² towards room R2, without window, and 3 m² of inner walls.
    Python's [+] with the blank window area gives a missing inner-wall
    area: after zoning the row has neither outer-wall nor inner-wall area,
    and the import creates no outer wall and no inner wall for the room
    and logs that the zone has no inner walls.  The 11 m² that were to be
    accounted as inner wall are lost. *)
Theorem blank_area_loses_the_adjacent_wall :
  let r := adjacent_wall_without_window in
  isna (WallAdjacentTo r) = false ∧
  OuterWallArea r = num 8 ∧ WindowArea r = NaN ∧ InnerWallArea r = num 3 ∧
  ∃ z tz ws,
    outcome (zoning_example [r]) = Ok [z] ∧
    InnerWallArea (base z) = NaN ∧
    OuterWallOrientation (base z) = NaN ∧
    OuterWallArea (base z) = NaN ∧
    OuterWallConstruction (base z) = NaN ∧
    import_building_from_excel (λ _ _, true) (λ _, Ok tt) [r]
      = (ws, Ok [tz]) ∧
    tz_outer_walls tz = [] ∧ tz_windows tz = [] ∧ tz_inner_walls tz = [] ∧
    WNoInnerWall office_zone (Str "Gypsum") ∈ ws.
Proof.
  cbv zeta. split_and!; [reflexivity..|].
  eexists _, _, _.
  split; [vm_compute; reflexivity|]. split_and!; [reflexivity..| | | | |].
  - vm_compute; reflexivity.
  - reflexivity.
  - reflexivity.
  - reflexivity.
  - by_decide.
Qed.

(** ** The log of [zoning_example] *)

Lemma log_for_each_Ok {A B} (body : A → M B) (l : list A) (ys : list B) :
  outcome (for_each body l) = Ok ys →
  log (for_each body l) = concat ((λ x, log (body x)) <$> l).
Proof.
  revert ys. induction l as [|x l IH]; intros ys Hok; [done|].
  simpl in *. rewrite outcome_bind in Hok.
  apply rbind_Ok in Hok as (y & Hy & Hok).
  rewrite outcome_bind in Hok. apply rbind_Ok in Hok as (ys' & Hys & _).
  rewrite (log_bind_Ok _ _ y) by done. f_equal.
  rewrite (log_bind_Ok _ _ ys') by done. simpl. rewrite app_nil_r. eauto.
Qed.

Lemma zoning_example_log (d D : list row) :
  rmapM reclassify d = Ok D →
  log (zoning_example d) =
  concat (net_area_warning <$> D) ++ concat (main_usage_warning <$> clusters D).
Proof.
  intros HD. unfold zoning_example. rewrite HD.
  rewrite (log_bind_Ok _ _ D) by done. cbn [lift log fst app].
  rewrite (log_bind_Ok _ _ _ (for_each_net_area_check_outcome D)).
  rewrite (log_for_each_Ok _ _ _ (for_each_net_area_check_outcome D)).
  f_equal.
  pose proof (resolve_usage_outcome D) as Hres.
  rewrite (log_bind_Ok _ _ _ Hres), resolve_usage_log.
  rewrite <-(app_nil_r (concat (main_usage_warning <$> clusters D))) at 2.
  f_equal. case_decide; [|done].
  destruct (rename_usages (cluster_usage D <$> D)) as [t|e] eqn:Ht.
  - by rewrite (log_bind_Ok _ _ t).
  - unfold lift, bind. done.
Qed.

Lemma net_area_check_zero (r : row) :
  NetArea r = num 0 → isna (UsageType r) = false →
  log (net_area_check r) = [WNetAreaZero (idx r)].
Proof. unfold net_area_check. by intros -> ->. Qed.

Lemma net_area_check_missing (r : row) :
  NetArea r = NaN → log (net_area_check r) = [].
Proof. unfold net_area_check. by intros ->. Qed.

(** Claim C8, at the input where the code misses it.  A row with the usage
    Office and a missing net area gets no diagnostic, neither from the check
    of lines 194-203 alone nor in the log of [zoning_example], which
    succeeds: [x == np.nan] is false for every [x]. *)
Theorem missing_net_area_is_not_flagged :
  let r := room_row 7 (Str "R1") (Str "Office") NaN in
  isna (NetArea r) = true ∧ isna (UsageType r) = false ∧
  log (net_area_check r) = [] ∧
  log (zoning_example [r]) = [] ∧
  ∃ Z, outcome (zoning_example [r]) = Ok Z.
Proof.
  split_and!; [done..|]. eexists. vm_compute. reflexivity.
Qed.

Lemma zoning_example_outcome (d D : list row) :
  rmapM reclassify d = Ok D →
  outcome (zoning_example d) =
  if decide (has_main D) then
    rbind (rename_usages (cluster_usage D <$> D))
      (λ _, Ok (annotate D <$> D))
  else Raise (KeyError (Str "RoomClusterUsage")).
Proof.
  intros HD. unfold zoning_example.
  rewrite outcome_bind, outcome_lift, HD. cbn [rbind].
  rewrite outcome_bind, for_each_net_area_check_outcome. cbn [rbind].
  rewrite outcome_bind, resolve_usage_outcome. cbn [rbind].
  case_decide; [|done]. rewrite outcome_bind, outcome_lift.
  destruct (rename_usages _) as [t|e] eqn:Ht; [|done]. simpl.
  apply rename_usages_Ok in Ht as [_ ->]. f_equal. apply zip_columns.
Qed.


Section unknown_usage.
Variable catalog : kind → cell → bool.
Variable load_use_conditions : cell → result unit.

End unknown_usage.



(** ** Clusters and their usage *)

Lemma main_lines_group (D : list row) (k : cell) :
  filter (λ l, is_main l)
    (group_of (λ r, present (cluster_key r)) D k) =
  if isna k then [] else main_lines D k.
Proof.
  unfold group_of, main_lines. rewrite list_filter_filter.
  destruct (isna k) eqn:Hk.
  - apply filter_none. intros r _ [_ [<- ?]%present_Some]. congruence.
  - apply list_filter_iff. intros r. rewrite present_Some.
    split; [intros [? [? ?]]; auto|intros [? Hr]; rewrite Hr; auto].
Qed.

Lemma cluster_key_present (D : list row) (k : cell) :
  k ∈ (clusters D).*1 → isna k = false.
Proof.
  intros (g & -> & Hg)%list_elem_of_fmap.
  apply elem_of_groupby in Hg as [Hk _].
  apply elem_of_group_keys in Hk as (r & _ & Hr).
  apply present_Some in Hr as [<- ?]. done.
Qed.

Lemma elem_of_clusters_fst (D : list row) (k : cell) :
  k ∈ (clusters D).*1 ↔
  (k, group_of (λ r, present (cluster_key r)) D k) ∈ clusters D.
Proof.
  unfold clusters. rewrite elem_of_groupby, list_elem_of_fmap. simpl. split.
  - intros (g & -> & [? ?]%elem_of_groupby). done.
  - intros [Hk _].
    exists (k, group_of (λ r, present (cluster_key r)) D k).
    split; [done|]. by apply elem_of_groupby.
Qed.

(** *** The assignment by label *)

Lemma NoDup_fmap_elem {A B : Type} (f : A → B) (l : list A) (x y : A) :
  NoDup (f <$> l) → x ∈ l → y ∈ l → f x = f y → x = y.
Proof.
  intros Hnd [i Hi]%list_elem_of_lookup [j Hj]%list_elem_of_lookup Hxy.
  assert (i = j) as ->.
  { apply (NoDup_lookup (f <$> l) i j (f x)); [done| |].
    - by rewrite list_lookup_fmap, Hi.
    - by rewrite list_lookup_fmap, Hj, Hxy. }
  congruence.
Qed.

Lemma assign_usage_loc_distinct (data : list row) (key usage : cell)
    (col : option (list cell)) :
  NoDup (idx <$> data) →
  assign_usage_loc data key usage col = assign_usage data key usage col.
Proof.
  intros Hnd. unfold assign_usage_loc, assign_usage.
  destruct (existsb _ data); [|done]. f_equal.
  apply zip_with_ext_elem. intros r old Hr.
  destruct (py_eq (cluster_key r) key) eqn:Hk.
  - assert (existsb (λ r', py_eq (cluster_key r') key
                           && bool_decide (idx r' = idx r)) data = true)
      as ->; [|done].
    apply existsb_exists. exists r. split; [by apply list_elem_of_In|].
    by rewrite Hk, bool_decide_true.
  - assert (existsb (λ r', py_eq (cluster_key r') key
                           && bool_decide (idx r' = idx r)) data = false)
      as ->; [|done].
    destruct (existsb _ data) eqn:Hex; [|done].
    apply existsb_exists in Hex as (r' & Hr'%list_elem_of_In & Hand).
    apply andb_true_iff in Hand as [Hk' Hi%bool_decide_eq_true].
    assert (r' = r) as -> by by eapply NoDup_fmap_elem.
    congruence.
Qed.

Lemma scan_cluster_loc_distinct (data cluster : list row)
    (col : option (list cell)) :
  NoDup (idx <$> data) →
  scan_cluster_loc data cluster col = scan_cluster data cluster col.
Proof.
  intros Hnd. unfold scan_cluster_loc, scan_cluster.
  generalize (col, 0%nat). induction cluster as [|line cluster IH];
    intros st; [done|].
  simpl. rewrite assign_usage_loc_distinct by done. apply IH.
Qed.

Lemma bind_ext {A B} (m : M A) (f g : A → M B) :
  (∀ a, f a = g a) → bind m f = bind m g.
Proof. intros Hfg. destruct m as [ws [a|e]]; simpl; by rewrite ?Hfg. Qed.

Lemma resolve_usage_loc_distinct (data : list row) :
  NoDup (idx <$> data) → resolve_usage_loc data = resolve_usage data.
Proof.
  intros Hnd. unfold resolve_usage_loc, resolve_usage.
  generalize (groupby cell_le (λ r, present (cluster_key r)) data).
  generalize (@None (list cell)).
  intros col gs. revert col. induction gs as [|g gs IH]; intros col; [done|].
  simpl. rewrite scan_cluster_loc_distinct by done. by apply bind_ext.
Qed.

Lemma reclassified_labels (d D : list row) :
  rmapM reclassify d = Ok D → idx <$> D = idx <$> d.
Proof.
  intros HD%rmapM_Ok. induction HD as [|r r' d D Hr _ IH]; [done|].
  rewrite !fmap_cons, IH. by apply reclassify_keeps in Hr as [-> _].
Qed.

Lemma no_main_lines (D : list row) :
  (∀ k, k ∈ (clusters D).*1 → main_lines D k = []) → ¬ has_main D.
Proof.
  intros Hno (line & Hline & Hm & Hk)%Exists_exists.
  assert (line ∈ main_lines D (cluster_key line)) as Hin
    by by apply list_elem_of_filter.
  rewrite Hno in Hin; [by apply elem_of_nil in Hin|].
  unfold clusters, groupby. rewrite <-list_fmap_compose.
  apply list_elem_of_fmap. exists (cluster_key line). split; [done|].
  apply elem_of_group_keys. exists line. split; [done|].
  apply present_Some. split; [done|]. by destruct (isna (cluster_key line)).
Qed.

(** Claim C1, as the code has it.  On a table with pairwise distinct row
    labels, for every cluster [k]: the assignment by label of lines 214-216
    is the one by row; the diagnostic that names the cluster and lists its
    rows is in the log exactly when the number of its lines without
    back-reference and with a usage is not 1; if no cluster at all has such
    a line, [zoning_example] raises [KeyError] for the column
    [RoomClusterUsage], which was never created; and in a table that
    [zoning_example] returns, every row of the cluster has the usage of the
    last such line for [RoomClusterUsage], or missing if the cluster has
    none, in which case its zone label is the empty string. *)
Theorem cluster_main_usage (d D : list row) (k : cell) :
  NoDup (idx <$> d) →
  rmapM reclassify d = Ok D →
  k ∈ (clusters D).*1 →
  resolve_usage_loc D = resolve_usage D ∧
  (length (main_lines D k) ≠ 1%nat ↔
     WMainUsage k (idx <$> group_of (λ r, present (cluster_key r)) D k)
       ∈ log (zoning_example d)) ∧
  ((∀ k', k' ∈ (clusters D).*1 → main_lines D k' = []) →
     outcome (zoning_example d) = Raise (KeyError (Str "RoomClusterUsage"))) ∧
  (∀ Z z, outcome (zoning_example d) = Ok Z → z ∈ Z → RoomCluster z = k →
     RoomClusterUsage z
       = from_option UsageType NaN (last (main_lines D k)) ∧
     (main_lines D k = [] →
        RoomClusterUsage z = NaN ∧ Zone z = Str EmptyString)).
Proof.
  intros Hnd HD Hk. pose proof (cluster_key_present D k Hk) as Hna.
  split_and!.
  - apply resolve_usage_loc_distinct. by rewrite (reclassified_labels d D).
  - rewrite (zoning_example_log d D HD), elem_of_app, !elem_of_concat.
    split.
    + intros Hlen. right.
      exists (main_usage_warning
                (k, group_of (λ r, present (cluster_key r)) D k)).
      split.
      * apply list_elem_of_fmap_2. by apply elem_of_clusters_fst.
      * unfold main_usage_warning. simpl. rewrite main_lines_group, Hna.
        rewrite bool_decide_true by done. left.
    + intros [(ws & (r & -> & _)%list_elem_of_fmap & Hw)
             |(ws & (g & -> & Hg)%list_elem_of_fmap & Hw)].
      * unfold net_area_warning, net_area_check in Hw.
        case_match; simpl in Hw;
          [apply list_elem_of_singleton in Hw|apply elem_of_nil in Hw]; done.
      * unfold main_usage_warning in Hw. case_bool_decide as Hlen;
          [|by apply elem_of_nil in Hw].
        apply list_elem_of_singleton in Hw. injection Hw as Hg1 _.
        apply elem_of_groupby in Hg as [_ Hg2]. rewrite Hg2, <-Hg1 in Hlen.
        by rewrite main_lines_group, Hna in Hlen.
  - intros Hno. rewrite (zoning_example_outcome d D HD).
    rewrite decide_False; [done|]. by apply no_main_lines.
  - intros Z z (D' & HD' & _ & _ & ->)%zoning_example_spec
      (r & -> & Hr)%list_elem_of_fmap Hz.
    assert (D' = D) as -> by congruence. simpl in *.
    unfold cluster_usage. rewrite Hz, Hna. split; [done|].
    intros ->. done.
Qed.

Lemma cluster_main_usage_witness :
  NoDup (idx <$> ambiguous_usage_table) ∧
  rmapM reclassify ambiguous_usage_table = Ok ambiguous_usage_table ∧
  Str "R2" ∈ (clusters ambiguous_usage_table).*1 ∧
  main_lines ambiguous_usage_table (Str "R2") = [] ∧
  WMainUsage (Str "R2") [num 2] ∈ log (zoning_example ambiguous_usage_table) ∧
  ∃ Z z,
    outcome (zoning_example ambiguous_usage_table) = Ok Z ∧ z ∈ Z ∧
    RoomCluster z = Str "R2" ∧
    RoomClusterUsage z = NaN ∧ Zone z = Str EmptyString.
Proof.
  assert (NoDup (idx <$> ambiguous_usage_table)) as Hnd by by_decide.
  assert (Str "R2" ∈ (clusters ambiguous_usage_table).*1) as Hk by by_decide.
  destruct (cluster_main_usage ambiguous_usage_table ambiguous_usage_table
              (Str "R2") Hnd eq_refl Hk) as (_ & Hlog & _ & Hrows).
  split; [exact Hnd|]. split; [reflexivity|]. split; [exact Hk|].
  split; [reflexivity|].
  split; [apply Hlog; discriminate|].
  eexists _, _. split; [vm_compute; reflexivity|].
  split; [right; right; left|]. split; [reflexivity|].
  eapply Hrows; [vm_compute; reflexivity|right; right; left|reflexivity
                |reflexivity].
Defined.

(** With a repeated label the assignment by label differs from the one by
    row: the row labelled 5 that belongs to room R1 gets the usage of room
    R9, which is declared in the other row labelled 5. *)
Lemma repeated_labels_split_a_cluster :
  idx <$> repeated_label_table = [num 5; num 5; num 6] ∧
  cluster_key <$> repeated_label_table = [Str "R9"; Str "R1"; Str "R1"] ∧
  outcome (resolve_usage_loc repeated_label_table)
    = Ok (Some [Str "Office"; Str "Office"; Str "WC"]) ∧
  outcome (resolve_usage repeated_label_table)
    = Ok (Some [Str "Office"; Str "WC"; Str "WC"]).
Proof. split_and!; vm_compute; reflexivity. Qed.

(** C1, as stated, fails on these tables.  In the first, room R1 has the
    two main usages Office and WC (in this order) and all its rows get WC,
    the last one; room R2 has no usage, and its row is put under the zone
    label of the empty string, for which the import creates a zone.  In
    the second, a single room without usage, no cluster has a main usage
    and zoning raises instead of leaving the usage undefined.  In the
    third, two rows carry the same label and the rows of room R1 get
    different usages. *)
Lemma last_main_usage_wins :
  (UsageType <$> head (main_lines ambiguous_usage_table (Str "R1"))
     = Some (Str "Office") ∧
   ∃ Z zones,
     outcome (zoning_example ambiguous_usage_table) = Ok Z ∧
     RoomClusterUsage <$> Z = [Str "WC"; Str "WC"; NaN] ∧
     Zone <$> Z =
       [Str "WC and sanitary rooms in non-residential buildings";
        Str "WC and sanitary rooms in non-residential buildings";
        Str EmptyString] ∧
     outcome (import_building_from_excel (λ _ _, true) (λ _, Ok tt)
                ambiguous_usage_table) = Ok zones ∧
     tz_name <$> zones =
       [Str EmptyString;
        Str "WC and sanitary rooms in non-residential buildings"] ∧
     tz_area <$> zones = [Qc_of_Z 4; Qc_of_Z 15]) ∧
  outcome (zoning_example no_usage_table)
    = Raise (KeyError (Str "RoomClusterUsage")) ∧
  (cluster_key <$> repeated_label_table = [Str "R9"; Str "R1"; Str "R1"] ∧
   outcome (resolve_usage_loc repeated_label_table)
     = Ok (Some [Str "Office"; Str "Office"; Str "WC"])).
Proof.
  split_and!.
  - reflexivity.
  - eexists _, _.
    split; [vm_compute; reflexivity|]. split; [reflexivity|].
    split; [reflexivity|]. split; [vm_compute; reflexivity|].
    split; [reflexivity|]. by_decide.
  - vm_compute; reflexivity.
  - apply repeated_labels_split_a_cluster.
  - apply repeated_labels_split_a_cluster.
Qed.

Lemma iloc0_group {A} (col : A → cell) (group : list A) (v : cell) :
  group ≠ [] → (∀ r, r ∈ group → col r = v) → iloc0 col group = v.
Proof.
  destruct group as [|r group]; [done|]. intros _ Hcol. apply Hcol. left.
Qed.

Lemma filter_all {A} (P : A → Prop) `{!∀ x, Decision (P x)} (l : list A) :
  (∀ x, x ∈ l → P x) → filter P l = l.
Proof.
  induction l as [|x l IH]; intros HP; [done|].
  rewrite filter_cons_True by (apply HP; left).
  f_equal. apply IH. intros y Hy. apply HP. by right.
Qed.

Section import_facts.
Variable catalog : kind → cell → bool.
Variable load_use_conditions : cell → result unit.

Section for_groups_facts.
Context {K : Type} `{EqDecision K} (le : relation K) `{!RelDecision le}.
Variable key : zrow → option K.
Variable body : list zrow → M (list element).

Lemma for_groups_outcome (zone : list zrow) (es : list element) :
  outcome (for_groups le key body zone) = Ok es ↔
  ∃ ess, Forall2 (λ k es_k, outcome (body (group_of key zone k)) = Ok es_k)
           (group_keys le key zone) ess ∧
         es = concat ess.
Proof.
  unfold for_groups. rewrite outcome_bind, rbind_Ok.
  setoid_rewrite outcome_for_each. setoid_rewrite rmapM_Ok.
  unfold groupby. setoid_rewrite Forall2_fmap_l. simpl.
  split; [intros (ess & ? & [= <-])|intros (ess & ? & ->)]; eauto.
Qed.

Lemma for_groups_log (zone : list zrow) (es : list element) :
  outcome (for_groups le key body zone) = Ok es →
  log (for_groups le key body zone) =
  concat ((λ k, log (body (group_of key zone k)))
            <$> group_keys le key zone).
Proof.
  unfold for_groups. rewrite outcome_bind.
  intros (ess & Hess & _)%rbind_Ok.
  rewrite (log_bind_Ok _ _ ess) by done. simpl. rewrite app_nil_r.
  rewrite (log_for_each_Ok _ _ ess) by done.
  unfold groupby. by rewrite <-list_fmap_compose.
Qed.

(** What the body logs for a group is in the log of the loop. *)
Lemma for_groups_log_elem (zone : list zrow) (es : list element)
    (k : K) (w : warning) :
  outcome (for_groups le key body zone) = Ok es →
  k ∈ group_keys le key zone →
  w ∈ log (body (group_of key zone k)) →
  w ∈ log (for_groups le key body zone).
Proof.
  intros Hok Hk Hw. rewrite (for_groups_log zone es Hok).
  apply elem_of_concat. eexists. split; [|exact Hw].
  by apply (list_elem_of_fmap_2 (λ k, log (body (group_of key zone k)))).
Qed.
End for_groups_facts.

Lemma build_zone_Ok (name : cell) (zone : list zrow) (tz : thermal_zone) :
  outcome (build_zone catalog load_use_conditions name zone) = Ok tz →
  tz_name tz = name ∧
  nansum (column NetArea zone) = Ok (tz_area tz) ∧
  (∃ volumes,
     rmapM (λ r, py_mul (NetArea (base r)) (HeatedRoomHeight (base r)))
       zone = Ok volumes ∧
     nansum volumes = Ok (tz_volume tz)) ∧
  outcome (outer_walls catalog zone) = Ok (tz_outer_walls tz) ∧
  outcome (windows catalog zone) = Ok (tz_windows tz) ∧
  outcome (floors catalog zone) = Ok (tz_floors tz) ∧
  outcome (ceilings catalog zone) = Ok (tz_ceilings tz) ∧
  outcome (inner_walls catalog zone) = Ok (tz_inner_walls tz) ∧
  tz_ahu tz = ahu_flows name.
Proof.
  unfold build_zone. intros H. invert_binds H.
  injection H as <-. simpl. split_and!; eauto.
Qed.

Lemma build_zone_log (name : cell) (zone : list zrow) (tz : thermal_zone) :
  outcome (build_zone catalog load_use_conditions name zone) = Ok tz →
  log (build_zone catalog load_use_conditions name zone) =
  log (outer_walls catalog zone) ++ log (windows catalog zone) ++
  log (floors catalog zone) ++ log (ceilings catalog zone) ++
  log (inner_walls catalog zone) ++ log (ahu_check name).
Proof.
  unfold build_zone. intros H. invert_binds H.
  repeat (erewrite log_bind_Ok by eassumption).
  simpl. by rewrite app_nil_r.
Qed.

Lemma import_building_Ok (d : list row) (zones : list thermal_zone) :
  outcome (import_building_from_excel catalog load_use_conditions d)
    = Ok zones ↔
  ∃ Z, outcome (zoning_example d) = Ok Z ∧
       Forall2 (λ name tz,
           outcome (build_zone catalog load_use_conditions name
                      (zone_rows Z name)) = Ok tz)
         (zone_names Z) zones.
Proof.
  unfold import_building_from_excel. rewrite outcome_bind, rbind_Ok.
  setoid_rewrite outcome_for_each. setoid_rewrite rmapM_Ok.
  unfold groupby. setoid_rewrite Forall2_fmap_l. done.
Qed.

(** Every zone name of the zoned table has its zone in a successful run,
    and what building that zone logs is in the log of the run. *)
Lemma import_building_zone (d : list row) (Z : list zrow)
    (zones : list thermal_zone) (name : cell) :
  outcome (import_building_from_excel catalog load_use_conditions d)
    = Ok zones →
  outcome (zoning_example d) = Ok Z →
  name ∈ zone_names Z →
  ∃ tz, tz ∈ zones ∧
        outcome (build_zone catalog load_use_conditions name
                   (zone_rows Z name)) = Ok tz ∧
        ∀ w, w ∈ log (build_zone catalog load_use_conditions name
                        (zone_rows Z name)) →
             w ∈ log (import_building_from_excel catalog
                        load_use_conditions d).
Proof.
  intros Hok HZ Hname.
  pose proof Hok as (Z' & HZ' & HF)%import_building_Ok.
  assert (Z' = Z) as -> by congruence.
  apply list_elem_of_lookup in Hname as [i Hi].
  destruct (Forall2_lookup_l _ _ _ _ _ HF Hi) as (tz & Htz & Hb).
  exists tz. split_and!; [by eapply list_elem_of_lookup_2|done|].
  intros w Hw. unfold import_building_from_excel.
  rewrite (log_bind_Ok _ _ Z) by done. apply elem_of_app. right.
  unfold import_building_from_excel in Hok.
  rewrite outcome_bind, HZ in Hok. cbn [rbind] in Hok.
  eapply (log_for_each _ _ zones (name, zone_rows Z name)); [done| |done].
  apply elem_of_groupby. split; [|done].
  by eapply list_elem_of_lookup_2.
Qed.
End import_facts.

Lemma filter_concat_groups {K E : Type} `{EqDecision K} (P : K → E → Prop)
    `{!∀ k e, Decision (P k e)}
    (R : K → list E → Prop) (ks : list K) (ess : list (list E))
    (k : K) (es : list E) :
  NoDup ks →
  Forall2 R ks ess →
  (∀ k' es' e, k' ∈ ks → R k' es' → e ∈ es' → ∀ k, P k e ↔ k = k') →
  (∀ es', R k es' → es' = es) →
  k ∈ ks →
  filter (P k) (concat ess) = es.
Proof.
  intros Hnd HR Htag Hfun. revert Hnd Htag.
  induction HR as [|k' es' ks ess Hk' HR IH]; intros Hnd Htag Hk.
  - by apply elem_of_nil in Hk.
  - apply NoDup_cons in Hnd as [Hnotin Hnd]. simpl. rewrite filter_app.
    assert (∀ e, e ∈ es' → ∀ k, P k e ↔ k = k') as Htag'.
    { intros e He. eapply Htag; [left|done..]. }
    destruct (decide (k ∈ ks)) as [Hin|Hin].
    + rewrite (filter_none (P k) es').
      * apply IH; [done| |done]. intros k'' es'' e ?. apply Htag. by right.
      * intros e He HP. apply (Htag' _ He) in HP as ->. done.
    + apply elem_of_cons in Hk as [->|?]; [|done].
      pose proof (Hfun _ Hk') as ->.
      rewrite (filter_none (P k') (concat ess)).
      * rewrite app_nil_r. apply filter_all. intros e He.
        by apply (Htag' _ He).
      * intros e (l & Hl & He)%elem_of_concat HP.
        apply list_elem_of_lookup in Hl as [i Hi].
        destruct (Forall2_lookup_r _ _ _ _ _ HR Hi) as (k'' & Hk'' & HRk).
        apply list_elem_of_lookup_2 in Hk''.
        apply (Htag k'' l e) in HP as ->; [done|by right|done..].
Qed.

Lemma elem_of_concat_groups_inv {K E : Type} (R : K → list E → Prop)
    (ks : list K) (ess : list (list E)) (e : E) :
  Forall2 R ks ess → e ∈ concat ess →
  ∃ k es, k ∈ ks ∧ R k es ∧ e ∈ es.
Proof.
  intros HR (l & Hl & He)%elem_of_concat.
  apply list_elem_of_lookup in Hl as [i Hi].
  destruct (Forall2_lookup_r _ _ _ _ _ HR Hi) as (k & Hk & HRk).
  exists k, l. split_and!; [by eapply list_elem_of_lookup_2|done..].
Qed.

Section facade_facts.
Variable catalog : kind → cell → bool.
Variables (k : kind) (tilt : Qc) (orientation area construction : row → cell).
Variable zone : list zrow.

Local Abbreviation key :=
  (λ r : zrow, present2 (orientation (base r)) (construction (base r))).

Lemma group_iloc0 (kk : cell * cell) :
  kk ∈ group_keys pair_le key zone →
  iloc0 (orientation ∘ base) (group_of key zone kk) = kk.1 ∧
  iloc0 (construction ∘ base) (group_of key zone kk) = kk.2.
Proof.
  intros Hkk. pose proof (group_of_nonempty _ _ _ _ Hkk) as Hne.
  split; (apply iloc0_group; [done|]);
    intros r [_ Hr]%elem_of_group_of; apply present2_Some in Hr; simpl;
    by destruct Hr as (? & ? & _).
Qed.

Lemma facade_group_str (kk : cell * cell) :
  kk ∈ group_keys pair_le key zone →
  is_str kk.1 = true →
  facade_group catalog k tilt orientation area construction
    (group_of key zone kk) =
  ([WOrientation k (iloc0 Zone (group_of key zone kk)) kk.1
      (labels (group_of key zone kk))], Ok []).
Proof.
  intros [Ho _]%group_iloc0 Hstr. unfold facade_group.
  by rewrite Ho, Hstr.
Qed.

Lemma facade_group_num (kk : cell * cell) (s : Qc) :
  kk ∈ group_keys pair_le key zone →
  is_str kk.1 = false →
  nansum (column area (group_of key zone kk)) = Ok s →
  outcome (facade_group catalog k tilt orientation area construction
             (group_of key zone kk)) =
  Ok (if bool_decide (0 < s) then
        [{| e_kind := k; e_area := s; e_tilt := Some tilt;
            e_orientation := Some kk.1; e_construction := kk.2 |}]
      else []).
Proof.
  intros [Ho Hc]%group_iloc0 Hstr Hs. unfold facade_group.
  rewrite Ho, Hc, Hstr, Hs. cbn [negb]. rewrite outcome_bind. simpl.
  case_bool_decide; [|done]. rewrite outcome_bind.
  unfold warn_constructiontype. by case_match.
Qed.

Lemma facade_group_tag (kk kk' : cell * cell) (es : list element)
    (e : element) :
  kk ∈ group_keys pair_le key zone →
  outcome (facade_group catalog k tilt orientation area construction
             (group_of key zone kk)) = Ok es →
  e ∈ es → of_group kk' e ↔ kk' = kk.
Proof.
  intros Hkk Hes He. destruct (is_str kk.1) eqn:Hstr.
  - rewrite facade_group_str in Hes by done. injection Hes as <-.
    by apply elem_of_nil in He.
  - pose proof Hes as Hes'. unfold facade_group in Hes'.
    destruct (group_iloc0 kk Hkk) as [Ho Hc].
    rewrite Ho, Hstr in Hes'. cbn [negb] in Hes'.
    rewrite outcome_bind in Hes'. apply rbind_Ok in Hes' as (s & Hs & _).
    rewrite (facade_group_num kk s) in Hes by done.
    injection Hes as <-. case_bool_decide; [|by apply elem_of_nil in He].
    apply list_elem_of_singleton in He as ->. unfold of_group. simpl.
    destruct kk, kk'. simpl. split; [intros [[= ->] ->]|intros [= -> ->]]; done.
Qed.

Lemma facades_spec (name : cell) (es : list element) :
  (∀ r, r ∈ zone → Zone r = name) →
  outcome (facades catalog k tilt orientation area construction zone)
    = Ok es →
  facades_as_claimed k tilt orientation area construction name zone es
    (log (facades catalog k tilt orientation area construction zone)).
Proof.
  intros Hname Hes kk Hkk group.
  pose proof Hes as (ess & Hess & ->)%for_groups_outcome.
  assert (iloc0 Zone group = name) as Hzone.
  { apply iloc0_group; [by eapply group_of_nonempty|].
    intros r [? _]%elem_of_group_of. auto. }
  assert (∀ es_k,
    outcome (facade_group catalog k tilt orientation area construction
               group) = Ok es_k →
    filter (of_group kk) (concat ess) = es_k) as Hfilter.
  { intros es_k Hk.
    apply (filter_concat_groups of_group
             (λ k0 es_k,
                outcome (facade_group catalog k tilt orientation area
                           construction (group_of key zone k0)) = Ok es_k)
             (group_keys pair_le key zone) ess);
      [apply NoDup_group_keys|exact Hess| | |exact Hkk].
    - intros kk' es' e Hin Hes' He kk''. by eapply facade_group_tag.
    - intros es' Hes'. cbv beta in Hes'. unfold group in Hk. congruence. }
  split.
  - intros Hstr. pose proof (facade_group_str kk Hkk Hstr) as Hg.
    fold group in Hg. rewrite Hzone in Hg. split.
    + eapply (for_groups_log_elem pair_le key); [exact Hes|exact Hkk|].
      fold group. rewrite Hg. left.
    + apply Hfilter. by rewrite Hg.
  - intros Hstr.
    destruct (nansum (column area group)) as [s|e] eqn:Hs.
    + exists s. split; [done|]. apply Hfilter.
      by apply facade_group_num.
    + exfalso. apply list_elem_of_lookup in Hkk as [i Hi].
      destruct (Forall2_lookup_l _ _ _ _ _ Hess Hi) as (es_k & _ & Hk).
      unfold facade_group in Hk. fold group in Hk.
      destruct (group_iloc0 kk) as [Ho _]; [by eapply list_elem_of_lookup_2|].
      fold group in Ho. rewrite Ho, Hstr in Hk. cbn [negb] in Hk.
      rewrite outcome_bind, outcome_lift, Hs in Hk. done.
Qed.
End facade_facts.

Lemma facades_as_claimed_mono (k : kind) (tilt : Qc)
    (orientation area construction : row → cell) (name : cell)
    (zone : list zrow) (es : list element) (ws ws' : list warning) :
  (∀ w, w ∈ ws → w ∈ ws') →
  facades_as_claimed k tilt orientation area construction name zone es ws →
  facades_as_claimed k tilt orientation area construction name zone es ws'.
Proof.
  intros Hsub H kk Hkk. destruct (H kk Hkk) as [Hstr Hnum].
  split; [|done]. intros Hs. destruct (Hstr Hs). auto.
Qed.

Lemma zone_rows_Zone (Z : list zrow) (name : cell) (r : zrow) :
  r ∈ zone_rows Z name → Zone r = name.
Proof. by intros [_ [? _]%present_Some]%elem_of_group_of. Qed.

Section facades_of_zones.
Variable catalog : kind → cell → bool.
Variable load_use_conditions : cell → result unit.

(** Claim C4.  In a successful import, every zone name of the zoned table
    has its zone, and for the outer walls and for the windows of that zone
    [facades_as_claimed] holds: per (orientation, construction) group, a
    string for orientation gives the diagnostic and no element of the
    group; otherwise there is exactly one element of the group, with the
    summed area, if that sum is positive, and none if it is not. *)
Theorem facades_of_every_zone (d : list row) (Z : list zrow)
    (zones : list thermal_zone) (name : cell) :
  outcome (import_building_from_excel catalog load_use_conditions d)
    = Ok zones →
  outcome (zoning_example d) = Ok Z →
  name ∈ zone_names Z →
  ∃ tz, tz ∈ zones ∧ tz_name tz = name ∧
    facades_as_claimed OuterWall out_wall_tilt
      OuterWallOrientation OuterWallArea OuterWallConstruction
      name (zone_rows Z name) (tz_outer_walls tz)
      (log (import_building_from_excel catalog load_use_conditions d)) ∧
    facades_as_claimed Window window_tilt
      WindowOrientation WindowArea WindowConstruction
      name (zone_rows Z name) (tz_windows tz)
      (log (import_building_from_excel catalog load_use_conditions d)).
Proof.
  intros Hok HZ Hname.
  destruct (import_building_zone _ _ d Z zones name Hok HZ Hname)
    as (tz & Htz & Hb & Hlog).
  pose proof (build_zone_log _ _ _ _ _ Hb) as Hl.
  apply build_zone_Ok in Hb as (Hn & _ & _ & How & Hwi & _).
  exists tz. split_and!; [done..| |].
  - eapply facades_as_claimed_mono;
      [|by apply facades_spec; [apply zone_rows_Zone|exact How]].
    intros w Hw. apply Hlog. rewrite Hl. apply elem_of_app. by left.
  - eapply facades_as_claimed_mono;
      [|by apply facades_spec; [apply zone_rows_Zone|exact Hwi]].
    intros w Hw. apply Hlog. rewrite Hl, !elem_of_app. right. by left.
Qed.
End facades_of_zones.

Lemma facades_of_every_zone_witness :
  ∃ Z zones,
    outcome (import_building_from_excel (λ _ _, true) (λ _, Ok tt)
               envelope_table) = Ok zones ∧
    outcome (zoning_example envelope_table) = Ok Z ∧
    office_zone ∈ zone_names Z ∧
    ∃ tz, tz ∈ zones ∧ tz_name tz = office_zone ∧
      facades_as_claimed OuterWall out_wall_tilt
        OuterWallOrientation OuterWallArea OuterWallConstruction
        office_zone (zone_rows Z office_zone) (tz_outer_walls tz)
        (log (import_building_from_excel (λ _ _, true) (λ _, Ok tt)
                envelope_table)) ∧
      facades_as_claimed Window window_tilt
        WindowOrientation WindowArea WindowConstruction
        office_zone (zone_rows Z office_zone) (tz_windows tz)
        (log (import_building_from_excel (λ _ _, true) (λ _, Ok tt)
                envelope_table)).
Proof.
  eexists _, _.
  split; [vm_compute; reflexivity|].
  split; [vm_compute; reflexivity|].
  split; [by_decide|].
  apply (facades_of_every_zone (λ _ _, true) (λ _, Ok tt) envelope_table);
    [vm_compute; reflexivity|vm_compute; reflexivity|by_decide].
Defined.

(** The elements of the sample building and the diagnostics of zoning and
    of the loops over the elements. *)
Example envelope_table_run :
  ∃ tz ws,
    import_building_from_excel (λ _ _, true) (λ _, Ok tt) envelope_table
      = (ws, Ok [tz]) ∧
    (λ e, (e_kind e, e_orientation e, this (e_area e)))
      <$> (tz_outer_walls tz ++ tz_windows tz ++ tz_floors tz ++
           tz_ceilings tz ++ tz_inner_walls tz) =
      [(OuterWall, Some (num 90), 30 # 1);
       (Window, Some (num 90), 6 # 1);
       (GroundFloor, Some (num (-2)), 20 # 1);
       (Ceiling, Some (num (-1)), 10 # 1);
       (Rooftop, Some (num (-1)), 12 # 1);
       (InnerWall, None, 7 # 2)]%Q ∧
    take 5 ws = [WNetAreaZero (num 4);
                 WOrientation OuterWall office_zone (Str "north") [num 1];
                 WNoArea GroundFloor office_zone (num 0) (Str "Wood");
                 WFlagValue GroundFloor;
                 WNoArea Rooftop office_zone (num 0) (Str "Wood")].
Proof.
  eexists _, _. split; [vm_compute; reflexivity|].
  split; [vm_compute; reflexivity|by_decide].
Qed.

Lemma py_eq_num (a : cell) (z : Z) : py_eq a (num z) = bool_decide (a = num z).
Proof.
  destruct (py_eq a (num z)) eqn:H.
  - apply py_eq_true in H as [-> _]. by rewrite bool_decide_true.
  - case_bool_decide as Ha; [|done]. subst.
    by rewrite py_eq_refl in H.
Qed.

Lemma Qc_half_twice (s : Qc) : s / Qc_of_Z 2 + s / Qc_of_Z 2 = s.
Proof.
  assert (Qc_of_Z 2 = 1 + 1) as -> by by_decide.
  field. by_decide.
Qed.

Section level_facts.
Variable catalog : kind → cell → bool.
Variables (full half : kind) (tilt : Qc) (sentinel : cell).
Variables (flag construction : row → cell).
Variable zone : list zrow.

Local Abbreviation key :=
  (λ r : zrow, present2 (flag (base r)) (construction (base r))).
Local Abbreviation body :=
  (level_group catalog full half tilt sentinel flag construction).

Lemma level_group_outcome (kk : cell * cell) (s : Qc) :
  kk ∈ group_keys pair_le key zone →
  nansum (column NetArea (group_of key zone kk)) = Ok s →
  outcome (body (group_of key zone kk)) =
  Ok (if bool_decide (s ≠ 0) then
        if bool_decide (kk.1 = num 1) then
          [{| e_kind := full; e_area := s; e_tilt := Some tilt;
              e_orientation := Some sentinel; e_construction := kk.2 |}]
        else if bool_decide (kk.1 = num 0) then
          [{| e_kind := half; e_area := s / Qc_of_Z 2;
              e_tilt := Some tilt; e_orientation := Some sentinel;
              e_construction := kk.2 |}]
        else []
      else []).
Proof.
  intros Hkk Hs.
  destruct (group_iloc0 flag construction zone kk Hkk) as [Hf Hc].
  unfold level_group. rewrite Hs, Hf, Hc, !py_eq_num.
  rewrite outcome_bind. cbn [lift outcome snd rbind].
  repeat case_bool_decide; try done;
    rewrite outcome_bind; unfold warn_constructiontype; by case_match.
Qed.

Lemma level_group_log (kk : cell * cell) (s : Qc) (name : cell) :
  kk ∈ group_keys pair_le key zone →
  nansum (column NetArea (group_of key zone kk)) = Ok s →
  iloc0 Zone (group_of key zone kk) = name →
  (s ≠ 0 → kk.1 ≠ num 0 → kk.1 ≠ num 1 →
     log (body (group_of key zone kk)) = [WFlagValue full]) ∧
  (s = 0 →
     log (body (group_of key zone kk)) = [WNoArea full name kk.1 kk.2]).
Proof.
  intros Hkk Hs Hname.
  destruct (group_iloc0 flag construction zone kk Hkk) as [Hf Hc].
  unfold level_group. rewrite Hs, Hf, Hc, Hname, !py_eq_num.
  split.
  - intros ???. unfold lift, bind.
    by rewrite bool_decide_true, !bool_decide_false by done.
  - intros ->. unfold lift, bind. by rewrite bool_decide_false by auto.
Qed.

Lemma levels_nansum (es : list element) (kk : cell * cell) :
  outcome (levels catalog full half tilt sentinel flag construction zone)
    = Ok es →
  kk ∈ group_keys pair_le key zone →
  ∃ s, nansum (column NetArea (group_of key zone kk)) = Ok s.
Proof.
  intros (ess & Hess & _)%for_groups_outcome [i Hi]%list_elem_of_lookup.
  destruct (Forall2_lookup_l _ _ _ _ _ Hess Hi) as (es_k & _ & Hk).
  unfold level_group in Hk. rewrite outcome_bind, outcome_lift in Hk.
  apply rbind_Ok in Hk as (s & Hs & _). eauto.
Qed.

Lemma levels_spec (name : cell) (es : list element) :
  (∀ r, r ∈ zone → Zone r = name) →
  outcome (levels catalog full half tilt sentinel flag construction zone)
    = Ok es →
  levels_as_claimed catalog full half tilt sentinel flag construction
    name zone es
    (log (levels catalog full half tilt sentinel flag construction zone)).
Proof.
  intros Hname Hes. split; [by apply for_groups_outcome|].
  intros kk Hkk. destruct (levels_nansum es kk Hes Hkk) as [s Hs].
  exists s. split; [done|].
  assert (iloc0 Zone (group_of key zone kk) = name) as Hzone.
  { apply iloc0_group; [by eapply group_of_nonempty|].
    intros r [? _]%elem_of_group_of. auto. }
  destruct (level_group_log kk s name Hkk Hs Hzone) as [Hflag Hzero].
  rewrite (level_group_outcome kk s Hkk Hs).
  split.
  - intros H0 H1 H2. split.
    + eapply (for_groups_log_elem pair_le key); [exact Hes|exact Hkk|].
      rewrite Hflag by done. left.
    + by rewrite bool_decide_true, !bool_decide_false by done.
  - intros ->. split.
    + eapply (for_groups_log_elem pair_le key); [exact Hes|exact Hkk|].
      rewrite Hzero by done. left.
    + by rewrite bool_decide_false by auto.
Qed.

Lemma level_areas_spec (es : list element) :
  outcome (levels catalog full half tilt sentinel flag construction zone)
    = Ok es →
  level_areas_as_claimed full half flag construction zone es.
Proof.
  intros Hes e He. pose proof Hes as (ess & Hess & ->)%for_groups_outcome.
  destruct (elem_of_concat_groups_inv _ _ _ _ Hess He)
    as (kk & es_k & Hkk & Hk & Hek).
  destruct (levels_nansum _ kk Hes Hkk) as [s Hs].
  rewrite (level_group_outcome kk s Hkk Hs) in Hk. injection Hk as <-.
  exists kk, s.
  repeat case_bool_decide; try (by apply elem_of_nil in Hek);
    apply list_elem_of_singleton in Hek as ->; simpl;
    split_and!; auto using Qc_half_twice.
Qed.
End level_facts.

Section inner_wall_facts.
Variable catalog : kind → cell → bool.
Variable zone : list zrow.

Local Abbreviation key :=
  (λ r : zrow, present (InnerWallConstruction (base r))).

Lemma inner_wall_group_outcome (c : cell) (s : Qc) :
  c ∈ group_keys cell_le key zone →
  nansum (column InnerWallArea (group_of key zone c)) = Ok s →
  outcome (inner_wall_group catalog (group_of key zone c)) =
  Ok (if bool_decide (s ≠ 0) then
        [{| e_kind := InnerWall; e_area := s / Qc_of_Z 2;
            e_tilt := None; e_orientation := None;
            e_construction := c |}]
      else []).
Proof.
  intros Hc Hs.
  assert (iloc0 (InnerWallConstruction ∘ base) (group_of key zone c) = c)
    as Hi.
  { apply iloc0_group; [by eapply group_of_nonempty|].
    by intros r [_ [? _]%present_Some]%elem_of_group_of. }
  unfold inner_wall_group. rewrite Hs, Hi.
  rewrite outcome_bind. cbn [lift outcome snd rbind].
  case_bool_decide; [|done].
  rewrite outcome_bind; unfold warn_constructiontype; by case_match.
Qed.

Lemma inner_wall_areas_spec (es : list element) :
  outcome (inner_walls catalog zone) = Ok es →
  inner_wall_areas_as_claimed zone es.
Proof.
  intros (ess & Hess & ->)%for_groups_outcome e He.
  destruct (elem_of_concat_groups_inv _ _ _ _ Hess He)
    as (c & es_c & Hc & Hk & Hec).
  pose proof Hk as Hk'. unfold inner_wall_group in Hk'.
  rewrite outcome_bind, outcome_lift in Hk'.
  apply rbind_Ok in Hk' as (s & Hs & _).
  rewrite (inner_wall_group_outcome c s Hc Hs) in Hk. injection Hk as <-.
  case_bool_decide; [|by apply elem_of_nil in Hec].
  apply list_elem_of_singleton in Hec as ->. simpl. split; [done|].
  exists c, s. split_and!; auto using Qc_half_twice.
Qed.
End inner_wall_facts.

Lemma levels_as_claimed_mono (catalog : kind → cell → bool)
    (full half : kind) (tilt : Qc) (sentinel : cell)
    (flag construction : row → cell) (name : cell)
    (zone : list zrow) (es : list element) (ws ws' : list warning) :
  (∀ w, w ∈ ws → w ∈ ws') →
  levels_as_claimed catalog full half tilt sentinel flag construction
    name zone es ws →
  levels_as_claimed catalog full half tilt sentinel flag construction
    name zone es ws'.
Proof.
  intros Hsub [Hess H]. split; [done|]. intros kk Hkk.
  destruct (H kk Hkk) as (s & Hs & Hflag & Hzero). exists s.
  split_and!; [done| |].
  - intros ???. destruct Hflag; auto.
  - intros ?. destruct Hzero; auto.
Qed.

Section levels_of_zones.
Variable catalog : kind → cell → bool.
Variable load_use_conditions : cell → result unit.

(** Claim C5.  In a successful import, every zone name of the zoned table
    has its zone, and for the floors and for the ceilings of that zone
    [levels_as_claimed] holds: the loop returns what its body returns group
    by group, and for a (flag, construction) group with nonzero summed net
    area and a flag other than 0 and 1, as for a group of summed net area 0,
    the body logs the diagnostic and returns no element. *)
Theorem invalid_flag_and_zero_area_groups (d : list row) (Z : list zrow)
    (zones : list thermal_zone) (name : cell) :
  outcome (import_building_from_excel catalog load_use_conditions d)
    = Ok zones →
  outcome (zoning_example d) = Ok Z →
  name ∈ zone_names Z →
  ∃ tz, tz ∈ zones ∧ tz_name tz = name ∧
    levels_as_claimed catalog GroundFloor Floor ground_floor_tilt
      ground_floor_orientation IsGroundFloor FloorConstruction
      name (zone_rows Z name) (tz_floors tz)
      (log (import_building_from_excel catalog load_use_conditions d)) ∧
    levels_as_claimed catalog Rooftop Ceiling rooftop_tilt
      rooftop_orientation IsRooftop CeilingConstruction
      name (zone_rows Z name) (tz_ceilings tz)
      (log (import_building_from_excel catalog load_use_conditions d)).
Proof.
  intros Hok HZ Hname.
  destruct (import_building_zone _ _ d Z zones name Hok HZ Hname)
    as (tz & Htz & Hb & Hlog).
  pose proof (build_zone_log _ _ _ _ _ Hb) as Hl.
  apply build_zone_Ok in Hb as (Hn & _ & _ & _ & _ & Hfl & Hce & _).
  exists tz. split_and!; [done..| |].
  - eapply levels_as_claimed_mono;
      [|by apply levels_spec; [apply zone_rows_Zone|exact Hfl]].
    intros w Hw. apply Hlog. rewrite Hl, !elem_of_app. auto.
  - eapply levels_as_claimed_mono;
      [|by apply levels_spec; [apply zone_rows_Zone|exact Hce]].
    intros w Hw. apply Hlog. rewrite Hl, !elem_of_app. auto.
Qed.

(** Claim C2.  In a successful import, every zone name of the zoned table
    has its zone, and every inner wall of that zone has half the summed
    inner-wall area of its construction group, every floor and every
    ceiling (flag 0) half the summed net area of its (flag, construction)
    group, and every ground floor and every rooftop (flag 1) all of it;
    half means that twice the area is the sum. *)
Theorem shared_surfaces_are_halved (d : list row) (Z : list zrow)
    (zones : list thermal_zone) (name : cell) :
  outcome (import_building_from_excel catalog load_use_conditions d)
    = Ok zones →
  outcome (zoning_example d) = Ok Z →
  name ∈ zone_names Z →
  ∃ tz, tz ∈ zones ∧ tz_name tz = name ∧
    inner_wall_areas_as_claimed (zone_rows Z name) (tz_inner_walls tz) ∧
    level_areas_as_claimed GroundFloor Floor
      IsGroundFloor FloorConstruction (zone_rows Z name) (tz_floors tz) ∧
    level_areas_as_claimed Rooftop Ceiling
      IsRooftop CeilingConstruction (zone_rows Z name) (tz_ceilings tz).
Proof.
  intros Hok HZ Hname.
  destruct (import_building_zone _ _ d Z zones name Hok HZ Hname)
    as (tz & Htz & Hb & _).
  apply build_zone_Ok in Hb as (Hn & _ & _ & _ & _ & Hfl & Hce & Hiw & _).
  exists tz. split_and!; [done..| | |].
  - by eapply inner_wall_areas_spec.
  - by eapply level_areas_spec.
  - by eapply level_areas_spec.
Qed.
End levels_of_zones.

Lemma invalid_flag_and_zero_area_groups_witness :
  ∃ Z zones,
    outcome (import_building_from_excel (λ _ _, true) (λ _, Ok tt)
               envelope_table) = Ok zones ∧
    outcome (zoning_example envelope_table) = Ok Z ∧
    office_zone ∈ zone_names Z ∧
    ∃ tz, tz ∈ zones ∧ tz_name tz = office_zone ∧
      levels_as_claimed (λ _ _, true) GroundFloor Floor ground_floor_tilt
        ground_floor_orientation IsGroundFloor FloorConstruction
        office_zone (zone_rows Z office_zone) (tz_floors tz)
        (log (import_building_from_excel (λ _ _, true) (λ _, Ok tt)
                envelope_table)) ∧
      levels_as_claimed (λ _ _, true) Rooftop Ceiling rooftop_tilt
        rooftop_orientation IsRooftop CeilingConstruction
        office_zone (zone_rows Z office_zone) (tz_ceilings tz)
        (log (import_building_from_excel (λ _ _, true) (λ _, Ok tt)
                envelope_table)).
Proof.
  eexists _, _.
  split; [vm_compute; reflexivity|].
  split; [vm_compute; reflexivity|].
  split; [by_decide|].
  apply (invalid_flag_and_zero_area_groups (λ _ _, true) (λ _, Ok tt)
           envelope_table);
    [vm_compute; reflexivity|vm_compute; reflexivity|by_decide].
Defined.

Lemma shared_surfaces_are_halved_witness :
  ∃ Z zones,
    outcome (import_building_from_excel (λ _ _, true) (λ _, Ok tt)
               envelope_table) = Ok zones ∧
    outcome (zoning_example envelope_table) = Ok Z ∧
    office_zone ∈ zone_names Z ∧
    ∃ tz, tz ∈ zones ∧ tz_name tz = office_zone ∧
      inner_wall_areas_as_claimed (zone_rows Z office_zone)
        (tz_inner_walls tz) ∧
      level_areas_as_claimed GroundFloor Floor
        IsGroundFloor FloorConstruction (zone_rows Z office_zone)
        (tz_floors tz) ∧
      level_areas_as_claimed Rooftop Ceiling
        IsRooftop CeilingConstruction (zone_rows Z office_zone)
        (tz_ceilings tz).
Proof.
  eexists _, _.
  split; [vm_compute; reflexivity|].
  split; [vm_compute; reflexivity|].
  split; [by_decide|].
  apply (shared_surfaces_are_halved (λ _ _, true) (λ _, Ok tt)
           envelope_table);
    [vm_compute; reflexivity|vm_compute; reflexivity|by_decide].
Defined.

(** ** Retrofit *)

(** Claim C6, with the inherited [initialize_retrofit] modelled from the
    specification and whatever [set_insulation] is.  For a year before 1977
    [retrofit_wall] fails with [InvalidYear] and [set_insulation] is not
    reached; from 1977 on it is the call of [set_insulation] with the
    target [calc_u] of the year, and that target is 0.8 for 1977-1981, 0.7
    for 1982-1994, 0.5 for 1995-2001, 0.4 for 2002-2008, 0.3 for 2009-2013
    and 0.3 from 2014 on. *)
Theorem retrofit_wall_year_bands {S E : Type}
    (set_insulation :
       string → option Qc → Z → S → retrofit_error E + S)
    (default_material : string)
    (year : Z) (material : option string) (self : S) :
  ((year < 1977)%Z →
     retrofit_wall (initialize_retrofit default_material) set_insulation
       year material self = inl InvalidYear) ∧
  ((1977 ≤ year)%Z →
     ∃ u, calc_u year = Some u ∧
       retrofit_wall (initialize_retrofit default_material) set_insulation
         year material self
       = set_insulation (default default_material material) (Some u) year
           self) ∧
  ((1977 ≤ year ≤ 1981)%Z → calc_u year = Some (Q2Qc (8 # 10))) ∧
  ((1982 ≤ year ≤ 1994)%Z → calc_u year = Some (Q2Qc (7 # 10))) ∧
  ((1995 ≤ year ≤ 2001)%Z → calc_u year = Some (Q2Qc (5 # 10))) ∧
  ((2002 ≤ year ≤ 2008)%Z → calc_u year = Some (Q2Qc (4 # 10))) ∧
  ((2009 ≤ year ≤ 2013)%Z → calc_u year = Some (Q2Qc (3 # 10))) ∧
  ((2014 ≤ year)%Z → calc_u year = Some (Q2Qc (3 # 10))).
Proof.
  split_and!.
  - intros Hy. unfold retrofit_wall, initialize_retrofit.
    by rewrite bool_decide_true.
  - intros Hy. unfold retrofit_wall, initialize_retrofit.
    rewrite bool_decide_false by lia.
    assert (∃ u, calc_u year = Some u) as [u Hu].
    { unfold calc_u. repeat (case_bool_decide; [by eexists|]). lia. }
    exists u. by rewrite Hu.
  - unfold calc_u. intros ?. repeat (case_bool_decide; try lia); done.
  - unfold calc_u. intros ?. repeat (case_bool_decide; try lia); done.
  - unfold calc_u. intros ?. repeat (case_bool_decide; try lia); done.
  - unfold calc_u. intros ?. repeat (case_bool_decide; try lia); done.
  - unfold calc_u. intros ?. repeat (case_bool_decide; try lia); done.
  - unfold calc_u. intros ?. repeat (case_bool_decide; try lia); done.
Qed.

Example calc_u_samples :
  calc_u 1976 = None ∧ calc_u 1977 = Some (Q2Qc (8 # 10)) ∧
  calc_u 1981 = Some (Q2Qc (8 # 10)) ∧ calc_u 1982 = Some (Q2Qc (7 # 10)) ∧
  calc_u 1994 = Some (Q2Qc (7 # 10)) ∧ calc_u 1995 = Some (Q2Qc (5 # 10)) ∧
  calc_u 2001 = Some (Q2Qc (5 # 10)) ∧ calc_u 2002 = Some (Q2Qc (4 # 10)) ∧
  calc_u 2008 = Some (Q2Qc (4 # 10)) ∧ calc_u 2009 = Some (Q2Qc (3 # 10)) ∧
  calc_u 2013 = Some (Q2Qc (3 # 10)) ∧ calc_u 2014 = Some (Q2Qc (3 # 10)) ∧
  calc_u 2030 = Some (Q2Qc (3 # 10)).
Proof. repeat split. Qed.

(** ** Normalization *)

Lemma append_cons (c : ascii) (a b : string) :
  String c a +:+ b = String c (a +:+ b).
Proof. reflexivity. Qed.

Lemma append_nil_l (b : string) : EmptyString +:+ b = b.
Proof. reflexivity. Qed.

Lemma append_nil_r (a : string) : a +:+ EmptyString = a.
Proof.
  induction a as [|c a IH]; [done|]. by rewrite append_cons, IH.
Qed.

Lemma lstrip_spec (s : string) :
  ∃ l, s = l +:+ lstrip s ∧ all_space l ∧ starts_with_space (lstrip s) = false.
Proof.
  induction s as [|c s (l & Hl & Hsp & Hst)]; cbn [lstrip].
  - by exists EmptyString.
  - destruct (is_space c) eqn:Hc.
    + exists (String c l). rewrite append_cons, <-Hl. cbn. rewrite Hc.
      by split_and!.
    + exists EmptyString. rewrite append_nil_l. cbn. by rewrite Hc.
Qed.

Lemma rstrip_spec (s : string) :
  ∃ r, s = rstrip s +:+ r ∧ all_space r ∧ ends_with_space (rstrip s) = false.
Proof.
  induction s as [|c s (r & Hr & Hsp & Hend)]; cbn [rstrip].
  - by exists EmptyString.
  - destruct (rstrip s) as [|c' t] eqn:Ht.
    + rewrite append_nil_l in Hr. subst r. destruct (is_space c) eqn:Hc.
      * exists (String c s). rewrite append_nil_l. cbn. rewrite Hc.
        by split_and!.
      * exists s. rewrite append_cons, append_nil_l. cbn. by rewrite Hc.
    + exists r. rewrite append_cons, <-Hr. done.
Qed.

Lemma rstrip_starts (s : string) :
  starts_with_space s = false → starts_with_space (rstrip s) = false.
Proof.
  destruct s as [|c s]; cbn; [done|]. intros Hc.
  destruct (rstrip s); cbn; [by rewrite Hc|done].
Qed.

Lemma strip_spec (s : string) :
  ∃ l r, s = l +:+ strip s +:+ r ∧ all_space l ∧ all_space r ∧
         starts_with_space (strip s) = false ∧
         ends_with_space (strip s) = false.
Proof.
  destruct (lstrip_spec s) as (l & Hl & Hsl & Hst).
  destruct (rstrip_spec (lstrip s)) as (r & Hr & Hsr & Hend).
  exists l, r. unfold strip. split_and!; [|done..|by apply rstrip_starts|done].
  by rewrite <-Hr.
Qed.

Lemma clean_cell_spec (c : cell) :
  clean_cell c =
  match c with
  | Str s => if decide (strip s ∈ missing_tokens) then NaN else Str (strip s)
  | _ => c
  end.
Proof.
  destruct c as [|q|s]; [done..|]. unfold clean_cell. simpl.
  by case_bool_decide; case_decide.
Qed.

Lemma clean_cell_Str (c : cell) (s : string) :
  clean_cell c = Str s →
  starts_with_space s = false ∧ ends_with_space s = false ∧
  s ∉ missing_tokens.
Proof.
  rewrite clean_cell_spec. destruct c as [|q|s0]; [done..|].
  case_decide as Htok; [done|]. intros [= <-].
  destruct (strip_spec s0) as (l & r & _ & _ & _ & ? & ?). done.
Qed.

Lemma plus_two_num (j : Z) : plus_two (num j) = num (j + 2).
Proof.
  unfold plus_two, num. f_equal. apply Qc_is_canon. simpl.
  rewrite Qred_correct. unfold Qeq. simpl. lia.
Qed.

Lemma range_index_lookup (sheet : list (list cell)) (j : nat) (r : list cell) :
  sheet !! j = Some r → range_index sheet !! j = Some (num (Z.of_nat j), r).
Proof. intros H. unfold range_index. by rewrite list_lookup_imap, H. Qed.

Lemma concat_lookup {A} (ls : list (list A)) (k j : nat) (l : list A) (x : A) :
  ls !! k = Some l → l !! j = Some x →
  ∃ n, concat ls !! n = Some x.
Proof.
  revert k. induction ls as [|l' ls IH]; intros [|k] Hk Hj; simplify_eq/=.
  - exists j. by apply lookup_app_l_Some.
  - destruct (IH k Hk Hj) as [n Hn]. exists (length l' + n)%nat.
    by rewrite lookup_app_r, Nat.add_comm, Nat.add_sub by lia.
Qed.

(** What [import_data] does in general.  Every string cell of the table that
    [import_data] returns neither starts nor ends with white space and is
    none of the strings of [missing_tokens]; [strip] removes white space at
    both ends and nothing else; a cell is cleaned by stripping and then
    replacing exactly the strings of [missing_tokens] by [NaN]; with a list
    of sheets, row [j] of a sheet is in the result with a label equal to its
    place, with [j + 2] in front and with its cells cleaned; with one
    sheet, the labels stay and the cells are cleaned. *)
Theorem import_data_normalizes (wb : workbook) :
  (∀ ir c s, ir ∈ import_data wb → c ∈ ir.2 → c = Str s →
     starts_with_space s = false ∧ ends_with_space s = false ∧
     s ∉ missing_tokens) ∧
  (∀ s, ∃ l r, s = l +:+ strip s +:+ r ∧ all_space l ∧ all_space r ∧
               starts_with_space (strip s) = false ∧
               ends_with_space (strip s) = false) ∧
  (∀ c, clean_cell c =
        match c with
        | Str s =>
            if decide (strip s ∈ missing_tokens) then NaN else Str (strip s)
        | _ => c
        end) ∧
  match wb with
  | Sheets sheets =>
      ∀ (k j : nat) sheet r,
        sheets !! k = Some sheet → sheet !! j = Some r →
        ∃ n : nat,
          import_data wb !! n =
          Some (num (Z.of_nat n),
                num (Z.of_nat j + 2) :: (clean_cell <$> r))
  | Single sheet =>
      import_data wb =
      (λ ir : cell * list cell, (ir.1, clean_cell <$> ir.2)) <$> sheet
  end.
Proof.
  split_and!; [|apply strip_spec|apply clean_cell_spec|].
  - intros ir c s Hir Hc ->. unfold import_data in Hir.
    apply list_elem_of_fmap in Hir as (ir0 & -> & _). simpl in Hc.
    apply list_elem_of_fmap in Hc as (c0 & Hc0 & _).
    by eapply clean_cell_Str.
  - destruct wb as [sheets|sheet]; [|done].
    intros k j sheet r Hk Hj.
    destruct (concat_lookup (range_index <$> sheets) k j (range_index sheet)
                (num (Z.of_nat j), r)) as [n Hn].
    { by rewrite list_lookup_fmap, Hk. }
    { by apply range_index_lookup. }
    exists n. unfold import_data, reset_index_plus_two.
    rewrite list_lookup_fmap, list_lookup_imap, Hn.
    cbn [fmap option_fmap option_map fst snd]. rewrite plus_two_num.
    rewrite fmap_cons. done.
Qed.

Lemma import_data_normalizes_witness :
  import_data sample_workbook =
  [(num 0, [num 2; Str "R1"; NaN; num 20]);
   (num 1, [num 3; Str "R2"; NaN; Str "N/A"]);
   (num 2, [num 2; Str "R3"; NaN; num 7])]%string ∧
  ∃ n : nat,
    import_data sample_workbook !! n =
    Some (num (Z.of_nat n),
          num (Z.of_nat 1 + 2)
            :: (clean_cell <$> [Str "R2"; Str " na "; Str "N/A "]%string)).
Proof.
  split; [by_decide|].
  destruct (import_data_normalizes sample_workbook) as (_ & _ & _ & H).
  apply (H 0%nat 1%nat _ _ eq_refl eq_refl).
Defined.

(** Claim C10, at an input where the code misses it.  A cell that holds
    N/A followed by a blank is not recognised by the reader of the sheet;
    it is stripped to N/A, which is not among the strings that lines
    108-110 replace, and it stays a string in the table that [import_data]
    returns, as do n/a and NaN between blanks; NA between blanks becomes
    missing. *)
Theorem padded_na_is_not_missing :
  (strip "N/A " = "N/A")%string ∧
  ("N/A" ∉ missing_tokens)%string ∧
  clean_cell (Str "N/A ") = Str "N/A" ∧
  clean_cell (Str " n/a ") = Str "n/a" ∧
  clean_cell (Str " NaN") = Str "NaN" ∧
  clean_cell (Str " NA ") = NaN ∧
  import_data (Sheets [[[Str "R1"; Str "N/A "; num 12]]])
    = [(num 0, [num 2; Str "R1"; Str "N/A"; num 12])].
Proof. split_and!; by_decide. Qed.

Lemma ascii_compare_refl (a : ascii) : Ascii.compare a a = Eq.
Proof. unfold Ascii.compare. apply N.compare_refl. Qed.

Lemma ascii_compare_Lt_trans (a b c : ascii) :
  Ascii.compare a b = Lt → Ascii.compare b c = Lt → Ascii.compare a c = Lt.
Proof.
  unfold Ascii.compare. rewrite !N.compare_lt_iff. apply N.lt_trans.
Qed.

Lemma string_compare_Lt_trans (s t u : string) :
  String.compare s t = Lt → String.compare t u = Lt →
  String.compare s u = Lt.
Proof.
  revert t u. induction s as [|a s IH]; intros [|b t] [|c u]; simpl;
    try done.
  destruct (Ascii.compare a b) eqn:Hab, (Ascii.compare b c) eqn:Hbc;
    try done.
  - apply Ascii.compare_eq_iff in Hab as ->.
    apply Ascii.compare_eq_iff in Hbc as ->.
    rewrite ascii_compare_refl. apply IH.
  - apply Ascii.compare_eq_iff in Hab as ->. by rewrite Hbc.
  - apply Ascii.compare_eq_iff in Hbc as <-. by rewrite Hab.
  - by rewrite (ascii_compare_Lt_trans a b c).
Qed.

Lemma string_leb_trans (s t u : string) :
  String.leb s t → String.leb t u → String.leb s u.
Proof.
  unfold String.leb.
  destruct (String.compare s t) eqn:Hst; [| |done].
  - apply String.compare_eq_iff in Hst as ->. done.
  - destruct (String.compare t u) eqn:Htu; [| |done]; intros _ _.
    + apply String.compare_eq_iff in Htu as <-. by rewrite Hst.
    + by rewrite (string_compare_Lt_trans s t u).
Qed.

Global Instance cell_le_total : Total cell_le.
Proof.
  intros [|x|s] [|y|t]; simpl; auto.
  - apply (total Qcle).
  - destruct (String.leb_total s t) as [->| ->]; auto.
Qed.

Global Instance cell_le_trans : Transitive cell_le.
Proof.
  intros [|x|s] [|y|t] [|z|u]; simpl; try done.
  - apply Qcle_trans.
  - apply string_leb_trans.
Qed.

Global Instance cell_le_antisym : AntiSymm (=) cell_le.
Proof.
  intros [|x|s] [|y|t]; simpl; try done.
  - intros ??. f_equal. by apply Qcle_antisym.
  - intros ??. f_equal.
    apply String.leb_antisym; by apply Is_true_true.
Qed.

Global Instance pair_le_total : Total pair_le.
Proof.
  intros [a1 a2] [b1 b2]. unfold pair_le. simpl.
  destruct (decide (a1 = b1)) as [->|Hne].
  - destruct (total cell_le a2 b2); auto.
  - destruct (total cell_le a1 b1); auto.
Qed.

Global Instance pair_le_trans : Transitive pair_le.
Proof.
  intros [a1 a2] [b1 b2] [c1 c2]. unfold pair_le. simpl.
  intros [[Hab Hle]|[-> Hle]] [[Hbc Hle']|[-> Hle']].
  - left. split; [|by etrans]. intros ->.
    apply Hab. by apply (anti_symm cell_le).
  - auto.
  - auto.
  - right. split; [done|by etrans].
Qed.

Global Instance pair_le_antisym : AntiSymm (=) pair_le.
Proof.
  intros [a1 a2] [b1 b2]. unfold pair_le. simpl.
  intros [[Hab Hle]|[-> Hle]] [[Hba Hle']|[Heq Hle']]; try done.
  - destruct Hab. by apply (anti_symm cell_le).
  - f_equal. by apply (anti_symm cell_le).
Qed.

Section groupby_perm.
Context {A K : Type} `{EqDecision K} (le : relation K) `{!RelDecision le}.
Context `{!Total le, !Transitive le, !AntiSymm (=) le}.
Implicit Types (key : A → option K) (d : list A).


End groupby_perm.

(** ** Reordering the rows *)



Lemma nansum_TypeError (l : list cell) (e : exn) :
  nansum l = Raise e → e = TypeError.
Proof.
  induction l as [|c l IH]; simpl; [done|].
  destruct (nansum l) as [s|e']; simpl; [|intros [= <-]; by apply IH].
  by destruct c; intros [= <-].
Qed.




Section loops_perm.
Variable catalog : kind → cell → bool.
Variables zone zone' : list zrow.
Hypothesis Hperm : zone' ≡ₚ zone.

Section for_groups_perm.
Context {K : Type} `{EqDecision K} (le : relation K) `{!RelDecision le}.
Context `{!Total le, !Transitive le, !AntiSymm (=) le}.
Variable key : zrow → option K.
Variable body : list zrow → M (list element).
Hypothesis Hbody : ∀ k es,
  k ∈ group_keys le key zone →
  outcome (body (group_of key zone k)) = Ok es →
  outcome (body (group_of key zone' k)) = Ok es.

End for_groups_perm.



End loops_perm.

Section build_zone_perm.
Variable catalog : kind → cell → bool.
Variable load_use_conditions : cell → result unit.

Lemma build_zone_intro (name : cell) (zone : list zrow) (area volume : Qc)
    (volumes : list cell) (ow wi fl ce iw : list element) :
  nansum (column NetArea zone) = Ok area →
  rmapM (λ r, py_mul (NetArea (base r)) (HeatedRoomHeight (base r))) zone
    = Ok volumes →
  nansum volumes = Ok volume →
  load_use_conditions (iloc0 UsageType_Teaser zone) = Ok tt →
  outcome (outer_walls catalog zone) = Ok ow →
  outcome (windows catalog zone) = Ok wi →
  outcome (floors catalog zone) = Ok fl →
  outcome (ceilings catalog zone) = Ok ce →
  outcome (inner_walls catalog zone) = Ok iw →
  outcome (build_zone catalog load_use_conditions name zone) =
  Ok {| tz_name := name; tz_area := area; tz_volume := volume;
        tz_outer_walls := ow; tz_windows := wi; tz_floors := fl;
        tz_ceilings := ce; tz_inner_walls := iw;
        tz_ahu := ahu_flows name |}.
Proof.
  intros H1 H2 H3 H4 H5 H6 H7 H8 H9. unfold build_zone.
  rewrite outcome_bind, outcome_lift, H1. cbn [rbind].
  rewrite outcome_bind, outcome_lift, H2. cbn [rbind].
  rewrite outcome_bind, outcome_lift, H3. cbn [rbind].
  rewrite outcome_bind, outcome_lift, H4. cbn [rbind].
  rewrite outcome_bind, H5. cbn [rbind].
  rewrite outcome_bind, H6. cbn [rbind].
  rewrite outcome_bind, H7. cbn [rbind].
  rewrite outcome_bind, H8. cbn [rbind].
  rewrite outcome_bind, H9. cbn [rbind].
  rewrite outcome_bind. unfold ahu_check. by case_match.
Qed.

Lemma build_zone_full (name : cell) (zone : list zrow) (tz : thermal_zone) :
  outcome (build_zone catalog load_use_conditions name zone) = Ok tz →
  load_use_conditions (iloc0 UsageType_Teaser zone) = Ok tt.
Proof.
  unfold build_zone. intros H.
  rewrite outcome_bind in H. apply rbind_Ok in H as (? & _ & H).
  rewrite outcome_bind in H. apply rbind_Ok in H as (? & _ & H).
  rewrite outcome_bind in H. apply rbind_Ok in H as (? & _ & H).
  rewrite outcome_bind in H. apply rbind_Ok in H as ([] & Hl & _).
  exact Hl.
Qed.

End build_zone_perm.






Lemma zoning_example_teaser (d : list row) (Z : list zrow) (r : zrow) :
  outcome (zoning_example d) = Ok Z → r ∈ Z → UsageType_Teaser r = Zone r.
Proof.
  intros (D & _ & _ & _ & ->)%zoning_example_spec.
  by intros (r0 & -> & _)%list_elem_of_fmap.
Qed.

Section order_invariance.
Variable catalog : kind → cell → bool.
Variable load_use_conditions : cell → result unit.

End order_invariance.




(** ** Tables on which the import succeeds *)

Lemma rmapM_total {A B} (f : A → result B) (l : list A) :
  (∀ x, x ∈ l → ∃ y, f x = Ok y) → ∃ k, rmapM f l = Ok k.
Proof.
  induction l as [|x l IH]; intros Hf; [by exists []|].
  destruct (Hf x) as [y Hy]; [left|].
  destruct IH as [k Hk]; [intros ??; apply Hf; by right|].
  exists (y :: k). simpl. by rewrite Hy, Hk.
Qed.

Lemma nansum_total (l : list cell) :
  (∀ c, c ∈ l → is_str c = false) → ∃ s, nansum l = Ok s.
Proof.
  induction l as [|c l IH]; intros Hl; [by exists 0|].
  destruct IH as [s Hs]; [intros ??; apply Hl; by right|].
  simpl. rewrite Hs. simpl.
  pose proof (Hl c (list_elem_of_here _ _)) as Hc.
  destruct c; [eauto..|done].
Qed.

Lemma reclassify_total (line : row) :
  numeric_columns line →
  ∃ line', reclassify line = Ok line' ∧ numeric_columns line'.
Proof.
  intros (Hn & Hh & Ho & Hw & Hi). unfold reclassify.
  destruct (isna (WallAdjacentTo line)); simpl.
  - exists line. by repeat split.
  - destruct (OuterWallArea line) as [|a|?], (WindowArea line) as [|b|?],
      (InnerWallArea line) as [|c|?]; try done; simpl;
      eexists; (split; [reflexivity|]); by repeat split.
Qed.

Lemma column_total (f : row → cell) (zone : list zrow) :
  (∀ r, r ∈ zone → is_str (f (base r)) = false) →
  ∃ s, nansum (column f zone) = Ok s.
Proof.
  intros Hz. apply nansum_total. unfold column.
  intros c (r & -> & Hr)%list_elem_of_fmap. by apply Hz.
Qed.

Section import_succeeds.
Variable catalog : kind → cell → bool.
Variable load_use_conditions : cell → result unit.

Lemma for_groups_total {K : Type} `{EqDecision K} (le : relation K)
    `{!RelDecision le} (key : zrow → option K)
    (body : list zrow → M (list element)) (zone : list zrow) :
  (∀ k, k ∈ group_keys le key zone →
     ∃ es, outcome (body (group_of key zone k)) = Ok es) →
  ∃ es, outcome (for_groups le key body zone) = Ok es.
Proof.
  intros Hbody.
  destruct (rmapM_total (λ k, outcome (body (group_of key zone k)))
              (group_keys le key zone) Hbody) as [ess Hess].
  exists (concat ess). apply for_groups_outcome. exists ess.
  split; [by apply rmapM_Ok|done].
Qed.

Lemma warn_constructiontype_outcome (e : element) (group : list zrow) :
  outcome (warn_constructiontype catalog e group) = Ok tt.
Proof. unfold warn_constructiontype. by case_match. Qed.

Lemma build_zone_total (name : cell) (zone : list zrow) :
  (∀ r, r ∈ zone → numeric_columns (base r)) →
  load_use_conditions (iloc0 UsageType_Teaser zone) = Ok tt →
  ∃ tz, outcome (build_zone catalog load_use_conditions name zone) = Ok tz.
Proof.
  intros Hnum Hluc.
  assert (∀ (f : row → cell) {K} `{EqDecision K} (key : zrow → option K) k,
            (∀ r, numeric_columns r → is_str (f r) = false) →
            ∃ s, nansum (column f (group_of key zone k)) = Ok s) as Hsum.
  { intros f K ? key k Hf. apply column_total.
    intros r [Hr _]%elem_of_group_of. by apply Hf, Hnum. }
  destruct (column_total NetArea zone) as [area Harea].
  { intros r Hr. by destruct (Hnum r Hr). }
  destruct (rmapM_total
              (λ r, py_mul (NetArea (base r)) (HeatedRoomHeight (base r)))
              zone) as [volumes Hvolumes].
  { intros r Hr. destruct (Hnum r Hr) as (Hn & Hh & _).
    destruct (NetArea (base r)), (HeatedRoomHeight (base r)); simpl; eauto;
      done. }
  destruct (nansum_total volumes) as [volume Hvolume].
  { intros c [i Hi]%list_elem_of_lookup. apply rmapM_Ok in Hvolumes.
    destruct (Forall2_lookup_r _ _ _ _ _ Hvolumes Hi) as (r & _ & Hr).
    destruct (NetArea (base r)), (HeatedRoomHeight (base r)); simpl in Hr;
      by simplify_eq. }
  assert (∀ k tilt o a c,
            (∀ r, numeric_columns r → is_str (a r) = false) →
            ∃ es, outcome (facades catalog k tilt o a c zone) = Ok es)
    as Hfacades.
  { intros k tilt o a c Ha. apply for_groups_total. intros kk Hkk.
    destruct (is_str kk.1) eqn:Hstr.
    - exists []. by rewrite facade_group_str.
    - destruct (Hsum a _ _ (λ r, present2 (o (base r)) (c (base r))) kk Ha)
        as [s Hs].
      eexists. by apply facade_group_num. }
  assert (∀ full half tilt sentinel flag c,
            ∃ es, outcome (levels catalog full half tilt sentinel flag c
                             zone) = Ok es) as Hlevels.
  { intros full half tilt sentinel flag c.
    apply for_groups_total. intros kk Hkk.
    destruct (Hsum NetArea _ _
                (λ r, present2 (flag (base r)) (c (base r))) kk) as [s Hs].
    { by intros r (? & _). }
    eexists. by apply level_group_outcome. }
  destruct (Hfacades OuterWall out_wall_tilt OuterWallOrientation
              OuterWallArea OuterWallConstruction) as [ow How].
  { by intros r (_ & _ & ? & _). }
  destruct (Hfacades Window window_tilt WindowOrientation WindowArea
              WindowConstruction) as [wi Hwi].
  { by intros r (_ & _ & _ & ? & _). }
  destruct (Hlevels GroundFloor Floor ground_floor_tilt
              ground_floor_orientation IsGroundFloor FloorConstruction)
    as [fl Hfl].
  destruct (Hlevels Rooftop Ceiling rooftop_tilt rooftop_orientation
              IsRooftop CeilingConstruction) as [ce Hce].
  destruct (for_groups_total cell_le
              (λ r, present (InnerWallConstruction (base r)))
              (inner_wall_group catalog) zone) as [iw Hiw].
  { intros c Hc.
    destruct (Hsum InnerWallArea _ _
                (λ r, present (InnerWallConstruction (base r))) c)
      as [s Hs].
    { by intros r (_ & _ & _ & _ & ?). }
    eexists. by apply inner_wall_group_outcome. }
  eexists. by eapply build_zone_intro.
Qed.

(** On a table without strings in its numeric columns, the import succeeds
    as soon as some cluster has a main usage, all resolved usages are
    mapped, and the use conditions of the zones load. *)
Theorem import_succeeds (d : list row) :
  (∀ r, r ∈ d → numeric_columns r) →
  ∃ D, rmapM reclassify d = Ok D ∧
    (has_main D → usages_known D →
     (∀ u, load_use_conditions u = Ok tt) →
     ∃ zones,
       outcome (import_building_from_excel catalog load_use_conditions d)
         = Ok zones).
Proof.
  intros Hnum.
  destruct (rmapM_total reclassify d) as [D HD].
  { intros r Hr. destruct (reclassify_total r (Hnum r Hr)) as (? & ? & _).
    eauto. }
  exists D. split; [done|]. intros Hmain Hknown Hluc.
  assert (outcome (zoning_example d) = Ok (annotate D <$> D)) as HZ.
  { apply zoning_example_spec. by exists D. }
  destruct (rmapM_total
              (λ name, outcome (build_zone catalog load_use_conditions name
                                  (zone_rows (annotate D <$> D) name)))
              (zone_names (annotate D <$> D))) as [zones Hzones].
  { intros name _. apply build_zone_total; [|done].
    intros r [(r0 & -> & Hr0)%list_elem_of_fmap _]%elem_of_group_of. simpl.
    apply rmapM_Ok in HD. apply list_elem_of_lookup in Hr0 as [i Hi].
    destruct (Forall2_lookup_r _ _ _ _ _ HD Hi) as (x & Hx & Hrx).
    destruct (reclassify_total x) as (x' & Hx' & Hnx').
    { eapply Hnum, list_elem_of_lookup_2, Hx. }
    congruence. }
  exists zones. apply import_building_Ok. eexists. split; [exact HZ|].
  by apply rmapM_Ok.
Qed.
End import_succeeds.

(** * Further properties of the code *)

(** ** [get_list_of_present_entries] *)

Lemma present_entries_step_NoDup (acc l : list cell) :
  NoDup acc →
  NoDup (foldl (λ acc x,
                  if negb (existsb (py_eq x) acc) then
                    if negb (isna x) then acc ++ [x] else acc
                  else acc) acc l).
Proof.
  revert acc. induction l as [|x l IH]; intros acc Hacc; [done|].
  simpl. apply IH.
  destruct (existsb (py_eq x) acc) eqn:Hex; simpl; [done|].
  destruct (isna x) eqn:Hx; simpl; [done|].
  apply NoDup_app. split_and!; [done| |apply NoDup_singleton].
  intros y Hy ->%list_elem_of_singleton.
  assert (existsb (py_eq x) acc = true) as Htrue; [|congruence].
  apply existsb_exists. exists x.
  split; [by apply list_elem_of_In|by apply py_eq_refl].
Qed.

Lemma present_entries_step_sublist (acc l : list cell) :
  foldl (λ acc x,
           if negb (existsb (py_eq x) acc) then
             if negb (isna x) then acc ++ [x] else acc
           else acc) acc l `sublist_of` acc ++ l.
Proof.
  revert acc. induction l as [|x l IH]; intros acc; simpl.
  - by rewrite app_nil_r.
  - destruct (existsb (py_eq x) acc); simpl;
      [|destruct (isna x); simpl].
    + etrans; [apply IH|]. apply sublist_app; [done|]. by apply sublist_cons.
    + etrans; [apply IH|]. apply sublist_app; [done|]. by apply sublist_cons.
    + etrans; [apply IH|]. by rewrite <-app_assoc.
Qed.

Lemma present_entries_step_fixed (acc l : list cell) :
  NoDup (acc ++ l) → (∀ x, x ∈ l → isna x = false) →
  foldl (λ acc x,
           if negb (existsb (py_eq x) acc) then
             if negb (isna x) then acc ++ [x] else acc
           else acc) acc l = acc ++ l.
Proof.
  revert acc. induction l as [|x l IH]; intros acc Hnd Hl; simpl.
  - by rewrite app_nil_r.
  - assert (existsb (py_eq x) acc = false) as ->.
    { destruct (existsb (py_eq x) acc) eqn:Hex; [|done].
      apply existsb_exists in Hex as (y & Hy%list_elem_of_In & Hxy).
      apply py_eq_true in Hxy as [<- _].
      apply NoDup_app in Hnd as (_ & Hdisj & _).
      destruct (Hdisj x Hy). left. }
    rewrite (Hl x) by left. simpl.
    rewrite IH; [by rewrite <-app_assoc|by rewrite <-app_assoc|].
    intros y Hy. apply Hl. by right.
Qed.

(** Property X1.  [get_list_of_present_entries] returns the entries of its
    argument that are not missing, each exactly once and in the order of the
    argument; applied to its own result it changes nothing. *)
Theorem present_entries_are_distinct (list_ : list cell) :
  NoDup (get_list_of_present_entries list_) ∧
  (∀ x, x ∈ get_list_of_present_entries list_ ↔
        x ∈ list_ ∧ isna x = false) ∧
  get_list_of_present_entries list_ `sublist_of` list_ ∧
  get_list_of_present_entries (get_list_of_present_entries list_)
    = get_list_of_present_entries list_.
Proof.
  assert (NoDup (get_list_of_present_entries list_)) as Hnd.
  { apply present_entries_step_NoDup. constructor. }
  split_and!; [done|apply elem_of_present_entries| |].
  - apply (present_entries_step_sublist [] list_).
  - unfold get_list_of_present_entries at 1.
    rewrite present_entries_step_fixed; [done|done|].
    by intros x [_ ?]%elem_of_present_entries.
Qed.

(** ** Zoning: what is kept and what is added *)

Lemma reclassify_untouched (line line' : row) :
  reclassify line = Ok line' →
  idx line' = idx line ∧
  RoomIdentifier line' = RoomIdentifier line ∧
  BelongsToIdentifier line' = BelongsToIdentifier line ∧
  UsageType line' = UsageType line ∧
  NetArea line' = NetArea line ∧
  HeatedRoomHeight line' = HeatedRoomHeight line ∧
  WallAdjacentTo line' = WallAdjacentTo line ∧
  IsGroundFloor line' = IsGroundFloor line ∧
  FloorConstruction line' = FloorConstruction line ∧
  IsRooftop line' = IsRooftop line ∧
  CeilingConstruction line' = CeilingConstruction line ∧
  InnerWallConstruction line' = InnerWallConstruction line.
Proof.
  unfold reclassify. destruct (isna (WallAdjacentTo line)); simpl.
  - by intros [= ->].
  - intros (s & _ & (a & _ & [= <-])%rbind_Ok)%rbind_Ok. done.
Qed.

Lemma reclassify_keys (line line' : row) :
  reclassify line = Ok line' →
  cluster_key line' = cluster_key line ∧ is_main line' = is_main line ∧
  UsageType line' = UsageType line.
Proof.
  intros (_ & Hr & Hb & Hu & _)%reclassify_untouched.
  unfold cluster_key, is_main. by rewrite Hr, Hb, Hu.
Qed.

Lemma has_main_reclassified (d D : list row) :
  rmapM reclassify d = Ok D → has_main D ↔ has_main d.
Proof.
  intros HD%rmapM_Ok. unfold has_main. rewrite !Exists_exists. split.
  - intros (r' & [i Hi]%list_elem_of_lookup & Hm & Hk).
    destruct (Forall2_lookup_r _ _ _ _ _ HD Hi) as (r & Hr & Hrr').
    apply reclassify_keys in Hrr' as (Hk' & Hm' & _).
    exists r. rewrite <-Hk', <-Hm'.
    split; [by eapply list_elem_of_lookup_2|done].
  - intros (r & [i Hi]%list_elem_of_lookup & Hm & Hk).
    destruct (Forall2_lookup_l _ _ _ _ _ HD Hi) as (r' & Hr' & Hrr').
    apply reclassify_keys in Hrr' as (Hk' & Hm' & _).
    exists r'. rewrite Hk', Hm'.
    split; [by eapply list_elem_of_lookup_2|done].
Qed.

(** Property X2.  A table in which no line declares a room with a usage
    (no back-reference, a usage, a room identifier), the empty table
    included, cannot be zoned: the column [RoomClusterUsage] is never
    created, reading it raises [KeyError], and the import is aborted with
    that error. *)
Theorem no_main_usage_aborts_import (catalog : kind → cell → bool)
    (load_use_conditions : cell → result unit) (d D : list row) :
  rmapM reclassify d = Ok D →
  ¬ has_main d →
  outcome (zoning_example d) = Raise (KeyError (Str "RoomClusterUsage")) ∧
  outcome (import_building_from_excel catalog load_use_conditions d)
    = Raise (KeyError (Str "RoomClusterUsage")).
Proof.
  intros HD Hmain.
  assert (outcome (zoning_example d)
          = Raise (KeyError (Str "RoomClusterUsage"))) as Hz.
  { rewrite (zoning_example_outcome d D HD).
    case_decide as HmD; [|done].
    by apply (has_main_reclassified d D HD) in HmD. }
  split; [done|].
  unfold import_building_from_excel. by rewrite outcome_bind, Hz.
Qed.

Lemma no_main_usage_aborts_import_witness :
  rmapM reclassify walls_only_table = Ok walls_only_table ∧
  ¬ has_main walls_only_table ∧
  outcome (zoning_example walls_only_table)
    = Raise (KeyError (Str "RoomClusterUsage")) ∧
  outcome (import_building_from_excel (λ _ _, true) (λ _, Ok tt)
             walls_only_table)
    = Raise (KeyError (Str "RoomClusterUsage")) ∧
  outcome (zoning_example []) = Raise (KeyError (Str "RoomClusterUsage")).
Proof.
  assert (¬ has_main walls_only_table) as Hno by by_decide.
  split; [reflexivity|]. split; [exact Hno|].
  destruct (no_main_usage_aborts_import (λ _ _, true) (λ _, Ok tt)
              walls_only_table walls_only_table eq_refl Hno) as [H1 H2].
  split; [exact H1|]. split; [exact H2|].
  apply (no_main_usage_aborts_import (λ _ _, true) (λ _, Ok tt) [] []
           eq_refl).
  by_decide.
Defined.

(** ** The labels of the zones *)

Lemma usage_to_json_usage_values (s v : string) :
  usage_to_json_usage !! s = Some v → v ∈ teaser_usages.
Proof.
  intros H%elem_of_list_to_map_2.
  repeat (apply elem_of_cons in H as [H|H];
          [injection H as _ ->; by_decide|]).
  by apply elem_of_nil in H.
Qed.

Lemma teaser_usages_nonempty (v : string) :
  v ∈ teaser_usages → v ≠ EmptyString.
Proof.
  unfold teaser_usages. intros H ->.
  repeat (apply elem_of_cons in H as [[=]|H]).
  by apply elem_of_nil in H.
Qed.

Lemma teaser_of_spec (u : cell) :
  isna u = false →
  (∃ v, dict_get usage_to_json_usage u = Ok v) →
  ∃ s v, u = Str s ∧ usage_to_json_usage !! s = Some v ∧
         teaser_of u = Str v ∧ v ∈ teaser_usages.
Proof.
  intros Hu [v Hv]. unfold teaser_of. rewrite Hv.
  destruct u as [|q|s]; simpl in Hv; [done..|].
  destruct (usage_to_json_usage !! s) as [v'|] eqn:Hs; [|done].
  injection Hv as ->. exists s, v. split_and!; [done..|].
  by eapply usage_to_json_usage_values.
Qed.

(** Property X4.  In a zoned table [Zone] is [UsageType_Teaser]; it is the
    empty string for the rows whose cluster has no usage, and for the others
    the entry of the mapping for the usage of the cluster, which is one of
    the six usages of [teaser_usages] and not empty. *)
Theorem zone_labels_are_teaser_usages (d : list row) (Z : list zrow)
    (z : zrow) :
  outcome (zoning_example d) = Ok Z → z ∈ Z →
  Zone z = UsageType_Teaser z ∧
  (isna (RoomClusterUsage z) = true → Zone z = Str EmptyString) ∧
  (isna (RoomClusterUsage z) = false →
     ∃ s v, RoomClusterUsage z = Str s ∧
            usage_to_json_usage !! s = Some v ∧
            Zone z = Str v ∧ v ∈ teaser_usages ∧ v ≠ EmptyString).
Proof.
  intros (D & HD & _ & Hknown & ->)%zoning_example_spec
    (r & -> & Hr)%list_elem_of_fmap. simpl.
  split; [done|]. split; [apply teaser_of_nan|].
  intros Hu.
  destruct (teaser_of_spec _ Hu (Hknown r Hr Hu)) as (s & v & ? & ? & ? & ?).
  exists s, v. split_and!; [done..|]. by apply teaser_usages_nonempty.
Qed.

Lemma zone_labels_are_teaser_usages_witness :
  ∃ Z z, outcome (zoning_example ambiguous_usage_table) = Ok Z ∧
    z ∈ Z ∧ RoomClusterUsage z = Str "WC" ∧
    Zone z = UsageType_Teaser z ∧
    (isna (RoomClusterUsage z) = true → Zone z = Str EmptyString) ∧
    (isna (RoomClusterUsage z) = false →
       ∃ s v, RoomClusterUsage z = Str s ∧
              usage_to_json_usage !! s = Some v ∧
              Zone z = Str v ∧ v ∈ teaser_usages ∧ v ≠ EmptyString).
Proof.
  eexists _, _.
  split; [vm_compute; reflexivity|]. split; [left|].
  split; [reflexivity|].
  eapply (zone_labels_are_teaser_usages ambiguous_usage_table);
    [vm_compute; reflexivity|left].
Defined.

(** Property X5.  On a table with pairwise distinct row labels zoning
    never splits a cluster: two rows of the zoned table with the same
    [RoomCluster] have the same [RoomClusterUsage] and the same [Zone].
    (With a repeated label the assignment by label can split a cluster,
    see [repeated_labels_split_a_cluster].) *)
Theorem clusters_are_not_split (d : list row) (Z : list zrow)
    (z1 z2 : zrow) :
  NoDup (idx <$> d) →
  outcome (zoning_example d) = Ok Z → z1 ∈ Z → z2 ∈ Z →
  RoomCluster z1 = RoomCluster z2 →
  RoomClusterUsage z1 = RoomClusterUsage z2 ∧ Zone z1 = Zone z2.
Proof.
  intros _ (D & HD & _ & _ & ->)%zoning_example_spec
    (r1 & -> & Hr1)%list_elem_of_fmap (r2 & -> & Hr2)%list_elem_of_fmap.
  simpl. intros Hk. unfold cluster_usage. by rewrite Hk.
Qed.

Lemma clusters_are_not_split_witness :
  ∃ Z z1 z2, NoDup (idx <$> envelope_table) ∧
    outcome (zoning_example envelope_table) = Ok Z ∧
    z1 ∈ Z ∧ z2 ∈ Z ∧ idx (base z1) = num 0 ∧ idx (base z2) = num 1 ∧
    RoomCluster z1 = RoomCluster z2 ∧
    RoomClusterUsage z1 = RoomClusterUsage z2 ∧ Zone z1 = Zone z2.
Proof.
  eexists _, _, _.
  split; [by_decide|].
  split; [vm_compute; reflexivity|].
  split; [left|]. split; [right; left|].
  split; [reflexivity|]. split; [reflexivity|]. split; [reflexivity|].
  eapply (clusters_are_not_split envelope_table);
    [by_decide|vm_compute; reflexivity|left|right; left|reflexivity].
Defined.

(** ** The diagnostic on the net area *)

Lemma net_area_warning_spec (r : row) (w : warning) :
  w ∈ net_area_warning r ↔
  w = WNetAreaZero (idx r) ∧ NetArea r = num 0 ∧ isna (UsageType r) = false.
Proof.
  unfold net_area_warning, net_area_check.
  rewrite py_eq_nan_r, orb_false_r, py_eq_num.
  case_bool_decide as Hn; simpl.
  - destruct (isna (UsageType r)); simpl.
    + rewrite elem_of_nil. intuition congruence.
    + rewrite list_elem_of_singleton. intuition congruence.
  - rewrite elem_of_nil. intuition congruence.
Qed.

(** Property X6.  The diagnostic on the net area is exact.  When the
    reclassification raises nothing, the log of [zoning_example] holds the
    diagnostic for label [i] if and only if some row of the input with that
    label has the net area 0 and a usage, whether zoning then succeeds or
    raises. *)
Theorem net_area_diagnostics_exact (d D : list row) (i : cell) :
  rmapM reclassify d = Ok D →
  WNetAreaZero i ∈ log (zoning_example d) ↔
  ∃ r, r ∈ d ∧ idx r = i ∧ NetArea r = num 0 ∧ isna (UsageType r) = false.
Proof.
  intros HD. rewrite (zoning_example_log d D HD), elem_of_app, !elem_of_concat.
  apply rmapM_Ok in HD. split.
  - intros [(ws & (r' & -> & [j Hj]%list_elem_of_lookup)%list_elem_of_fmap
                & Hw%net_area_warning_spec)
           |(ws & (g & -> & _)%list_elem_of_fmap & Hw)].
    + destruct Hw as ([= ->] & Hn & Hu).
      destruct (Forall2_lookup_r _ _ _ _ _ HD Hj) as (r & Hr & Hrr').
      apply reclassify_untouched in Hrr' as (Hi & _ & _ & Hu' & Hn' & _).
      exists r. rewrite <-Hi, <-Hu', <-Hn'.
      split; [by eapply list_elem_of_lookup_2|done].
    + unfold main_usage_warning in Hw. case_bool_decide;
        [apply list_elem_of_singleton in Hw|apply elem_of_nil in Hw]; done.
  - intros (r & [j Hj]%list_elem_of_lookup & <- & Hn & Hu).
    destruct (Forall2_lookup_l _ _ _ _ _ HD Hj) as (r' & Hr' & Hrr').
    apply reclassify_untouched in Hrr' as (Hi & _ & _ & Hu' & Hn' & _).
    left. exists (net_area_warning r'). split.
    + apply list_elem_of_fmap_2. by eapply list_elem_of_lookup_2.
    + apply net_area_warning_spec. rewrite Hi, Hn', Hu'. done.
Qed.

Lemma net_area_diagnostics_exact_witness :
  rmapM reclassify envelope_table = Ok envelope_table ∧
  (WNetAreaZero (num 4) ∈ log (zoning_example envelope_table) ↔
   ∃ r, r ∈ envelope_table ∧ idx r = num 4 ∧ NetArea r = num 0 ∧
        isna (UsageType r) = false).
Proof.
  split; [reflexivity|].
  apply (net_area_diagnostics_exact envelope_table envelope_table (num 4)).
  reflexivity.
Defined.

(** ** The zones of a run *)

Lemma groups_partition {A K : Type} `{EqDecision K} (key : A → option K)
    (ks : list K) (l : list A) :
  NoDup ks →
  (∀ r, r ∈ l → ∃ k, k ∈ ks ∧ key r = Some k) →
  concat (group_of key l <$> ks) ≡ₚ l.
Proof.
  intros Hnd. revert l.
  induction Hnd as [|k ks Hk Hnd IH]; intros l Hl.
  - destruct l as [|r l]; [done|].
    destruct (Hl r) as (k & Hk & _); [left|]. by apply elem_of_nil in Hk.
  - rewrite fmap_cons. cbn [concat].
    rewrite <-(filter_app_complement (λ r, key r = Some k) l) at 3.
    apply Permutation_app; [done|].
    assert (group_of key l <$> ks
            = group_of key (filter (λ r, key r ≠ Some k) l) <$> ks) as ->.
    { apply list_fmap_ext. intros i k' Hk'.
      apply list_elem_of_lookup_2 in Hk'. unfold group_of.
      rewrite list_filter_filter. apply list_filter_iff.
      intros r. split; [|by intros [? _]]. intros Hr. split; [done|].
      intros Hrk. rewrite Hr in Hrk. injection Hrk as ->. done. }
    apply IH. intros r [Hrk Hr]%list_elem_of_filter.
    destruct (Hl r Hr) as (k' & [->|Hk']%elem_of_cons & Hkey); [done|].
    eauto.
Qed.

Lemma Zone_present (d : list row) (Z : list zrow) (z : zrow) :
  outcome (zoning_example d) = Ok Z → z ∈ Z →
  isna (Zone z) = false ∧ Zone z ∈ zone_names Z ∧ Zone z ∈ zone_labels.
Proof.
  intros (D & HD & _ & Hknown & ->)%zoning_example_spec
    (r & -> & Hr)%list_elem_of_fmap.
  assert (isna (Zone (annotate D r)) = false ∧
          Zone (annotate D r) ∈ zone_labels) as [Hna Hlab].
  { simpl. destruct (isna (cluster_usage D r)) eqn:Hu.
    - rewrite teaser_of_nan by done. split; [done|left].
    - destruct (teaser_of_spec _ Hu (Hknown r Hr Hu))
        as (s & v & _ & _ & -> & Hv).
      split; [done|]. right. by apply list_elem_of_fmap_2. }
  split_and!; [done| |done].
  apply elem_of_group_keys. exists (annotate D r).
  split; [by apply list_elem_of_fmap_2|]. by apply present_Some.
Qed.

Lemma zones_names (catalog : kind → cell → bool)
    (load_use_conditions : cell → result unit)
    (Z : list zrow) (zones : list thermal_zone) :
  Forall2 (λ name tz,
      outcome (build_zone catalog load_use_conditions name
                 (zone_rows Z name)) = Ok tz)
    (zone_names Z) zones →
  tz_name <$> zones = zone_names Z.
Proof.
  generalize (zone_names Z) as names. intros names H.
  induction H as [|name tz names zones H _ IH]; [done|].
  rewrite fmap_cons, IH. f_equal. by apply build_zone_Ok in H as [? _].
Qed.

(** Property X7.  The zones of a successful run have pairwise distinct
    names, which are the [Zone] labels that occur in the zoned table; each
    is the empty string or one of the six usages of the catalog, so that a
    run creates at most seven zones. *)
Theorem zones_of_a_run (catalog : kind → cell → bool)
    (load_use_conditions : cell → result unit)
    (d : list row) (Z : list zrow) (zones : list thermal_zone) :
  outcome (import_building_from_excel catalog load_use_conditions d)
    = Ok zones →
  outcome (zoning_example d) = Ok Z →
  NoDup (tz_name <$> zones) ∧
  (∀ name, name ∈ tz_name <$> zones ↔ ∃ z, z ∈ Z ∧ Zone z = name) ∧
  (∀ name, name ∈ tz_name <$> zones → name ∈ zone_labels) ∧
  (length zones ≤ 7)%nat.
Proof.
  intros (Z' & HZ' & Hzones)%import_building_Ok HZ.
  assert (Z' = Z) as -> by congruence.
  rewrite (zones_names _ _ _ _ Hzones).
  assert (∀ name, name ∈ zone_names Z ↔ ∃ z, z ∈ Z ∧ Zone z = name)
    as Hnames.
  { intros name. unfold zone_names. rewrite elem_of_group_keys. split.
    - intros (z & Hz & [? _]%present_Some). eauto.
    - intros (z & Hz & <-). exists z. split; [done|]. apply present_Some.
      split; [done|]. by destruct (Zone_present d Z z HZ Hz). }
  assert (∀ name, name ∈ zone_names Z → name ∈ zone_labels) as Hlabels.
  { intros name (z & Hz & <-)%Hnames.
    by destruct (Zone_present d Z z HZ Hz) as (_ & _ & ?). }
  split_and!; [apply NoDup_group_keys|done|done|].
  rewrite <-(length_fmap tz_name), (zones_names _ _ _ _ Hzones).
  change 7%nat with (length zone_labels).
  apply submseteq_length, NoDup_submseteq; [apply NoDup_group_keys|done].
Qed.

Lemma zones_of_a_run_witness :
  ∃ Z zones,
    outcome (import_building_from_excel (λ _ _, true) (λ _, Ok tt)
               ambiguous_usage_table) = Ok zones ∧
    outcome (zoning_example ambiguous_usage_table) = Ok Z ∧
    tz_name <$> zones
      = [Str EmptyString;
         Str "WC and sanitary rooms in non-residential buildings"] ∧
    NoDup (tz_name <$> zones) ∧
    (∀ name, name ∈ tz_name <$> zones ↔ ∃ z, z ∈ Z ∧ Zone z = name) ∧
    (∀ name, name ∈ tz_name <$> zones → name ∈ zone_labels) ∧
    (length zones ≤ 7)%nat.
Proof.
  eexists _, _.
  split; [vm_compute; reflexivity|].
  split; [vm_compute; reflexivity|].
  split; [reflexivity|].
  apply (zones_of_a_run (λ _ _, true) (λ _, Ok tt) ambiguous_usage_table);
    vm_compute; reflexivity.
Defined.

(** ** The rows of the zones *)

(** Property X8.  No row is lost and none is counted twice when the zones
    are formed: in a successful run the rows of the zones, taken together,
    are the rows of the zoned table (up to their order), and the area and
    the volume of each zone are the [nansum] over its own rows, of
    [NetArea] and of the products of [NetArea] and [HeatedRoomHeight]. *)
Theorem zones_partition_the_rows (catalog : kind → cell → bool)
    (load_use_conditions : cell → result unit)
    (d : list row) (Z : list zrow) (zones : list thermal_zone) :
  outcome (import_building_from_excel catalog load_use_conditions d)
    = Ok zones →
  outcome (zoning_example d) = Ok Z →
  concat (zone_rows Z <$> (tz_name <$> zones)) ≡ₚ Z ∧
  Forall (λ tz,
      nansum (column NetArea (zone_rows Z (tz_name tz))) = Ok (tz_area tz) ∧
      ∃ volumes,
        rmapM (λ r, py_mul (NetArea (base r)) (HeatedRoomHeight (base r)))
          (zone_rows Z (tz_name tz)) = Ok volumes ∧
        nansum volumes = Ok (tz_volume tz))
    zones.
Proof.
  intros (Z' & HZ' & Hzones)%import_building_Ok HZ.
  assert (Z' = Z) as -> by congruence. split.
  - rewrite (zones_names _ _ _ _ Hzones).
    apply groups_partition; [apply NoDup_group_keys|].
    intros z Hz. destruct (Zone_present d Z z HZ Hz) as (Hna & Hin & _).
    exists (Zone z). split; [done|]. by apply present_Some.
  - apply Forall_forall. intros tz [i Hi]%list_elem_of_lookup.
    destruct (Forall2_lookup_r _ _ _ _ _ Hzones Hi) as (name & _ & Hb).
    apply build_zone_Ok in Hb as (<- & Harea & Hvol & _). done.
Qed.

Lemma zones_partition_the_rows_witness :
  ∃ Z zones,
    outcome (import_building_from_excel (λ _ _, true) (λ _, Ok tt)
               ambiguous_usage_table) = Ok zones ∧
    outcome (zoning_example ambiguous_usage_table) = Ok Z ∧
    (λ tz, (idx ∘ base) <$> zone_rows Z (tz_name tz)) <$> zones
      = [[num 2]; [num 0; num 1]] ∧
    concat (zone_rows Z <$> (tz_name <$> zones)) ≡ₚ Z ∧
    Forall (λ tz,
        nansum (column NetArea (zone_rows Z (tz_name tz)))
          = Ok (tz_area tz) ∧
        ∃ volumes,
          rmapM (λ r, py_mul (NetArea (base r)) (HeatedRoomHeight (base r)))
            (zone_rows Z (tz_name tz)) = Ok volumes ∧
          nansum volumes = Ok (tz_volume tz))
      zones.
Proof.
  eexists _, _.
  split; [vm_compute; reflexivity|].
  split; [vm_compute; reflexivity|].
  split; [by_decide|].
  apply (zones_partition_the_rows (λ _ _, true) (λ _, Ok tt)
           ambiguous_usage_table); vm_compute; reflexivity.
Defined.

(** ** The elements of a zone *)

Lemma Qc_half_nonzero (s : Qc) : s ≠ 0 → s / Qc_of_Z 2 ≠ 0.
Proof.
  intros Hs H. apply Hs. rewrite <-(Qc_half_twice s), H. by_decide.
Qed.

Lemma group_key_present2 (f g : row → cell) (zone : list zrow)
    (kk : cell * cell) :
  kk ∈ group_keys pair_le (λ r, present2 (f (base r)) (g (base r))) zone →
  isna kk.1 = false ∧ isna kk.2 = false.
Proof.
  intros (r & _ & (<- & <- & ? & ?)%present2_Some)%elem_of_group_keys. done.
Qed.

Lemma group_key_present (f : row → cell) (zone : list zrow) (c : cell) :
  c ∈ group_keys cell_le (λ r, present (f (base r))) zone →
  isna c = false.
Proof.
  intros (r & _ & (<- & ?)%present_Some)%elem_of_group_keys. done.
Qed.

Lemma for_groups_Forall {K : Type} `{EqDecision K} (le : relation K)
    `{!RelDecision le} (key : zrow → option K)
    (body : list zrow → M (list element)) (zone : list zrow)
    (es : list element) (P : element → Prop) :
  outcome (for_groups le key body zone) = Ok es →
  (∀ k es_k, k ∈ group_keys le key zone →
     outcome (body (group_of key zone k)) = Ok es_k → Forall P es_k) →
  Forall P es.
Proof.
  intros (ess & Hess & ->)%for_groups_outcome HP.
  apply Forall_forall. intros e He.
  destruct (elem_of_concat_groups_inv _ _ _ _ Hess He)
    as (k & es_k & Hk & Hes & Hin).
  pose proof (HP k es_k Hk Hes) as HF.
  rewrite Forall_forall in HF. auto.
Qed.

Lemma for_groups_elem {K : Type} `{EqDecision K} (le : relation K)
    `{!RelDecision le} (key : zrow → option K)
    (body : list zrow → M (list element)) (zone : list zrow)
    (es : list element) (e : element) :
  outcome (for_groups le key body zone) = Ok es →
  e ∈ es ↔
  ∃ k es_k, k ∈ group_keys le key zone ∧
    outcome (body (group_of key zone k)) = Ok es_k ∧ e ∈ es_k.
Proof.
  intros (ess & Hess & ->)%for_groups_outcome. split.
  - intros He. by apply (elem_of_concat_groups_inv _ _ _ _ Hess He).
  - intros (k & es_k & [i Hi]%list_elem_of_lookup & Hes & Hin).
    destruct (Forall2_lookup_l _ _ _ _ _ Hess Hi) as (es' & Hes' & Hk).
    cbv beta in Hk. assert (es' = es_k) as -> by congruence.
    apply elem_of_concat. exists es_k.
    split; [by eapply list_elem_of_lookup_2|done].
Qed.

Section element_facts.
Variable catalog : kind → cell → bool.
Variable load_use_conditions : cell → result unit.

Lemma facades_elements (k : kind) (tilt : Qc)
    (orientation area construction : row → cell) (zone : list zrow)
    (es : list element) :
  outcome (facades catalog k tilt orientation area construction zone)
    = Ok es →
  Forall (facade_element k tilt) es.
Proof.
  intros Hes. eapply for_groups_Forall; [exact Hes|].
  intros kk es_k Hkk Hk. cbv beta in Hk.
  destruct (group_key_present2 _ _ _ _ Hkk) as [Hna1 Hna2].
  destruct (is_str kk.1) eqn:Hstr.
  - rewrite facade_group_str in Hk by done. injection Hk as <-. constructor.
  - pose proof Hk as Hk'. unfold facade_group in Hk'.
    destruct (group_iloc0 orientation construction zone kk Hkk) as [Ho Hc].
    rewrite Ho, Hstr in Hk'. cbn [negb] in Hk'.
    rewrite outcome_bind in Hk'. apply rbind_Ok in Hk' as (s & Hs & _).
    rewrite (facade_group_num catalog k tilt orientation area construction
               zone kk s) in Hk by done.
    injection Hk as <-. case_bool_decide; [|constructor].
    apply Forall_singleton. unfold facade_element. simpl.
    split_and!; [done..| |done].
    destruct kk.1; [done| |done]. eauto.
Qed.

Lemma levels_elements (full half : kind) (tilt : Qc) (sentinel : cell)
    (flag construction : row → cell) (zone : list zrow)
    (es : list element) :
  outcome (levels catalog full half tilt sentinel flag construction zone)
    = Ok es →
  Forall (level_element full half tilt sentinel) es.
Proof.
  intros Hes. eapply for_groups_Forall; [exact Hes|].
  intros kk es_k Hkk Hk. cbv beta in Hk.
  destruct (group_key_present2 _ _ _ _ Hkk) as [Hna1 Hna2].
  pose proof Hk as Hk'. unfold level_group in Hk'.
  rewrite outcome_bind, outcome_lift in Hk'.
  apply rbind_Ok in Hk' as (s & Hs & _).
  rewrite (level_group_outcome catalog full half tilt sentinel flag
             construction zone kk s Hkk Hs) in Hk.
  injection Hk as <-. unfold level_element.
  repeat case_bool_decide; try (by constructor); apply Forall_singleton; simpl.
  - split_and!; [by left|done..].
  - split_and!; [by right|by apply Qc_half_nonzero|done..].
Qed.

Lemma inner_walls_elements (zone : list zrow) (es : list element) :
  outcome (inner_walls catalog zone) = Ok es →
  Forall inner_wall_element es.
Proof.
  intros Hes. eapply for_groups_Forall; [exact Hes|].
  intros c es_k Hc Hk. cbv beta in Hk.
  pose proof (group_key_present _ _ _ Hc) as Hna.
  pose proof Hk as Hk'. unfold inner_wall_group in Hk'.
  rewrite outcome_bind, outcome_lift in Hk'.
  apply rbind_Ok in Hk' as (s & Hs & _).
  rewrite (inner_wall_group_outcome catalog zone c s Hc Hs) in Hk.
  injection Hk as <-. unfold inner_wall_element.
  case_bool_decide; [|constructor]. apply Forall_singleton. simpl.
  split_and!; [done|by apply Qc_half_nonzero|done..].
Qed.

Lemma import_building_zone_inv (d : list row) (Z : list zrow)
    (zones : list thermal_zone) (tz : thermal_zone) :
  outcome (import_building_from_excel catalog load_use_conditions d)
    = Ok zones →
  outcome (zoning_example d) = Ok Z →
  tz ∈ zones →
  tz_name tz ∈ zone_names Z ∧
  outcome (build_zone catalog load_use_conditions (tz_name tz)
             (zone_rows Z (tz_name tz))) = Ok tz.
Proof.
  intros (Z' & HZ' & Hzones)%import_building_Ok HZ [i Hi]%list_elem_of_lookup.
  assert (Z' = Z) as -> by congruence.
  destruct (Forall2_lookup_r _ _ _ _ _ Hzones Hi) as (name & Hname & Hb).
  pose proof Hb as [<- _]%build_zone_Ok.
  split; [by eapply list_elem_of_lookup_2|done].
Qed.

(** Property X9.  Every outer wall and every window of every zone of a
    successful run has the kind of its loop, a positive area, the tilt 90,
    a number for orientation and a construction that is not missing. *)
Theorem facade_elements_of_a_zone (d : list row)
    (zones : list thermal_zone) (tz : thermal_zone) :
  outcome (import_building_from_excel catalog load_use_conditions d)
    = Ok zones →
  tz ∈ zones →
  Forall (facade_element OuterWall out_wall_tilt) (tz_outer_walls tz) ∧
  Forall (facade_element Window window_tilt) (tz_windows tz).
Proof.
  intros Hok Htz.
  pose proof Hok as (Z & HZ & _)%import_building_Ok.
  destruct (import_building_zone_inv d Z zones tz Hok HZ Htz) as [_ Hb].
  apply build_zone_Ok in Hb as (_ & _ & _ & How & Hwi & _).
  split; by eapply facades_elements.
Qed.

(** Property X10.  Every element of the floor loop of every zone of a
    successful run is a ground floor or a floor with tilt 0 and orientation
    -2, every element of the ceiling loop a rooftop or a ceiling with tilt
    0 and orientation -1, and every inner wall has neither tilt nor
    orientation; all of them have an area other than 0 and a construction
    that is not missing. *)
Theorem level_elements_of_a_zone (d : list row)
    (zones : list thermal_zone) (tz : thermal_zone) :
  outcome (import_building_from_excel catalog load_use_conditions d)
    = Ok zones →
  tz ∈ zones →
  Forall (level_element GroundFloor Floor ground_floor_tilt
            ground_floor_orientation) (tz_floors tz) ∧
  Forall (level_element Rooftop Ceiling rooftop_tilt rooftop_orientation)
    (tz_ceilings tz) ∧
  Forall inner_wall_element (tz_inner_walls tz).
Proof.
  intros Hok Htz.
  pose proof Hok as (Z & HZ & _)%import_building_Ok.
  destruct (import_building_zone_inv d Z zones tz Hok HZ Htz) as [_ Hb].
  apply build_zone_Ok in Hb as (_ & _ & _ & _ & _ & Hfl & Hce & Hiw & _).
  split_and!;
    [by eapply levels_elements..|by eapply inner_walls_elements].
Qed.
End element_facts.

Lemma facade_elements_of_a_zone_witness :
  ∃ zones tz,
    outcome (import_building_from_excel (λ _ _, true) (λ _, Ok tt)
               envelope_table) = Ok zones ∧
    tz ∈ zones ∧ length (tz_outer_walls tz) = 1%nat ∧
    length (tz_windows tz) = 1%nat ∧
    Forall (facade_element OuterWall out_wall_tilt) (tz_outer_walls tz) ∧
    Forall (facade_element Window window_tilt) (tz_windows tz).
Proof.
  eexists _, _.
  split; [vm_compute; reflexivity|]. split; [left|].
  split; [reflexivity|]. split; [reflexivity|].
  eapply (facade_elements_of_a_zone (λ _ _, true) (λ _, Ok tt)
            envelope_table); [vm_compute; reflexivity|left].
Defined.

Lemma level_elements_of_a_zone_witness :
  ∃ zones tz,
    outcome (import_building_from_excel (λ _ _, true) (λ _, Ok tt)
               envelope_table) = Ok zones ∧
    tz ∈ zones ∧ length (tz_floors tz) = 1%nat ∧
    length (tz_ceilings tz) = 2%nat ∧ length (tz_inner_walls tz) = 1%nat ∧
    Forall (level_element GroundFloor Floor ground_floor_tilt
              ground_floor_orientation) (tz_floors tz) ∧
    Forall (level_element Rooftop Ceiling rooftop_tilt rooftop_orientation)
      (tz_ceilings tz) ∧
    Forall inner_wall_element (tz_inner_walls tz).
Proof.
  eexists _, _.
  split; [vm_compute; reflexivity|]. split; [left|].
  split; [reflexivity|]. split; [reflexivity|]. split; [reflexivity|].
  eapply (level_elements_of_a_zone (λ _ _, true) (λ _, Ok tt)
            envelope_table); [vm_compute; reflexivity|left].
Defined.

(** The sign of the summed net area is not looked at: a negative sum gives
    a ground floor of that area and a ceiling of half of it. *)
Example negative_areas_are_accepted :
  ∃ tz,
    outcome (import_building_from_excel (λ _ _, true) (λ _, Ok tt)
               [level_row 0 (Str "R1") (num (-6)) (num 1) "Concrete"
                  (num 0) "Concrete" (num 0)]) = Ok [tz] ∧
    (λ e, (e_kind e, e_area e)) <$> tz_floors tz
      = [(GroundFloor, Qc_of_Z (-6))] ∧
    (λ e, (e_kind e, e_area e)) <$> tz_ceilings tz
      = [(Ceiling, Qc_of_Z (-3))].
Proof.
  eexists. split; [vm_compute; reflexivity|]. split; by_decide.
Qed.

(** ** The diagnostics on constructions *)

Section construction_facts.
Variable catalog : kind → cell → bool.
Variable load_use_conditions : cell → result unit.

Ltac body_cases :=
  unfold warn_constructiontype, construction_warning, bind, lift, ret, warn,
    outcome, log;
  intros group es w;
  repeat (first [case_bool_decide | case_match]; simplify_eq/=; try done);
  intros [= <-] Hw;
  (split;
   [ intros Hin;
     repeat (apply elem_of_cons in Hin as [Hin|Hin];
             [subst w; simpl in Hw|]);
     first [ by apply elem_of_nil in Hin
           | discriminate Hw
           | by eexists; split; [left|] ]
   | intros (e & He & Hc & ->);
     repeat (apply elem_of_cons in He as [He|He];
             [subst e; simpl in Hc|]);
     first [ by apply elem_of_nil in He | congruence | by left ] ]).

Lemma facade_group_reports (k : kind) (tilt : Qc)
    (orientation area construction : row → cell) :
  reports_constructions catalog
    (facade_group catalog k tilt orientation area construction).
Proof. unfold reports_constructions, facade_group. body_cases. Qed.

Lemma level_group_reports (full half : kind) (tilt : Qc) (sentinel : cell)
    (flag construction : row → cell) :
  reports_constructions catalog
    (level_group catalog full half tilt sentinel flag construction).
Proof. unfold reports_constructions, level_group. body_cases. Qed.

Lemma inner_wall_group_reports :
  reports_constructions catalog (inner_wall_group catalog).
Proof. unfold reports_constructions, inner_wall_group. body_cases. Qed.

Lemma for_groups_reported {K : Type} `{EqDecision K} (le : relation K)
    `{!RelDecision le} (key : zrow → option K)
    (body : list zrow → M (list element)) (zone : list zrow)
    (es : list element) (e : element) :
  reports_constructions catalog body →
  outcome (for_groups le key body zone) = Ok es →
  e ∈ es → catalog (e_kind e) (e_construction e) = false →
  ∃ k, k ∈ group_keys le key zone ∧
    construction_warning (group_of key zone k) e
      ∈ log (for_groups le key body zone).
Proof.
  intros Hbody Hes He Hc.
  apply (for_groups_elem le key body zone es e Hes) in He
    as (k & es_k & Hk & Hes_k & He).
  exists k. split; [done|].
  eapply (for_groups_log_elem le key); [exact Hes|exact Hk|].
  apply (Hbody _ es_k); [done..|]. eauto.
Qed.

Lemma for_groups_cause {K : Type} `{EqDecision K} (le : relation K)
    `{!RelDecision le} (key : zrow → option K)
    (body : list zrow → M (list element)) (zone : list zrow)
    (es : list element) (w : warning) :
  reports_constructions catalog body →
  outcome (for_groups le key body zone) = Ok es →
  is_construction_warning w = true →
  w ∈ log (for_groups le key body zone) →
  ∃ k e, k ∈ group_keys le key zone ∧ e ∈ es ∧
    catalog (e_kind e) (e_construction e) = false ∧
    w = construction_warning (group_of key zone k) e.
Proof.
  intros Hbody Hes Hw Hin.
  rewrite (for_groups_log le key body zone es Hes) in Hin.
  apply elem_of_concat in Hin
    as (ws & (k & -> & Hk)%list_elem_of_fmap & Hin).
  pose proof Hes as (ess & Hess & _)%for_groups_outcome.
  pose proof Hk as [i Hi]%list_elem_of_lookup.
  destruct (Forall2_lookup_l _ _ _ _ _ Hess Hi) as (es_k & _ & Hes_k).
  apply (Hbody _ es_k w Hes_k Hw) in Hin as (e & He & Hc & ->).
  exists k, e. split_and!; [done| |done..].
  apply (for_groups_elem le key body zone es e Hes). eauto.
Qed.

Lemma group_of_zone {K : Type} `{EqDecision K} (le : relation K)
    `{!RelDecision le} (key : zrow → option K) (zone : list zrow)
    (name : cell) (k : K) :
  (∀ r, r ∈ zone → Zone r = name) →
  k ∈ group_keys le key zone →
  group_of key zone k ≠ [] ∧
  (∀ r, r ∈ group_of key zone k → r ∈ zone) ∧
  iloc0 Zone (group_of key zone k) = name.
Proof.
  intros Hzone Hk.
  assert (group_of key zone k ≠ []) as Hne by by eapply group_of_nonempty.
  split_and!; [done|by intros r [? _]%elem_of_group_of|].
  apply iloc0_group; [done|]. intros r [? _]%elem_of_group_of. auto.
Qed.

Lemma build_zone_reported (name : cell) (zone : list zrow)
    (tz : thermal_zone) (e : element) :
  (∀ r, r ∈ zone → Zone r = name) →
  outcome (build_zone catalog load_use_conditions name zone) = Ok tz →
  e ∈ tz_elements tz → catalog (e_kind e) (e_construction e) = false →
  ∃ group, group ≠ [] ∧ (∀ r, r ∈ group → r ∈ zone) ∧
    WConstruction name (e_kind e)
      (iloc0 (OuterWallConstruction ∘ base) group) (labels group)
      ∈ log (build_zone catalog load_use_conditions name zone).
Proof.
  intros Hzone Hb He Hc. rewrite (build_zone_log _ _ _ _ _ Hb).
  apply build_zone_Ok in Hb as (_ & _ & _ & How & Hwi & Hfl & Hce & Hiw & _).
  unfold tz_elements in He. rewrite !elem_of_app in He.
  assert (∀ {K} `{EqDecision K} (le : relation K) `{!RelDecision le}
            (key : zrow → option K) body es,
            reports_constructions catalog body →
            outcome (for_groups le key body zone) = Ok es → e ∈ es →
            ∃ group, group ≠ [] ∧ (∀ r, r ∈ group → r ∈ zone) ∧
              WConstruction name (e_kind e)
                (iloc0 (OuterWallConstruction ∘ base) group) (labels group)
                ∈ log (for_groups le key body zone)) as Hloop.
  { intros K ? le ? key body es Hbody Hes Hin.
    destruct (for_groups_reported le key body zone es e Hbody Hes Hin Hc)
      as (k & Hk & Hw).
    destruct (group_of_zone le key zone name k Hzone Hk) as (? & ? & Hn).
    exists (group_of key zone k). split_and!; [done..|].
    unfold construction_warning in Hw. by rewrite Hn in Hw. }
  destruct He as [He|[He|[He|[He|He]]]].
  - destruct (Hloop _ _ _ _ _ _ _ (facade_group_reports _ _ _ _ _) How He)
      as (g & ? & ? & ?).
    exists g. split_and!; [done..|]. rewrite !elem_of_app. auto 7.
  - destruct (Hloop _ _ _ _ _ _ _ (facade_group_reports _ _ _ _ _) Hwi He)
      as (g & ? & ? & ?).
    exists g. split_and!; [done..|]. rewrite !elem_of_app. auto 7.
  - destruct (Hloop _ _ _ _ _ _ _ (level_group_reports _ _ _ _ _ _) Hfl He)
      as (g & ? & ? & ?).
    exists g. split_and!; [done..|]. rewrite !elem_of_app. auto 7.
  - destruct (Hloop _ _ _ _ _ _ _ (level_group_reports _ _ _ _ _ _) Hce He)
      as (g & ? & ? & ?).
    exists g. split_and!; [done..|]. rewrite !elem_of_app. auto 7.
  - destruct (Hloop _ _ _ _ _ _ _ inner_wall_group_reports Hiw He)
      as (g & ? & ? & ?).
    exists g. split_and!; [done..|]. rewrite !elem_of_app. auto 7.
Qed.

Lemma build_zone_cause (name : cell) (zone : list zrow)
    (tz : thermal_zone) (zone' : cell) (k : kind) (c : cell)
    (members : list cell) :
  (∀ r, r ∈ zone → Zone r = name) →
  outcome (build_zone catalog load_use_conditions name zone) = Ok tz →
  WConstruction zone' k c members
    ∈ log (build_zone catalog load_use_conditions name zone) →
  zone' = name ∧
  ∃ e, e ∈ tz_elements tz ∧ e_kind e = k ∧
       catalog k (e_construction e) = false.
Proof.
  intros Hzone Hb Hw. rewrite (build_zone_log _ _ _ _ _ Hb) in Hw.
  apply build_zone_Ok in Hb as (_ & _ & _ & How & Hwi & Hfl & Hce & Hiw & _).
  assert (∀ {K} `{EqDecision K} (le : relation K) `{!RelDecision le}
            (key : zrow → option K) body es,
            reports_constructions catalog body →
            outcome (for_groups le key body zone) = Ok es →
            WConstruction zone' k c members
              ∈ log (for_groups le key body zone) →
            zone' = name ∧
            ∃ e, e ∈ es ∧ e_kind e = k ∧
                 catalog k (e_construction e) = false) as Hloop.
  { intros K ? le ? key body es Hbody Hes Hin.
    destruct (for_groups_cause le key body zone es
                (WConstruction zone' k c members) Hbody Hes eq_refl Hin)
      as (kk & e & Hkk & He & Hc & Heq).
    destruct (group_of_zone le key zone name kk Hzone Hkk) as (_ & _ & Hn).
    unfold construction_warning in Heq. rewrite Hn in Heq.
    injection Heq as -> -> _ _. eauto. }
  unfold tz_elements. setoid_rewrite elem_of_app.
  rewrite !elem_of_app in Hw.
  destruct Hw as [Hw|[Hw|[Hw|[Hw|[Hw|Hw]]]]].
  - destruct (Hloop _ _ _ _ _ _ _ (facade_group_reports _ _ _ _ _) How Hw)
      as (? & e & ? & ? & ?). eauto 8.
  - destruct (Hloop _ _ _ _ _ _ _ (facade_group_reports _ _ _ _ _) Hwi Hw)
      as (? & e & ? & ? & ?). split; [done|]. exists e.
    setoid_rewrite elem_of_app. auto 8.
  - destruct (Hloop _ _ _ _ _ _ _ (level_group_reports _ _ _ _ _ _) Hfl Hw)
      as (? & e & ? & ? & ?). split; [done|]. exists e.
    rewrite !elem_of_app. auto 8.
  - destruct (Hloop _ _ _ _ _ _ _ (level_group_reports _ _ _ _ _ _) Hce Hw)
      as (? & e & ? & ? & ?). split; [done|]. exists e.
    rewrite !elem_of_app. auto 8.
  - destruct (Hloop _ _ _ _ _ _ _ inner_wall_group_reports Hiw Hw)
      as (? & e & ? & ? & ?). split; [done|]. exists e.
    rewrite !elem_of_app. auto 8.
  - unfold ahu_check in Hw. case_match; simpl in Hw.
    + by apply elem_of_nil in Hw.
    + by apply list_elem_of_singleton in Hw.
Qed.

Lemma import_building_log (d : list row) (Z : list zrow)
    (zones : list thermal_zone) :
  outcome (import_building_from_excel catalog load_use_conditions d)
    = Ok zones →
  outcome (zoning_example d) = Ok Z →
  log (import_building_from_excel catalog load_use_conditions d) =
  log (zoning_example d) ++
  concat ((λ name, log (build_zone catalog load_use_conditions name
                          (zone_rows Z name))) <$> zone_names Z).
Proof.
  intros Hok HZ. unfold import_building_from_excel in *.
  rewrite outcome_bind, HZ in Hok. cbn [rbind] in Hok.
  rewrite (log_bind_Ok _ _ Z HZ). f_equal.
  rewrite (log_for_each_Ok _ _ _ Hok). unfold groupby.
  by rewrite <-list_fmap_compose.
Qed.

(** Property X12.  An element whose construction the catalog does not
    know is kept in its zone and reported: the log of the run holds the
    diagnostic for the zone and the kind of the element.  The construction
    that the diagnostic names is the outer-wall construction of the first
    row of the group of rows the element was made from, and the rows it
    lists are that group. *)
Theorem unknown_constructions_are_reported (d : list row) (Z : list zrow)
    (zones : list thermal_zone) (tz : thermal_zone) (e : element) :
  outcome (import_building_from_excel catalog load_use_conditions d)
    = Ok zones →
  outcome (zoning_example d) = Ok Z →
  tz ∈ zones → e ∈ tz_elements tz →
  catalog (e_kind e) (e_construction e) = false →
  ∃ group, group ≠ [] ∧
    (∀ r, r ∈ group → r ∈ Z ∧ Zone r = tz_name tz) ∧
    WConstruction (tz_name tz) (e_kind e)
      (iloc0 (OuterWallConstruction ∘ base) group) (labels group)
      ∈ log (import_building_from_excel catalog load_use_conditions d).
Proof.
  intros Hok HZ Htz He Hc.
  destruct (import_building_zone_inv catalog load_use_conditions
              d Z zones tz Hok HZ Htz) as [Hname Hb].
  destruct (build_zone_reported (tz_name tz) (zone_rows Z (tz_name tz))
              tz e (zone_rows_Zone Z (tz_name tz)) Hb He Hc)
    as (group & Hne & Hsub & Hw).
  exists group. split_and!; [done| |].
  - intros r Hr. specialize (Hsub r Hr). split.
    + by apply elem_of_group_of in Hsub as [? _].
    + by eapply zone_rows_Zone.
  - rewrite (import_building_log d Z zones Hok HZ), elem_of_app. right.
    apply elem_of_concat. eexists. split; [|exact Hw].
    by apply (list_elem_of_fmap_2
                (λ name, log (build_zone catalog load_use_conditions name
                                (zone_rows Z name)))).
Qed.

(** Property X13.  The run logs no diagnostic on a construction without
    cause: for every such diagnostic in the log of a successful run, the
    zone it names has an element of the kind it names whose construction
    the catalog does not know. *)
Theorem construction_diagnostics_have_a_cause (d : list row)
    (zones : list thermal_zone) (zone : cell) (k : kind) (c : cell)
    (members : list cell) :
  outcome (import_building_from_excel catalog load_use_conditions d)
    = Ok zones →
  WConstruction zone k c members
    ∈ log (import_building_from_excel catalog load_use_conditions d) →
  ∃ tz e, tz ∈ zones ∧ tz_name tz = zone ∧ e ∈ tz_elements tz ∧
    e_kind e = k ∧ catalog k (e_construction e) = false.
Proof.
  intros Hok Hw.
  pose proof Hok as (Z & HZ & Hzones)%import_building_Ok.
  rewrite (import_building_log d Z zones Hok HZ), elem_of_app in Hw.
  destruct Hw as [Hw|Hw].
  - pose proof HZ as (D & HD & _)%zoning_example_spec.
    rewrite (zoning_example_log d D HD), elem_of_app, !elem_of_concat in Hw.
    destruct Hw as [(ws & (r & -> & _)%list_elem_of_fmap
                       & Hw%net_area_warning_spec)
                   |(ws & (g & -> & _)%list_elem_of_fmap & Hw)].
    + by destruct Hw.
    + unfold main_usage_warning in Hw. case_bool_decide;
        [apply list_elem_of_singleton in Hw|apply elem_of_nil in Hw]; done.
  - apply elem_of_concat in Hw
      as (ws & (name & -> & [i Hi]%list_elem_of_lookup)%list_elem_of_fmap
          & Hw).
    destruct (Forall2_lookup_l _ _ _ _ _ Hzones Hi) as (tz & Htz & Hb).
    destruct (build_zone_cause name (zone_rows Z name) tz zone k c members
                (zone_rows_Zone Z name) Hb Hw) as (-> & e & He & Hk & Hc).
    exists tz, e. split_and!; [by eapply list_elem_of_lookup_2| |done..].
    by apply build_zone_Ok in Hb as [? _].
Qed.
End construction_facts.

Lemma unknown_constructions_are_reported_witness :
  ∃ Z zones tz e,
    outcome (import_building_from_excel no_windows_catalog (λ _, Ok tt)
               envelope_table) = Ok zones ∧
    outcome (zoning_example envelope_table) = Ok Z ∧
    tz ∈ zones ∧ e ∈ tz_elements tz ∧ e_kind e = Window ∧
    e_construction e = Str "Glass" ∧
    no_windows_catalog (e_kind e) (e_construction e) = false ∧
    ∃ group, group ≠ [] ∧
      (∀ r, r ∈ group → r ∈ Z ∧ Zone r = tz_name tz) ∧
      WConstruction (tz_name tz) (e_kind e)
        (iloc0 (OuterWallConstruction ∘ base) group) (labels group)
        ∈ log (import_building_from_excel no_windows_catalog (λ _, Ok tt)
                 envelope_table).
Proof.
  eexists _, _, _, _.
  split; [vm_compute; reflexivity|].
  split; [vm_compute; reflexivity|].
  split; [left|]. split; [right; left|].
  split; [reflexivity|]. split; [reflexivity|]. split; [reflexivity|].
  eapply (unknown_constructions_are_reported no_windows_catalog
            (λ _, Ok tt) envelope_table);
    [vm_compute; reflexivity|vm_compute; reflexivity|left|right; left
    |reflexivity].
Defined.

Lemma construction_diagnostics_have_a_cause_witness :
  ∃ zones,
    outcome (import_building_from_excel no_windows_catalog (λ _, Ok tt)
               envelope_table) = Ok zones ∧
    WConstruction office_zone Window (Str "Brick") [num 0; num 3; num 4]
      ∈ log (import_building_from_excel no_windows_catalog (λ _, Ok tt)
               envelope_table) ∧
    ∃ tz e, tz ∈ zones ∧ tz_name tz = office_zone ∧ e ∈ tz_elements tz ∧
      e_kind e = Window ∧
      no_windows_catalog Window (e_construction e) = false.
Proof.
  eexists.
  split; [vm_compute; reflexivity|].
  assert (WConstruction office_zone Window (Str "Brick")
            [num 0; num 3; num 4]
            ∈ log (import_building_from_excel no_windows_catalog
                     (λ _, Ok tt) envelope_table)) as Hw by by_decide.
  split; [exact Hw|].
  apply (construction_diagnostics_have_a_cause no_windows_catalog
           (λ _, Ok tt) envelope_table _ office_zone Window (Str "Brick")
           [num 0; num 3; num 4]);
    [vm_compute; reflexivity|exact Hw].
Defined.

(** ** The inner walls of a zone *)

Section inner_walls_of_zones.
Variable catalog : kind → cell → bool.
Variable load_use_conditions : cell → result unit.

Local Abbreviation iw_key :=
  (λ r : zrow, present (InnerWallConstruction (base r))).

Lemma inner_walls_spec (zone : list zrow) (name : cell) (es : list element)
    (c : cell) :
  (∀ r, r ∈ zone → Zone r = name) →
  outcome (inner_walls catalog zone) = Ok es →
  c ∈ group_keys cell_le iw_key zone →
  ∃ s, nansum (column InnerWallArea (group_of iw_key zone c)) = Ok s ∧
    filter (of_construction c) es =
      (if bool_decide (s ≠ 0) then
         [{| e_kind := InnerWall; e_area := s / Qc_of_Z 2;
             e_tilt := None; e_orientation := None;
             e_construction := c |}]
       else []) ∧
    (s = 0 → WNoInnerWall name c ∈ log (inner_walls catalog zone)).
Proof.
  intros Hzone Hes Hc.
  pose proof Hes as (ess & Hess & ->)%for_groups_outcome.
  pose proof Hc as [i Hi]%list_elem_of_lookup.
  destruct (Forall2_lookup_l _ _ _ _ _ Hess Hi) as (es_c & _ & Hk).
  cbv beta in Hk. pose proof Hk as Hk'. unfold inner_wall_group in Hk'.
  rewrite outcome_bind, outcome_lift in Hk'.
  apply rbind_Ok in Hk' as (s & Hs & _).
  exists s. split; [done|]. split.
  - pose proof (filter_concat_groups of_construction
                  (λ c es_c,
                     outcome (inner_wall_group catalog
                                (group_of iw_key zone c)) = Ok es_c)
                  (group_keys cell_le iw_key zone) ess c
                  (if bool_decide (s ≠ 0) then
                     [{| e_kind := InnerWall; e_area := s / Qc_of_Z 2;
                         e_tilt := None; e_orientation := None;
                         e_construction := c |}]
                   else [])
                  (NoDup_group_keys _ _ _) Hess) as Hf.
    apply Hf; [| |exact Hc]; clear Hf.
    + intros c' es' e Hc' Hes' He c''. cbv beta in Hes'.
      pose proof Hes' as Hes''. unfold inner_wall_group in Hes''.
      rewrite outcome_bind, outcome_lift in Hes''.
      apply rbind_Ok in Hes'' as (s' & Hs' & _).
      rewrite (inner_wall_group_outcome catalog zone c' s' Hc' Hs') in Hes'.
      injection Hes' as <-. case_bool_decide; [|by apply elem_of_nil in He].
      apply list_elem_of_singleton in He as ->. unfold of_construction. simpl.
      split; congruence.
    + intros es' Hes'. cbv beta in Hes'.
      rewrite (inner_wall_group_outcome catalog zone c s Hc Hs) in Hes'.
      congruence.
  - intros ->.
    eapply (for_groups_log_elem cell_le iw_key); [exact Hes|exact Hc|].
    destruct (group_of_zone cell_le iw_key zone name c Hzone Hc)
      as (Hne & _ & Hn).
    assert (iloc0 (InnerWallConstruction ∘ base) (group_of iw_key zone c) = c)
      as Hic.
    { apply iloc0_group; [done|].
      by intros r [_ [? _]%present_Some]%elem_of_group_of. }
    unfold inner_wall_group. rewrite Hs, Hn, Hic.
    rewrite (log_bind_Ok _ _ 0) by done.
    rewrite bool_decide_false by (intros H; by apply H). simpl. left.
Qed.

(** Property X11.  The inner walls of a zone, construction by
    construction: when the summed inner-wall area of the rows with that
    construction is not 0, the zone has exactly one inner wall of that
    construction, with half that sum for area; when it is 0 the zone has
    none and the run logs the diagnostic for the zone and the
    construction. *)
Theorem inner_walls_of_every_zone (d : list row) (Z : list zrow)
    (zones : list thermal_zone) (name c : cell) :
  outcome (import_building_from_excel catalog load_use_conditions d)
    = Ok zones →
  outcome (zoning_example d) = Ok Z →
  name ∈ zone_names Z →
  c ∈ group_keys cell_le iw_key (zone_rows Z name) →
  ∃ tz s, tz ∈ zones ∧ tz_name tz = name ∧
    nansum (column InnerWallArea (group_of iw_key (zone_rows Z name) c))
      = Ok s ∧
    (s ≠ 0 →
       filter (of_construction c) (tz_inner_walls tz) =
       [{| e_kind := InnerWall; e_area := s / Qc_of_Z 2;
           e_tilt := None; e_orientation := None;
           e_construction := c |}]) ∧
    (s = 0 →
       filter (of_construction c) (tz_inner_walls tz) = [] ∧
       WNoInnerWall name c
         ∈ log (import_building_from_excel catalog load_use_conditions d)).
Proof.
  intros Hok HZ Hname Hc.
  destruct (import_building_zone _ _ d Z zones name Hok HZ Hname)
    as (tz & Htz & Hb & Hlog).
  pose proof (build_zone_log _ _ _ _ _ Hb) as Hl.
  apply build_zone_Ok in Hb as (Hn & _ & _ & _ & _ & _ & _ & Hiw & _).
  destruct (inner_walls_spec (zone_rows Z name) name (tz_inner_walls tz) c
              (zone_rows_Zone Z name) Hiw Hc) as (s & Hs & Hf & Hw).
  exists tz, s. split_and!; [done..| |].
  - intros Hne. by rewrite bool_decide_true in Hf.
  - intros H0. split.
    + rewrite bool_decide_false in Hf; [done|]. intros H; by apply H.
    + apply Hlog. rewrite Hl, !elem_of_app. auto 8.
Qed.
End inner_walls_of_zones.

Lemma inner_walls_of_every_zone_witness :
  ∃ Z zones,
    outcome (import_building_from_excel (λ _ _, true) (λ _, Ok tt)
               envelope_table) = Ok zones ∧
    outcome (zoning_example envelope_table) = Ok Z ∧
    office_zone ∈ zone_names Z ∧
    Str "Gypsum"
      ∈ group_keys cell_le
          (λ r : zrow, present (InnerWallConstruction (base r)))
          (zone_rows Z office_zone) ∧
    ∃ tz s, tz ∈ zones ∧ tz_name tz = office_zone ∧
      nansum (column InnerWallArea
                (group_of
                   (λ r : zrow, present (InnerWallConstruction (base r)))
                   (zone_rows Z office_zone) (Str "Gypsum")))
        = Ok s ∧
      (s ≠ 0 →
         filter (of_construction (Str "Gypsum")) (tz_inner_walls tz) =
         [{| e_kind := InnerWall; e_area := s / Qc_of_Z 2;
             e_tilt := None; e_orientation := None;
             e_construction := Str "Gypsum" |}]) ∧
      (s = 0 →
         filter (of_construction (Str "Gypsum")) (tz_inner_walls tz)
           = [] ∧
         WNoInnerWall office_zone (Str "Gypsum")
           ∈ log (import_building_from_excel (λ _ _, true) (λ _, Ok tt)
                    envelope_table)).
Proof.
  eexists _, _.
  split; [vm_compute; reflexivity|].
  split; [vm_compute; reflexivity|].
  split; [by_decide|]. split; [by_decide|].
  apply (inner_walls_of_every_zone (λ _ _, true) (λ _, Ok tt)
           envelope_table);
    [vm_compute; reflexivity|vm_compute; reflexivity|by_decide|by_decide].
Defined.

(** ** The table that [import_data] returns *)

Lemma num_inj (z1 z2 : Z) : num z1 = num z2 → z1 = z2.
Proof. unfold num. intros H. by injection H. Qed.

Lemma range_index_length (sheets : list (list (list cell))) :
  length (concat (range_index <$> sheets)) = length (concat sheets).
Proof.
  induction sheets as [|sh sheets IH]; [done|].
  rewrite fmap_cons. simpl. rewrite !length_app, IH. unfold range_index.
  by rewrite length_imap.
Qed.

(** Property X14.  With a list of sheets, [import_data] returns as many
    rows as the sheets have together, labelled 0, 1, ... in that order: the
    labels are pairwise distinct. *)
Theorem import_data_labels (sheets : list (list (list cell))) :
  length (import_data (Sheets sheets)) = length (concat sheets) ∧
  (import_data (Sheets sheets)).*1
    = (λ n, num (Z.of_nat n)) <$> seq 0 (length (concat sheets)) ∧
  NoDup (import_data (Sheets sheets)).*1.
Proof.
  assert ((import_data (Sheets sheets)).*1
          = (λ n, num (Z.of_nat n)) <$> seq 0 (length (concat sheets)))
    as Hlabels.
  { apply list_eq. intros i.
    change (import_data (Sheets sheets))
      with ((λ ir : cell * list cell, (ir.1, clean_cell <$> ir.2))
              <$> reset_index_plus_two (concat (range_index <$> sheets))).
    unfold reset_index_plus_two.
    rewrite !list_lookup_fmap, list_lookup_imap.
    rewrite <-(range_index_length sheets).
    destruct (concat (range_index <$> sheets) !! i) as [x|] eqn:Hi; simpl.
    - apply lookup_lt_Some in Hi. by rewrite lookup_seq_lt.
    - apply lookup_ge_None in Hi. by rewrite lookup_seq_ge. }
  split_and!; [|done|].
  - rewrite <-(length_fmap fst), Hlabels, length_fmap. apply length_seq.
  - rewrite Hlabels. apply NoDup_fmap_2; [|apply NoDup_seq].
    intros n1 n2 Hn%num_inj. lia.
Qed.

Lemma lstrip_id (s : string) : starts_with_space s = false → lstrip s = s.
Proof. destruct s as [|c s]; simpl; [done|]. by intros ->. Qed.

Lemma rstrip_id (s : string) : ends_with_space s = false → rstrip s = s.
Proof.
  induction s as [|c s IH]; [done|]. cbn [rstrip ends_with_space].
  destruct s as [|c' s]; [by intros ->|].
  intros H. by rewrite (IH H).
Qed.

Lemma strip_idemp (s : string) : strip (strip s) = strip s.
Proof.
  destruct (strip_spec s) as (_ & _ & _ & _ & _ & Hst & Hend).
  unfold strip at 1. by rewrite lstrip_id, rstrip_id.
Qed.

Lemma clean_cell_idemp (c : cell) : clean_cell (clean_cell c) = clean_cell c.
Proof.
  rewrite (clean_cell_spec c). destruct c as [|q|s]; [done..|].
  case_decide as Htok; [done|].
  rewrite clean_cell_spec, strip_idemp. by rewrite decide_False.
Qed.

(** Property X15.  Normalization is idempotent: a table that
    [import_data] returned, read again as a single sheet, is returned
    unchanged. *)
Theorem import_data_is_idempotent (wb : workbook) :
  import_data (Single (import_data wb)) = import_data wb.
Proof.
  unfold import_data at 1. cbv zeta.
  unfold import_data. cbv zeta. rewrite <-list_fmap_compose.
  apply list_fmap_ext. intros i [l r] _. simpl. f_equal.
  rewrite <-list_fmap_compose. apply list_fmap_ext. intros j c _. simpl.
  apply clean_cell_idemp.
Qed.

(** ** The target of a retrofit over the years *)

(** Property X16.  The target U-value of a retrofit never rises with the
    year: if a year has a target, every later year has one, which is
    positive and not above it. *)
Theorem calc_u_never_rises (year1 year2 : Z) (u1 : Qc) :
  (year1 ≤ year2)%Z → calc_u year1 = Some u1 →
  ∃ u2, calc_u year2 = Some u2 ∧ 0 < u2 ∧ u2 ≤ u1.
Proof.
  intros Hle. unfold calc_u.
  repeat (case_bool_decide; try lia); intros [= <-];
    (eexists; split; [reflexivity|]; split; by_decide).
Qed.

Lemma calc_u_never_rises_witness :
  (1980 ≤ 2016)%Z ∧ calc_u 1980 = Some (Q2Qc (8 # 10)) ∧
  ∃ u2, calc_u 2016 = Some u2 ∧ 0 < u2 ∧ u2 ≤ Q2Qc (8 # 10).
Proof.
  split; [lia|]. split; [reflexivity|].
  apply (calc_u_never_rises 1980 2016 (Q2Qc (8 # 10))); [lia|reflexivity].
Defined.

(** ** Tables on which the import succeeds, in terms of the input *)

Lemma usages_known_reclassified (d D : list row) :
  rmapM reclassify d = Ok D →
  (∀ r, r ∈ d → is_main r →
     ∃ v, dict_get usage_to_json_usage (UsageType r) = Ok v) →
  usages_known D.
Proof.
  intros HD%rmapM_Ok Hd r _ Hu. unfold cluster_usage in *.
  destruct (isna (cluster_key r)); [done|].
  destruct (last (main_lines D (cluster_key r))) as [line|] eqn:Hl; [|done].
  simpl in *. apply last_Some_elem_of in Hl.
  apply list_elem_of_filter in Hl as [[Hm _] [i Hi]%list_elem_of_lookup].
  destruct (Forall2_lookup_r _ _ _ _ _ HD Hi) as (line0 & Hi0 & Hr).
  apply reclassify_keys in Hr as (_ & Hm' & Hu').
  rewrite Hu'. apply Hd; [by eapply list_elem_of_lookup_2|].
  by rewrite <-Hm'.
Qed.

(** Property X17.  The import succeeds on every table without strings in
    its numeric columns in which some line declares a room with a usage and
    every usage so declared is a key of the mapping, provided that the use
    conditions load. *)
Theorem import_succeeds_on_clean_tables (catalog : kind → cell → bool)
    (load_use_conditions : cell → result unit) (d : list row) :
  (∀ r, r ∈ d → numeric_columns r) →
  has_main d →
  (∀ r, r ∈ d → is_main r →
     ∃ v, dict_get usage_to_json_usage (UsageType r) = Ok v) →
  (∀ u, load_use_conditions u = Ok tt) →
  ∃ zones,
    outcome (import_building_from_excel catalog load_use_conditions d)
      = Ok zones.
Proof.
  intros Hnum Hmain Hknown Hluc.
  destruct (import_succeeds catalog load_use_conditions d Hnum)
    as (D & HD & Hok).
  apply Hok; [|by eapply usages_known_reclassified|done].
  by apply (has_main_reclassified d D HD).
Qed.

Lemma import_succeeds_on_clean_tables_witness :
  (∀ r, r ∈ envelope_table → numeric_columns r) ∧
  has_main envelope_table ∧
  (∀ r, r ∈ envelope_table → is_main r →
     ∃ v, dict_get usage_to_json_usage (UsageType r) = Ok v) ∧
  (∀ u : cell, (λ _ : cell, Ok tt) u = Ok tt) ∧
  ∃ zones,
    outcome (import_building_from_excel no_windows_catalog (λ _, Ok tt)
               envelope_table) = Ok zones.
Proof.
  assert (∀ r, r ∈ envelope_table → numeric_columns r) as Hnum.
  { intros r Hr.
    repeat (apply elem_of_cons in Hr as [->|Hr]; [by repeat split|]).
    by apply elem_of_nil in Hr. }
  assert (has_main envelope_table) as Hmain by by_decide.
  assert (∀ r, r ∈ envelope_table → is_main r →
            ∃ v, dict_get usage_to_json_usage (UsageType r) = Ok v) as Hknown.
  { intros r Hr Hm.
    repeat (apply elem_of_cons in Hr as [->|Hr];
            [first [by destruct Hm | by eexists; vm_compute]|]).
    by apply elem_of_nil in Hr. }
  split; [exact Hnum|]. split; [exact Hmain|]. split; [exact Hknown|].
  split; [reflexivity|].
  apply (import_succeeds_on_clean_tables no_windows_catalog (λ _, Ok tt)
           envelope_table Hnum Hmain Hknown).
  reflexivity.
Defined.

(** ** Which usage the [KeyError] names *)







(** ** The use conditions of the zones *)

(** Property X19.  In a successful run the use conditions have been
    loaded for the name of every zone, the zone named by the empty string
    included. *)
Theorem use_conditions_are_loaded_per_zone (catalog : kind → cell → bool)
    (load_use_conditions : cell → result unit)
    (d : list row) (zones : list thermal_zone) (tz : thermal_zone) :
  outcome (import_building_from_excel catalog load_use_conditions d)
    = Ok zones →
  tz ∈ zones →
  load_use_conditions (tz_name tz) = Ok tt.
Proof.
  intros Hok Htz.
  pose proof Hok as (Z & HZ & _)%import_building_Ok.
  destruct (import_building_zone_inv catalog load_use_conditions
              d Z zones tz Hok HZ Htz) as [Hname Hb].
  apply build_zone_full in Hb.
  rewrite (iloc0_group UsageType_Teaser _ (tz_name tz)) in Hb; [done| |].
  - by eapply group_of_nonempty.
  - intros r Hr. pose proof (zone_rows_Zone _ _ _ Hr) as <-.
    apply elem_of_group_of in Hr as [Hr _].
    by eapply zoning_example_teaser.
Qed.

Lemma use_conditions_are_loaded_per_zone_witness :
  ∃ zones tz,
    outcome (import_building_from_excel (λ _ _, true) no_blank_usage
               envelope_table) = Ok zones ∧
    tz ∈ zones ∧
    no_blank_usage (tz_name tz) = Ok tt.
Proof.
  eexists _, _.
  split; [vm_compute; reflexivity|]. split; [left|].
  eapply (use_conditions_are_loaded_per_zone (λ _ _, true) no_blank_usage
            envelope_table); [vm_compute; reflexivity|left].
Defined.

(** With use conditions that do not load for the empty label, a table with
    a room without usage is not imported. *)
Example blank_zone_needs_use_conditions :
  outcome (import_building_from_excel (λ _ _, true) no_blank_usage
             ambiguous_usage_table)
    = Raise (KeyError (Str EmptyString)) ∧
  ∃ zones,
    outcome (import_building_from_excel (λ _ _, true) (λ _, Ok tt)
               ambiguous_usage_table) = Ok zones.
Proof. split; [|eexists]; vm_compute; reflexivity. Qed.
